(** * Akai MPD218 controller script for Mixxx

    A shallow embedding of [Akai-MPD218-milkii-scripts.js]: the NRPN
    assembler, the encoder motion dispatcher with its per-action transfer
    functions, the beat-jump rate tracker and the differential LED feedback
    renderer, together with the properties stated about them.

    JavaScript numbers are IEEE 754 binary64 values.  They are modelled by
    the Standard Library's [spec_float] with its binary64 operations, so
    that every arithmetic step of the script is reproduced bit for bit.
    MIDI data bytes, status bytes, note numbers, timer handles and
    [Date.now()] readings are integers and are modelled in [Z]. *)

From Stdlib Require Import ZArith List Bool Lia Ascii String.
From Stdlib Require Import Floats.
From stdpp Require Import gmap strings pretty sorting.

Open Scope Z_scope.

(** ** JavaScript numbers *)

Module JS.

Definition number : Type := spec_float.

Definition NaN : number := S754_nan.

(** [ToNumber] of an integer value. *)
Definition of_Z (z : Z) : number := binary_normalize prec emax z 0 false.

Definition add (a b : number) : number := SF64add a b.
Definition sub (a b : number) : number := SF64sub a b.
Definition mul (a b : number) : number := SF64mul a b.
Definition div (a b : number) : number := SF64div a b.
Definition neg (a : number) : number := SFopp a.

Definition lt (a b : number) : bool := SFltb a b.
Definition le (a b : number) : bool := SFleb a b.
Definition gt (a b : number) : bool := SFltb b a.
Definition ge (a b : number) : bool := SFleb b a.
(** [===] on two numbers: [NaN] differs from itself, [+0 === -0]. *)
Definition strict_eq (a b : number) : bool := SFeqb a b.

(** Truthiness of a number: [0], [-0] and [NaN] are falsy. *)
Definition truthy (a : number) : bool :=
  match a with
  | S754_zero _ | S754_nan => false
  | _ => true
  end.

(** [a || b] on numbers. *)
Definition or_else (a b : number) : number := if truthy a then a else b.

Definition is_nan (a : number) : bool :=
  match a with S754_nan => true | _ => false end.

(** The integer value of a number that holds one (truncating otherwise);
    [NaN] and the infinities give [0]. *)
Definition to_Z (a : number) : Z :=
  match a with
  | S754_finite s m e =>
      let v := if 0 <=? e then Z.shiftl (Zpos m) e else Z.shiftr (Zpos m) (- e) in
      if s then - v else v
  | _ => 0
  end.

(** [Math.max] and [Math.min] of two arguments: [NaN] is contagious and
    [+0] counts as larger than [-0]. *)
Definition Math_max (a b : number) : number :=
  match SFcompare a b with
  | None => NaN
  | Some Lt => b
  | Some Gt => a
  | Some Eq =>
      match a, b with
      | S754_zero false, S754_zero true => a
      | _, _ => b
      end
  end.

Definition Math_min (a b : number) : number :=
  match SFcompare a b with
  | None => NaN
  | Some Lt => a
  | Some Gt => b
  | Some Eq =>
      match a, b with
      | S754_zero true, S754_zero false => a
      | _, _ => b
      end
  end.

Definition Math_abs (a : number) : number := SFabs a.

(** [Math.floor]: the largest integral number not above the argument.
    A finite [m * 2^e] with [e < 0] is floored exactly in [Z]
    ([Z.shiftr] rounds towards minus infinity). *)
Definition Math_floor (a : number) : number :=
  match a with
  | S754_finite s m e =>
      if 0 <=? e then a
      else
        match Z.shiftr (if s then Zneg m else Zpos m) (- e) with
        | Z0 => S754_zero false
        | q => of_Z q
        end
  | _ => a
  end.

(** [Math.round]: the nearest integral number, ties towards plus
    infinity, computed exactly as [floor ((2 x + 1) / 2)]; a result of
    zero keeps the sign of a negative argument. *)
Definition Math_round (a : number) : number :=
  match a with
  | S754_finite s m e =>
      if 0 <=? e then a
      else
        let two_x_plus_1 := 2 * (if s then Zneg m else Zpos m) + Z.shiftl 1 (- e) in
        match Z.shiftr two_x_plus_1 (- e + 1) with
        | Z0 => S754_zero s
        | q => of_Z q
        end
  | _ => a
  end.

(** [ToInt32], and the 32-bit operators [<<], [|] and [&] on integers. *)
Definition to_int32 (z : Z) : Z := (z + 2 ^ 31) mod 2 ^ 32 - 2 ^ 31.
Definition shl (a n : Z) : Z := to_int32 (Z.shiftl (to_int32 a) (Z.land n 31)).
Definition bor (a b : Z) : Z := Z.lor (to_int32 a) (to_int32 b).
Definition band (a b : Z) : Z := Z.land (to_int32 a) (to_int32 b).

(** Number literals of the script, as the nearest binary64 values. *)
Definition lit_0 : number := S754_zero false.
Definition lit_1 : number := S754_finite false 4503599627370496 (-52).
Definition lit_0_05 : number := S754_finite false 7205759403792794 (-57).
Definition lit_0_01 : number := S754_finite false 5764607523034235 (-59).
Definition lit_0_001 : number := S754_finite false 4611686018427388 (-62).
Definition lit_0_1 : number := S754_finite false 7205759403792794 (-56).
Definition lit_0_5 : number := S754_finite false 4503599627370496 (-53).
Definition lit_0_999 : number := S754_finite false 8998192055486251 (-53).
Definition lit_2 : number := S754_finite false 4503599627370496 (-51).
Definition lit_4 : number := S754_finite false 4503599627370496 (-50).
Definition lit_15 : number := S754_finite false 8444249301319680 (-49).
Definition lit_16 : number := S754_finite false 4503599627370496 (-48).
Definition lit_60 : number := S754_finite false 8444249301319680 (-47).
Definition lit_100 : number := S754_finite false 7036874417766400 (-46).

End JS.

Declare Scope js_scope.
Delimit Scope js_scope with js.
Infix "+!" := JS.add (at level 50, left associativity) : js_scope.
Infix "-!" := JS.sub (at level 50, left associativity) : js_scope.
Infix "*!" := JS.mul (at level 40, left associativity) : js_scope.
Infix "/!" := JS.div (at level 40, left associativity) : js_scope.
Infix "<!" := JS.lt (at level 65, no associativity) : js_scope.
Infix "<=!" := JS.le (at level 65, no associativity) : js_scope.
Infix ">!" := JS.gt (at level 65, no associativity) : js_scope.
Infix ">=!" := JS.ge (at level 65, no associativity) : js_scope.
Infix "===!" := JS.strict_eq (at level 65, no associativity) : js_scope.
Open Scope js_scope.

(** ** MIDI and hardware constants ([MPD218.MIDI], [MPD218.HARDWARE]) *)

Module MIDI.
Definition NOTE_ON : Z := 0x90.
Definition NOTE_OFF : Z := 0x80.
Definition CC : Z := 0xB0.
Definition PAD_CHANNEL : Z := 9.
Definition NRPN_MSB : Z := 99.
Definition NRPN_LSB : Z := 98.
Definition NRPN_INCREMENT : Z := 96.
Definition NRPN_DECREMENT : Z := 97.
Definition LED_ON : Z := 127.
Definition LED_OFF : Z := 0.
End MIDI.

Module HARDWARE.
(** [PAD_NOTES], top row first. *)
Definition TOP_ROW : list Z := [0x30; 0x31; 0x32; 0x33].
Definition SECOND_ROW : list Z := [0x2C; 0x2D; 0x2E; 0x2F].
Definition THIRD_ROW : list Z := [0x28; 0x29; 0x2A; 0x2B].
Definition BOTTOM_ROW : list Z := [0x24; 0x25; 0x26; 0x27].
(** [TIMING.ZOOM_FEEDBACK_DURATION], in milliseconds. *)
Definition ZOOM_FEEDBACK_DURATION : Z := 4000.
(** [LIMITS]. *)
Definition MAX_ZOOM : JS.number := JS.lit_100.
Definition MIN_ZOOM : JS.number := JS.lit_1.
End HARDWARE.

(** ** Configuration ([MPD218.Config]) *)

Record Config := {
  rotation : Z;                     (* layout.rotation, in degrees *)
  rotationDirection : string;       (* layout.rotationDirection *)
  deckOrder : list Z;               (* layout.deckOrder *)
  zoomFast : JS.number;             (* encoders.zoomFast *)
  zoomSlow : JS.number;             (* encoders.zoomSlow *)
  beatgridSpeed : JS.number;        (* encoders.beatgridSpeed *)
  zoomFeedbackEnabled : bool;       (* zoomFeedback.enabled *)
  zoomFeedbackDuration : Z;         (* zoomFeedback.duration *)
  reverseDirection : bool           (* zoomFeedback.reverseDirection *)
}.

(** The configuration the script ships with. *)
Definition defaultConfig : Config := {|
  rotation := 90;
  rotationDirection := "counterclockwise";
  deckOrder := [3; 1; 2; 4];
  zoomFast := JS.lit_1;
  zoomSlow := JS.lit_0_1;
  beatgridSpeed := JS.lit_1;
  zoomFeedbackEnabled := true;
  zoomFeedbackDuration := 4000;
  reverseDirection := true
|}.

(** ** Pad layout ([MPD218.LayoutGenerator]) *)

Definition PHYSICAL_GRID : list (list Z) :=
  [HARDWARE.TOP_ROW; HARDWARE.SECOND_ROW; HARDWARE.THIRD_ROW; HARDWARE.BOTTOM_ROW].

(** [rotated[row][col]] for every row, top to bottom.  The rows of the
    physical grid all hold four notes, so the index never leaves a row. *)
Definition column (grid : list (list Z)) (col : nat) : list Z :=
  map (fun row => nth col row 0) grid.

(** One pass of the loop body of [rotateGrid].  The column count is read
    from the first row, [rotated[0].length]: on a grid without rows the
    script raises a [TypeError] there, so this definition stands for the
    loop body on grids that have a row, as the physical grid and all its
    turns do. *)
Definition rotateOnce (clockwise : bool) (rotated : list (list Z)) : list (list Z) :=
  let cols := length (hd [] rotated) in
  if clockwise
  then map (fun col => rev (column rotated col)) (seq 0 cols)
  else map (fun col => column rotated col) (rev (seq 0 cols)).

(** How often [for (let i = 0; i < rotations; i++)] runs for
    [rotations = (degrees / 90) % 4]: the remainder keeps the sign of
    [degrees], and a fractional remainder still admits the next index. *)
Definition rotationCount (degrees : Z) : nat :=
  if degrees <=? 0 then 0%nat else Z.to_nat ((degrees mod 360 + 89) / 90).

Definition rotateGrid (grid : list (list Z)) (degrees : Z) (direction : string)
  : list (list Z) :=
  Nat.iter (rotationCount degrees) (rotateOnce (String.eqb direction "clockwise")) grid.

Record PadLayout := {
  NOTES : list Z;
  GRID : list (list Z)
}.

Definition generateLayout (config : Config) : PadLayout :=
  let rotatedGrid := rotateGrid PHYSICAL_GRID (rotation config) (rotationDirection config) in
  {| NOTES := concat rotatedGrid; GRID := rotatedGrid |}.

(** ** Encoder mappings ([MPD218.generateEncoderMappings]) *)

Inductive ActionType := zoom | beatgrid | jogwheel | beatjump | superknob.

Record Mapping := {
  type : ActionType;
  deck : string;
  speed : JS.number
}.

(** The template literal [`[Channel${n}]`]; an index outside [deckOrder]
    reads [undefined]. *)
Definition channelGroup (n : option Z) : string :=
  "[Channel" +:+ match n with Some d => pretty d | None => "undefined" end +:+ "]".

Definition gridToDeckIndex : list nat := [0; 3; 1; 2]%nat.

Definition rotatedGridToDeckIndex (rotation : Z) (rotationDir : string) : list nat :=
  let g i := nth i gridToDeckIndex 0%nat in
  if (rotation =? 90) && String.eqb rotationDir "counterclockwise" then
    [g 2; g 0; g 3; g 1]%nat
  else if rotation =? 0 then gridToDeckIndex
  else if rotation =? 180 then [g 3; g 2; g 1; g 0]%nat
  else if (rotation =? 270) || ((rotation =? 90) && String.eqb rotationDir "clockwise") then
    [g 1; g 3; g 0; g 2]%nat
  else gridToDeckIndex.

Definition generateEncoderMappings (config : Config) : gmap Z Mapping :=
  let encoderToDeck :=
    map (fun idx => deckOrder config !! idx)
        (rotatedGridToDeckIndex (rotation config) (rotationDirection config)) in
  let d i := channelGroup (mjoin (encoderToDeck !! i)) in
  list_to_map
    [ (1, {| type := zoom; deck := "[Channel1]"; speed := zoomFast config |});
      (2, {| type := zoom; deck := "[Channel1]"; speed := zoomSlow config |});
      (3, {| type := superknob; deck := d 0%nat; speed := JS.lit_4 |});
      (4, {| type := superknob; deck := d 1%nat; speed := JS.lit_4 |});
      (5, {| type := superknob; deck := d 2%nat; speed := JS.lit_4 |});
      (6, {| type := superknob; deck := d 3%nat; speed := JS.lit_4 |});
      (7, {| type := beatjump; deck := d 0%nat; speed := JS.lit_1 |});
      (8, {| type := beatjump; deck := d 1%nat; speed := JS.lit_1 |});
      (9, {| type := beatjump; deck := d 2%nat; speed := JS.lit_1 |});
      (10, {| type := beatjump; deck := d 3%nat; speed := JS.lit_1 |});
      (13, {| type := beatgrid; deck := d 0%nat; speed := beatgridSpeed config |});
      (14, {| type := beatgrid; deck := d 1%nat; speed := beatgridSpeed config |});
      (15, {| type := beatgrid; deck := d 2%nat; speed := beatgridSpeed config |});
      (16, {| type := beatgrid; deck := d 3%nat; speed := beatgridSpeed config |}) ].

(** ** Controller state ([MPD218.State]) *)

(** One entry of [nrpnParams]; a field that was never written is
    [undefined]. *)
Record NrpnEntry := {
  msb : option Z;
  lsb : option Z;
  param : option Z
}.

Definition emptyEntry : NrpnEntry := {| msb := None; lsb := None; param := None |}.

(** [zoomFeedback] and [superknobFeedback]; [lastShown] is [lastLevel]
    for the former and [lastValue] for the latter. *)
Record Feedback := {
  active : bool;
  feedbackDeck : option string;
  timer : option Z;
  lastShown : option JS.number;
  currentPadStates : gmap Z bool
}.

Definition idleFeedback : Feedback := {|
  active := false; feedbackDeck := None; timer := None;
  lastShown := None; currentPadStates := ∅
|}.

Record BeatjumpRate := {
  lastTime : gmap string Z;
  multiplier : gmap string Z
}.

Record State := {
  nrpnParams : gmap Z NrpnEntry;
  zoomFeedback : Feedback;
  superknobFeedback : Feedback;
  beatjumpRate : BeatjumpRate
}.

Definition initialState : State := {|
  nrpnParams := ∅;
  zoomFeedback := idleFeedback;
  superknobFeedback := idleFeedback;
  beatjumpRate := {| lastTime := ∅; multiplier := ∅ |}
|}.

(** ** The host: Mixxx's [engine] and [midi] objects *)

Inductive Callback := endZoomFeedback | endSuperknobFeedback.

(** What the script asks of the host, in the order it asks. *)
Inductive Effect :=
  | sendShortMsg (status data1 data2 : Z)
  | setValue (group key : string) (value : JS.number)
  | stopTimer (id : Z)
  | beginTimer (id : Z) (ms : Z) (callback : Callback).

Record World := {
  config : Config;
  padLayout : PadLayout;
  encoderMappings : gmap Z Mapping;
  state : State;
  controls : string -> string -> JS.number;   (* the engine's control values *)
  nextTimer : Z;                              (* the handle [beginTimer] returns next *)
  output : list Effect                        (* oldest first *)
}.

(** The world after the script has been loaded with [cfg]. *)
Definition load (cfg : Config) (ctl : string -> string -> JS.number) : World := {|
  config := cfg;
  padLayout := generateLayout cfg;
  encoderMappings := generateEncoderMappings cfg;
  state := initialState;
  controls := ctl;
  nextTimer := 1;
  output := []
|}.

Definition withState (s : State) (w : World) : World :=
  {| config := config w; padLayout := padLayout w; encoderMappings := encoderMappings w;
     state := s; controls := controls w; nextTimer := nextTimer w; output := output w |}.

Definition emit (es : list Effect) (w : World) : World :=
  {| config := config w; padLayout := padLayout w; encoderMappings := encoderMappings w;
     state := state w; controls := controls w; nextTimer := nextTimer w;
     output := output w ++ es |}.

Definition engine_getValue (group key : string) (w : World) : JS.number :=
  controls w group key.

Definition engine_setValue (group key : string) (v : JS.number) (w : World) : World :=
  {| config := config w; padLayout := padLayout w; encoderMappings := encoderMappings w;
     state := state w;
     controls := fun g k => if String.eqb g group && String.eqb k key then v else controls w g k;
     nextTimer := nextTimer w;
     output := output w ++ [setValue group key v] |}.

Definition engine_stopTimer (id : Z) (w : World) : World := emit [stopTimer id] w.

(** [engine.beginTimer(ms, callback, true)]: the handle and the new world. *)
Definition engine_beginTimer (ms : Z) (cb : Callback) (w : World) : Z * World :=
  (nextTimer w,
   {| config := config w; padLayout := padLayout w; encoderMappings := encoderMappings w;
      state := state w; controls := controls w; nextTimer := nextTimer w + 1;
      output := output w ++ [beginTimer (nextTimer w) ms cb] |}).


(** ** LED manager ([MPD218.LEDManager]) *)

(** [setPadLED(note, state)]: the messages it sends. *)
Definition setPadLED (note : Z) (st : bool) : list Effect :=
  let velocity := if st then MIDI.LED_ON else MIDI.LED_OFF in
  let status := if st then MIDI.NOTE_ON + MIDI.PAD_CHANNEL
                else MIDI.NOTE_OFF + MIDI.PAD_CHANNEL in
  sendShortMsg status note velocity ::
  (if st then [sendShortMsg (MIDI.CC + MIDI.PAD_CHANNEL) note MIDI.LED_ON] else []).

Definition allPadsOff (w : World) : list Effect :=
  flat_map (fun note => setPadLED note false) (NOTES (padLayout w)).

Definition getBottomLeftToTopRightOrder (w : World) : list Z :=
  concat (rev (GRID (padLayout w))).

(** The order [showSuperknobFeedback] builds for values of 0.5 and above:
    rows top to bottom, each row right to left. *)
Definition getTopRightToBottomLeftOrder (w : World) : list Z :=
  concat (map (@rev Z) (GRID (padLayout w))).

(** [Object.keys] of a pad-state object.  Its keys are note numbers, and
    JavaScript enumerates integer keys in ascending order. *)
Definition Object_keys (o : gmap Z bool) : list Z :=
  merge_sort Z.le (map_to_list o).*1.

(** [o[k]] used as a condition: a missing key reads [undefined]. *)
Definition truthyAt (o : gmap Z bool) (k : Z) : bool :=
  match o !! k with Some b => b | None => false end.

(** First loop of the differential update: pads that are lit but no longer
    wanted are switched off and dropped from the session's pad states. *)
Fixpoint turnOffStale (targetPadStates : gmap Z bool) (keys : list Z)
    (currentStates : gmap Z bool) (out : list Effect) : gmap Z bool * list Effect :=
  match keys with
  | [] => (currentStates, out)
  | note :: rest =>
      if truthyAt currentStates note && negb (truthyAt targetPadStates note)
      then turnOffStale targetPadStates rest (delete note currentStates)
                        (out ++ setPadLED note false)
      else turnOffStale targetPadStates rest currentStates out
  end.

(** Second loop: wanted pads that are not lit yet are switched on. *)
Fixpoint turnOnNew (keys : list Z) (currentStates : gmap Z bool) (out : list Effect)
  : gmap Z bool * list Effect :=
  match keys with
  | [] => (currentStates, out)
  | note :: rest =>
      if negb (truthyAt currentStates note)
      then turnOnNew rest (<[note := true]> currentStates) (out ++ setPadLED note true)
      else turnOnNew rest currentStates out
  end.

(** The differential update shared, statement for statement, by
    [showZoomFeedback] and [showSuperknobFeedback]. *)
Definition differentialUpdate (targetPadStates currentStates : gmap Z bool)
  : gmap Z bool * list Effect :=
  let '(afterOff, offs) :=
    turnOffStale targetPadStates (Object_keys currentStates) currentStates [] in
  turnOnNew (Object_keys targetPadStates) afterOff offs.

(** [for (let i = 0; i <= clampedSteps && i < orderedPads.length; i++)],
    entered with the pads from index [i] on. *)
Fixpoint zoomTargetPadStates (clampedSteps : JS.number) (i : Z) (pads : list Z)
    (acc : gmap Z bool) : gmap Z bool :=
  match pads with
  | [] => acc
  | pad :: rest =>
      if JS.of_Z i <=! clampedSteps
      then zoomTargetPadStates clampedSteps (i + 1) rest (<[pad := true]> acc)
      else acc
  end.

(** [for (let i = 0; i < clampedPads && i < orderedPads.length; i++)]. *)
Fixpoint superknobTargetPadStates (clampedPads : JS.number) (i : Z) (pads : list Z)
    (acc : gmap Z bool) : gmap Z bool :=
  match pads with
  | [] => acc
  | pad :: rest =>
      if JS.of_Z i <! clampedPads
      then superknobTargetPadStates clampedPads (i + 1) rest (<[pad := true]> acc)
      else acc
  end.

Definition withZoomFeedback (f : Feedback) (w : World) : World :=
  withState {| nrpnParams := nrpnParams (state w); zoomFeedback := f;
               superknobFeedback := superknobFeedback (state w);
               beatjumpRate := beatjumpRate (state w) |} w.

Definition withSuperknobFeedback (f : Feedback) (w : World) : World :=
  withState {| nrpnParams := nrpnParams (state w); zoomFeedback := zoomFeedback (state w);
               superknobFeedback := f;
               beatjumpRate := beatjumpRate (state w) |} w.

(** [if (feedback.timer) engine.stopTimer(feedback.timer)]: a handle of 0
    is falsy. *)
Definition stopFeedbackTimer (f : Feedback) (w : World) : World :=
  match timer f with
  | Some id => if id =? 0 then w else engine_stopTimer id w
  | None => w
  end.

(** [deck === feedback.deck]. *)
Definition sameDeck (f : Feedback) (deck : string) : bool :=
  match feedbackDeck f with Some d => String.eqb d deck | None => false end.

(** [feedback.lastLevel === x] (or [lastValue]); [null] equals no number. *)
Definition sameShown (f : Feedback) (x : JS.number) : bool :=
  match lastShown f with Some l => l ===! x | None => false end.

(** [clampedSteps] of [showZoomFeedback]. *)
Definition zoomClampedSteps (zoomLevel : JS.number) : JS.number :=
  let normalizedZoom :=
    (zoomLevel -! HARDWARE.MIN_ZOOM) /! (HARDWARE.MAX_ZOOM -! HARDWARE.MIN_ZOOM) in
  let zoomSteps := JS.Math_floor (normalizedZoom *! JS.lit_16) in
  JS.Math_max JS.lit_0 (JS.Math_min JS.lit_15 zoomSteps).

(** [Config.zoomFeedback.duration || TIMING.ZOOM_FEEDBACK_DURATION]. *)
Definition zoomFeedbackTimeout (w : World) : Z :=
  if zoomFeedbackDuration (config w) =? 0 then HARDWARE.ZOOM_FEEDBACK_DURATION
  else zoomFeedbackDuration (config w).

Definition showZoomFeedback (deck : string) (zoomLevel : JS.number) (w : World) : World :=
  let clampedSteps := zoomClampedSteps zoomLevel in
  let fb := zoomFeedback (state w) in
  if active fb && sameShown fb clampedSteps && sameDeck fb deck then
    (* same level as last time: only the timeout is restarted *)
    let w1 := stopFeedbackTimer fb w in
    let '(id, w2) := engine_beginTimer (zoomFeedbackTimeout w1) endZoomFeedback w1 in
    withZoomFeedback {| active := active fb; feedbackDeck := feedbackDeck fb;
                        timer := Some id; lastShown := lastShown fb;
                        currentPadStates := currentPadStates fb |} w2
  else
    let w1 := stopFeedbackTimer fb w in
    let orderedPads := getBottomLeftToTopRightOrder w1 in
    (* on first activation, clear all pads once *)
    let w2 := if decide (Object_keys (currentPadStates fb) = [])
              then emit (allPadsOff w1) w1 else w1 in
    let targetPadStates := zoomTargetPadStates clampedSteps 0 orderedPads ∅ in
    let '(currentStates, leds) := differentialUpdate targetPadStates (currentPadStates fb) in
    let w3 := emit leds w2 in
    let '(id, w4) := engine_beginTimer (zoomFeedbackTimeout w3) endZoomFeedback w3 in
    withZoomFeedback {| active := true; feedbackDeck := Some deck;
                        timer := Some id; lastShown := Some clampedSteps;
                        currentPadStates := currentStates |} w4.

(** [clampedPads] of [showSuperknobFeedback]. *)
Definition superknobClampedPads (superknobValue : JS.number) : JS.number :=
  let distanceFromCenter := JS.Math_abs (superknobValue -! JS.lit_0_5) in
  let normalizedDistance := distanceFromCenter *! JS.lit_2 in
  let padsToShow := JS.Math_round ((JS.lit_1 -! normalizedDistance) *! JS.lit_16) in
  JS.Math_max JS.lit_0 (JS.Math_min JS.lit_16 padsToShow).

Definition showSuperknobFeedback (deck : string) (superknobValue : JS.number) (w : World)
  : World :=
  let clampedPads := superknobClampedPads superknobValue in
  let fb := superknobFeedback (state w) in
  if active fb && sameShown fb superknobValue && sameDeck fb deck then
    let w1 := stopFeedbackTimer fb w in
    let '(id, w2) :=
      engine_beginTimer HARDWARE.ZOOM_FEEDBACK_DURATION endSuperknobFeedback w1 in
    withSuperknobFeedback {| active := active fb; feedbackDeck := feedbackDeck fb;
                             timer := Some id; lastShown := lastShown fb;
                             currentPadStates := currentPadStates fb |} w2
  else
    let w1 := stopFeedbackTimer fb w in
    let orderedPads :=
      if superknobValue <! JS.lit_0_5 then getBottomLeftToTopRightOrder w1
      else getTopRightToBottomLeftOrder w1 in
    let w2 := if decide (Object_keys (currentPadStates fb) = [])
              then emit (allPadsOff w1) w1 else w1 in
    let targetPadStates := superknobTargetPadStates clampedPads 0 orderedPads ∅ in
    let '(currentStates, leds) := differentialUpdate targetPadStates (currentPadStates fb) in
    let w3 := emit leds w2 in
    let '(id, w4) :=
      engine_beginTimer HARDWARE.ZOOM_FEEDBACK_DURATION endSuperknobFeedback w3 in
    withSuperknobFeedback {| active := true; feedbackDeck := Some deck;
                             timer := Some id; lastShown := Some superknobValue;
                             currentPadStates := currentStates |} w4.

(** ** Control handlers ([MPD218.Controllers.handleNRPN]) *)

Definition withNrpnParams (p : gmap Z NrpnEntry) (w : World) : World :=
  withState {| nrpnParams := p; zoomFeedback := zoomFeedback (state w);
               superknobFeedback := superknobFeedback (state w);
               beatjumpRate := beatjumpRate (state w) |} w.

Definition withBeatjumpRate (r : BeatjumpRate) (w : World) : World :=
  withState {| nrpnParams := nrpnParams (state w); zoomFeedback := zoomFeedback (state w);
               superknobFeedback := superknobFeedback (state w);
               beatjumpRate := r |} w.

(** [nrpnParams[k]] after [if (!nrpnParams[k]) nrpnParams[k] = {}]. *)
Definition entryAt (p : gmap Z NrpnEntry) (k : Z) : NrpnEntry :=
  default emptyEntry (p !! k).

Definition setParameter (channel hi lo : Z) (w : World) : World :=
  let midiChannel := channel + 1 in
  let entry := entryAt (nrpnParams (state w)) midiChannel in
  withNrpnParams
    (<[midiChannel := {| msb := msb entry; lsb := lsb entry;
                         param := Some (JS.bor (JS.shl hi 7) lo) |}]>
       (nrpnParams (state w))) w.

Definition handleZoom (deck : string) (direction speed : JS.number) (w : World) : World :=
  let current := engine_getValue deck "waveform_zoom" w in
  let actualDirection :=
    if reverseDirection (config w) then JS.neg direction else direction in
  let zoomFactor := JS.lit_1 +! (actualDirection *! speed *! JS.lit_0_05) in
  let newZoom := current *! zoomFactor in
  let newZoom :=
    JS.Math_max HARDWARE.MIN_ZOOM (JS.Math_min HARDWARE.MAX_ZOOM newZoom) in
  let w1 := engine_setValue deck "waveform_zoom" newZoom w in
  if zoomFeedbackEnabled (config w1) then showZoomFeedback deck newZoom w1 else w1.

Definition handleBeatgrid (deck : string) (direction speed : JS.number) (w : World) : World :=
  let delta := direction *! JS.or_else speed JS.lit_1 in
  engine_setValue deck "beats_translate_move" delta w.

Definition handleJogwheel (deck : string) (direction speed : JS.number) (w : World) : World :=
  let delta := direction *! speed *! JS.lit_0_01 in
  engine_setValue deck "jog" delta w.

Definition isDigit (c : ascii) : bool :=
  let n := nat_of_ascii c in (48 <=? n)%nat && (n <=? 57)%nat.

(** Whether [deck.match(/\d+/)] finds anything. *)
Fixpoint hasDigit (s : string) : bool :=
  match s with
  | EmptyString => false
  | String c rest => isDigit c || hasDigit rest
  end.

(** [None] is the [TypeError] of [deck.match(/\d+/)[0]] on a deck name
    without a digit, raised before anything else is done. *)
Definition handleSuperknob (deck : string) (direction speed : JS.number) (w : World)
  : option World :=
  if hasDigit deck then
    let control := "[QuickEffectRack1_" +:+ deck +:+ "]" in
    let current := engine_getValue control "super1" w in
    let delta := direction *! JS.lit_0_001 *! speed in
    let newValue := JS.Math_max JS.lit_0 (JS.Math_min JS.lit_1 (current +! delta)) in
    let w1 := engine_setValue control "super1" newValue w in
    Some (showSuperknobFeedback deck newValue w1)
  else None.

(** [!rateState.lastTime[deck]]: [undefined] and [0] are falsy. *)
Definition noLastTime (r : BeatjumpRate) (deck : string) : bool :=
  match lastTime r !! deck with Some t => t =? 0 | None => true end.

(** [rateState.multiplier[deck] < k]; [undefined] is below nothing. *)
Definition multiplierBelow (r : BeatjumpRate) (deck : string) (k : Z) : bool :=
  match multiplier r !! deck with Some m => m <? k | None => false end.

Definition setMultiplier (deck : string) (m : Z) (r : BeatjumpRate) : BeatjumpRate :=
  {| lastTime := lastTime r; multiplier := <[deck := m]> (multiplier r) |}.

(** The rate tracking at the head of [handleBeatJump], for a tick at time
    [now]: the new rate state and [timeSinceLastIncrement]. *)
Definition trackBeatjumpRate (deck : string) (now : Z) (rateState : BeatjumpRate)
  : BeatjumpRate * Z :=
  let r1 :=
    if noLastTime rateState deck
    then {| lastTime := <[deck := now]> (lastTime rateState);
            multiplier := <[deck := 1]> (multiplier rateState) |}
    else rateState in
  (* [lastTime[deck]] is set by now *)
  let timeSinceLastIncrement := now - default 0 (lastTime r1 !! deck) in
  let r2 := {| lastTime := <[deck := now]> (lastTime r1); multiplier := multiplier r1 |} in
  let r3 :=
    if timeSinceLastIncrement <? 50 then
      if multiplierBelow r2 deck 2 then setMultiplier deck 2 r2
      else if multiplierBelow r2 deck 4 then setMultiplier deck 4 r2
      else setMultiplier deck 8 r2
    else if timeSinceLastIncrement <? 100 then
      if multiplierBelow r2 deck 2 then setMultiplier deck 2 r2 else r2
    else if timeSinceLastIncrement >? 150 then setMultiplier deck 1 r2
    else r2 in
  (r3, timeSinceLastIncrement).

(** [engine.setValue(deck, "beatjump_size", beatSize)] followed by the
    forward or backward pulse. *)
Definition emitBeatjump (deck : string) (direction beatSize : JS.number) (w : World) : World :=
  let w1 := engine_setValue deck "beatjump_size" beatSize w in
  let control := if direction >! JS.lit_0 then "beatjump_forward" else "beatjump_backward" in
  engine_setValue deck control JS.lit_1 w1.

(** [beatSize]: the multiplier the rate tracking leaves for [deck]. *)
Definition beatSizeOf (deck : string) (rateState : BeatjumpRate) : JS.number :=
  match multiplier rateState !! deck with Some m => JS.of_Z m | None => JS.NaN end.

(** [newTime]: where the jump would land, in seconds. *)
Definition jumpNewTime (currentPos trackDuration bpm beatSize direction : JS.number)
  : JS.number :=
  let currentTime := currentPos *! trackDuration in
  let secondsPerBeat := JS.lit_60 /! bpm in
  let jumpSeconds := beatSize *! secondsPerBeat *! direction in
  currentTime +! jumpSeconds.

Definition handleBeatJump (deck : string) (direction speed : JS.number) (now : Z) (w : World)
  : World :=
  let '(rateState, _) := trackBeatjumpRate deck now (beatjumpRate (state w)) in
  let w0 := withBeatjumpRate rateState w in
  let beatSize := beatSizeOf deck rateState in
  let currentPos := engine_getValue deck "playposition" w0 in
  let trackDuration := engine_getValue deck "duration" w0 in
  let bpm := engine_getValue deck "bpm" w0 in
  if (bpm >! JS.lit_0) && (trackDuration >! JS.lit_0) then
    let newTime := jumpNewTime currentPos trackDuration bpm beatSize direction in
    if (newTime >=! JS.lit_0) && (newTime <=! trackDuration) then
      emitBeatjump deck direction beatSize w0
    else if newTime <! JS.lit_0 then
      engine_setValue deck "playposition" JS.lit_0 w0
    else
      engine_setValue deck "playposition" JS.lit_0_999 w0
  else
    emitBeatjump deck direction beatSize w0.

(** [processMotion(channel, increment, value)], at time [now]. *)
Definition processMotion (channel : Z) (increment : bool) (value : Z) (now : Z) (w : World)
  : option World :=
  let midiChannel := channel + 1 in
  match encoderMappings w !! midiChannel with
  | None => Some w
  | Some mapping =>
      let direction := if increment then JS.lit_1 else JS.neg JS.lit_1 in
      let speed := JS.of_Z value *! JS.or_else (speed mapping) JS.lit_1 in
      match type mapping with
      | zoom => Some (handleZoom (deck mapping) direction speed w)
      | beatgrid => Some (handleBeatgrid (deck mapping) direction speed w)
      | jogwheel => Some (handleJogwheel (deck mapping) direction speed w)
      | beatjump => Some (handleBeatJump (deck mapping) direction speed now w)
      | superknob => handleSuperknob (deck mapping) direction speed w
      end
  end.

(** ** MIDI handlers ([MPD218.MIDIHandlers]) *)

Definition nrpnMSB (status value : Z) (w : World) : World :=
  let midiChannel := JS.band status 0x0F in
  let entry := entryAt (nrpnParams (state w)) (midiChannel + 1) in
  withNrpnParams
    (<[midiChannel + 1 := {| msb := Some value; lsb := lsb entry; param := param entry |}]>
       (nrpnParams (state w))) w.

Definition nrpnLSB (status value : Z) (w : World) : World :=
  let midiChannel := JS.band status 0x0F in
  let entry := entryAt (nrpnParams (state w)) (midiChannel + 1) in
  let params := {| msb := msb entry; lsb := Some value; param := param entry |} in
  let w1 := withNrpnParams (<[midiChannel + 1 := params]> (nrpnParams (state w))) w in
  match msb params with
  | Some hi => setParameter midiChannel hi value w1
  | None => w1
  end.

Definition nrpnIncrement (status value : Z) (now : Z) (w : World) : option World :=
  processMotion (JS.band status 0x0F) true value now w.

Definition nrpnDecrement (status value : Z) (now : Z) (w : World) : option World :=
  processMotion (JS.band status 0x0F) false value now w.

(** ** The timer registry ([State.addTimer], [State.removeTimer]) *)

(** [timers.indexOf(timerId)]; [None] is the -1 of a handle that is not
    in the list. *)
Fixpoint indexOf (timerId : Z) (timers : list Z) : option nat :=
  match timers with
  | [] => None
  | id :: rest => if id =? timerId then Some 0%nat else S <$> indexOf timerId rest
  end.

(** [State.timers] after [addTimer(timerId)]: a handle of 0 is falsy. *)
Definition addTimer (timerId : Z) (timers : list Z) : list Z :=
  if negb (timerId =? 0) && bool_decide (indexOf timerId timers = None)
  then timers ++ [timerId] else timers.

(** [State.timers] after [removeTimer(timerId)]; [splice(index, 1)]
    removes the element at [index]. *)
Definition removeTimer (timerId : Z) (timers : list Z) : list Z :=
  match indexOf timerId timers with
  | Some index => delete index timers
  | None => timers
  end.

(** ** Bank mappings ([MPD218.BankGenerator]) *)

(** What a pad is mapped to: [number] is set for hotcue pads only. *)
Record PadMapping := {
  padType : string;
  padDeck : string;
  padNumber : option Z
}.

Record Bank := {
  bankName : string;
  bankPads : gmap Z PadMapping
}.

(** The body of [layout.NOTES.forEach] in [generateHotcueBank], on the
    pads assigned so far and the running [hotcueNum]. *)
Definition assignHotcue (channelNum : Z) (acc : gmap Z PadMapping * Z) (note : Z)
  : gmap Z PadMapping * Z :=
  (<[note := {| padType := "hotcue"; padDeck := channelGroup (Some channelNum);
                padNumber := Some (snd acc) |}]> (fst acc),
   snd acc + 1).

(** The mapping of hotcue [n] of deck [channelNum]. *)
Definition hotcueMapping (channelNum n : Z) : PadMapping :=
  {| padType := "hotcue"; padDeck := channelGroup (Some channelNum); padNumber := Some n |}.

Definition generateHotcueBank (layout : PadLayout) (channelNum : Z) : Bank :=
  {| bankName := "Channel " +:+ pretty channelNum +:+ " Hotcues";
     bankPads := fst (foldl (assignHotcue channelNum) (∅, 1) (NOTES layout)) |}.

(** ** The rest of the script's globals *)

(** [State.currentBank] and [MPD218.BankMappings], beside the world the
    encoders act on. *)
Record Controller := {
  world : World;
  currentBank : Z;
  bankMappings : gmap Z Bank
}.

Definition withWorld (w : World) (c : Controller) : Controller :=
  {| world := w; currentBank := currentBank c; bankMappings := bankMappings c |}.

(** [Object.entries] of a bank's pads: the keys are note numbers, and
    JavaScript enumerates integer keys in ascending order. *)
Definition Object_entries (o : gmap Z PadMapping) : list (Z * PadMapping) :=
  omap (fun note => pair note <$> o !! note) (merge_sort Z.le (map_to_list o).*1).

(** The control whose value a pad's LED shows. *)
Definition statusControl (mapping : PadMapping) : string :=
  if String.eqb (padType mapping) "hotcue"
  then "hotcue_" +:+ match padNumber mapping with
                     | Some n => pretty n
                     | None => "undefined"
                     end +:+ "_status"
  else padType mapping.

(** [engine.getValue(mapping.deck, ...) > 0]. *)
Definition ledState (mapping : PadMapping) (w : World) : bool :=
  engine_getValue (padDeck mapping) (statusControl mapping) w >! JS.lit_0.

Module LEDManager.

(** [syncFeatureLEDs()]: without a bank under [State.currentBank] nothing
    is sent. *)
Definition syncFeatureLEDs (c : Controller) : Controller :=
  match bankMappings c !! currentBank c with
  | None => c
  | Some bank =>
      withWorld
        (emit (flat_map (fun entry => setPadLED (fst entry) (ledState (snd entry) (world c)))
                        (Object_entries (bankPads bank)))
              (world c)) c
  end.

(** [endZoomFeedback()], the callback of the zoom session's timer. *)
Definition endZoomFeedback (c : Controller) : Controller :=
  let w := world c in
  let currentStates := currentPadStates (zoomFeedback (state w)) in
  let w1 := emit (flat_map (fun note => setPadLED note false) (Object_keys currentStates)) w in
  syncFeatureLEDs (withWorld (withZoomFeedback idleFeedback w1) c).

(** [endSuperknobFeedback()], the callback of the superknob session's
    timer. *)
Definition endSuperknobFeedback (c : Controller) : Controller :=
  let w := world c in
  let currentStates := currentPadStates (superknobFeedback (state w)) in
  let w1 := emit (flat_map (fun note => setPadLED note false) (Object_keys currentStates)) w in
  syncFeatureLEDs (withWorld (withSuperknobFeedback idleFeedback w1) c).

End LEDManager.

(** What the host runs when a timer started with [callback] fires. *)
Definition fire (callback : Callback) (c : Controller) : Controller :=
  match callback with
  | endZoomFeedback => LEDManager.endZoomFeedback c
  | endSuperknobFeedback => LEDManager.endSuperknobFeedback c
  end.

(** [MPD218.setBank(bankNum)], with [MAX_BANKS = 3].  Where the bank
    table has no such bank the script stops after setting
    [State.currentBank], which is also what [syncFeatureLEDs] leaves. *)
Definition setBank (bankNum : Z) (c : Controller) : Controller :=
  if (1 <=? bankNum) && (bankNum <=? 3) then
    LEDManager.syncFeatureLEDs
      {| world := world c; currentBank := bankNum; bankMappings := bankMappings c |}
  else c.

(** ** Finding the pad of a control ([MPD218.Utils], [MPD218.EngineCallbacks]) *)

(** The test of the loop in [findPadForMapping]; [number] is [None] when
    the argument is left at its default [null]. *)
Definition mappingMatches (deck type : string) (number : option Z) (mapping : PadMapping)
  : bool :=
  String.eqb (padDeck mapping) deck && String.eqb (padType mapping) type &&
  (if String.eqb type "hotcue"
   then match padNumber mapping, number with
        | Some n, Some k => JS.of_Z n ===! JS.of_Z k
        | _, _ => false
        end
   else true).

(** [Utils.findPadForMapping(deck, type, number)]; [None] is [null]. *)
Definition findPadForMapping (deck type : string) (number : option Z) (c : Controller)
  : option Z :=
  match bankMappings c !! currentBank c with
  | None => None
  | Some bank =>
      fst <$> List.find (fun entry => mappingMatches deck type number (snd entry))
                        (Object_entries (bankPads bank))
  end.

(** ** Pad presses ([MPD218.Controllers.handlePad]) *)

(** The timer [handlePad] starts: its handle, its delay, and the pad and
    mapping its callback closes over. *)
Record LedUpdate := {
  ledTimer : Z;
  ledDelay : Z;
  ledNote : Z;
  ledMapping : PadMapping
}.

(** The [case] labels that toggle a control. *)
Definition isToggle (type : string) : bool :=
  String.eqb type "bpmlock" || String.eqb type "keylock" ||
  String.eqb type "slip_enabled" || String.eqb type "quantize".

(** The [switch] of [handlePad]; [!current] reaches the engine as 1 or
    0. *)
Definition pressMapping (mapping : PadMapping) (w : World) : World :=
  if String.eqb (padType mapping) "hotcue" then
    engine_setValue (padDeck mapping)
      ("hotcue_" +:+ match padNumber mapping with
                     | Some n => pretty n
                     | None => "undefined"
                     end +:+ "_activate")
      JS.lit_1 w
  else if isToggle (padType mapping) then
    let current := engine_getValue (padDeck mapping) (padType mapping) w in
    engine_setValue (padDeck mapping) (padType mapping)
      (if JS.truthy current then JS.lit_0 else JS.lit_1) w
  else w.

(** [handlePad(channel, control, value, status, group)]: the controller
    afterwards and the LED update timer it started, if any.  The timer
    takes the host's next handle. *)
Definition handlePad (control value : Z) (c : Controller) : Controller * option LedUpdate :=
  if value =? 0 then (c, None)
  else if active (zoomFeedback (state (world c))) then (c, None)
  else if active (superknobFeedback (state (world c))) then (c, None)
  else
    match bankMappings c !! currentBank c with
    | None => (c, None)
    | Some bank =>
        match bankPads bank !! control with
        | None => (c, None)
        | Some mapping =>
            let w1 := pressMapping mapping (world c) in
            let w2 := {| config := config w1; padLayout := padLayout w1;
                         encoderMappings := encoderMappings w1; state := state w1;
                         controls := controls w1; nextTimer := nextTimer w1 + 1;
                         output := output w1 |} in
            (withWorld w2 c,
             Some {| ledTimer := nextTimer w1; ledDelay := 50; ledNote := control;
                     ledMapping := mapping |})
        end
    end.

(** The callback of that timer. *)
Definition runLedUpdate (u : LedUpdate) (c : Controller) : Controller :=
  withWorld (emit (setPadLED (ledNote u) (ledState (ledMapping u) (world c))) (world c)) c.

(** ** Engine callbacks ([MPD218.EngineCallbacks]) *)

(** [s] without the prefix [p], when it starts with it. *)
Fixpoint dropPrefix (p s : string) : option string :=
  match p, s with
  | EmptyString, _ => Some s
  | String a p', String b s' => if Ascii.eqb a b then dropPrefix p' s' else None
  | String _ _, EmptyString => None
  end.

(** The decimal digits [s] starts with, as the number they spell so far
    continuing [acc], and what follows them. *)
Fixpoint takeDigits (s : string) (acc : Z) (seen : bool) : Z * bool * string :=
  match s with
  | String c rest =>
      if isDigit c
      then takeDigits rest (10 * acc + (Z.of_nat (nat_of_ascii c) - 48)) true
      else (acc, seen, s)
  | EmptyString => (acc, seen, s)
  end.

(** A match of [/hotcue_(\d+)_status/] that starts at the head of [s]:
    the number its group spells. *)
Definition hotcueStatusAt (s : string) : option Z :=
  match dropPrefix "hotcue_" s with
  | Some s1 =>
      let '(n, seen, s2) := takeDigits s1 0 false in
      if seen then
        match dropPrefix "_status" s2 with
        | Some _ => Some n
        | None => None
        end
      else None
  | None => None
  end.

(** [control.match(/hotcue_(\d+)_status/)] with [parseInt] of its group:
    the leftmost match counts. *)
Fixpoint hotcueStatus (control : string) : option Z :=
  match hotcueStatusAt control with
  | Some n => Some n
  | None =>
      match control with
      | String _ rest => hotcueStatus rest
      | EmptyString => None
      end
  end.

Module EngineCallbacks.

Definition hotcueChanged (value : JS.number) (group control : string) (c : Controller)
  : Controller :=
  match hotcueStatus control with
  | None => c
  | Some hotcueNum =>
      match findPadForMapping group "hotcue" (Some hotcueNum) c with
      | Some padNote => withWorld (emit (setPadLED padNote (value >! JS.lit_0)) (world c)) c
      | None => c
      end
  end.

Definition featureChanged (value : JS.number) (group control : string) (c : Controller)
  : Controller :=
  match findPadForMapping group control None c with
  | Some padNote => withWorld (emit (setPadLED padNote (value >! JS.lit_0)) (world c)) c
  | None => c
  end.

End EngineCallbacks.

(** ** Channels and feature rows of the layout ([MPD218.LayoutGenerator]) *)

(** [Config.layout.featureRows]; a position that is not configured is
    [undefined]. *)
Record FeatureRows := {
  nearest : option string;
  second : option string;
  third : option string;
  furthest : option string
}.

(** The layout settings that only the pad banks read:
    [Config.layout.indexOrder] and [Config.layout.featureRows]. *)
Record PadOptions := {
  indexOrder : string;
  featureRows : FeatureRows
}.

Definition defaultPadOptions : PadOptions := {|
  indexOrder := "ascending";
  featureRows := {| nearest := Some "bpmlock"; second := Some "slip_enabled";
                    third := Some "keylock"; furthest := Some "quantize" |}
|}.

(** A JavaScript object as the list of its properties in the order they
    were created. *)
Section JsObject.

Context {K A : Type} `{EqDecision K}.

(** [o[k] = v]: an existing property keeps its place. *)
Definition setProperty (k : K) (v : A) (o : list (K * A)) : list (K * A) :=
  if bool_decide (k ∈ o.*1)
  then map (fun e => if bool_decide (e.1 = k) then (k, v) else e) o
  else o ++ [(k, v)].

(** The keys that are array indices come first when an object is
    enumerated, in ascending order. *)
Definition indexOrderOn (index : K -> option Z) (e1 e2 : K * A) : Prop :=
  default 0 (index e1.1) <= default 0 (index e2.1).

#[local] Instance indexOrderOn_dec index e1 e2 : Decision (indexOrderOn index e1 e2) :=
  decide (default 0 (index e1.1) <= default 0 (index e2.1)).

(** [Object.entries(o)]: the array-index keys in ascending order, then the
    other keys in creation order. *)
Definition ownEntries (index : K -> option Z) (o : list (K * A)) : list (K * A) :=
  merge_sort (indexOrderOn index) (filter (fun e => is_Some (index e.1)) o)
  ++ filter (fun e => index e.1 = None) o.

End JsObject.

(** The array index a deck number is as a property key, if it is one. *)
Definition deckIndex (deckNum : option Z) : option Z :=
  match deckNum with
  | Some d => if (0 <=? d) && (d <? 4294967295) then Some d else None
  | None => None
  end.

(** The array index a string is as a property key: a decimal numeral
    without leading zeros, below [2^32 - 1]. *)
Definition arrayIndex (key : string) : option Z :=
  let '(n, seen, rest) := takeDigits key 0 false in
  match rest with
  | EmptyString =>
      if seen && (String.eqb key "0" || negb (String.prefix "0" key)) && (n <? 4294967295)
      then Some n else None
  | _ => None
  end.

(** [extractChannels(grid, indexOrder, deckOrder)]: the columns of the
    grid under the deck numbers they are assigned; a column beyond
    [deckOrder] goes under [undefined]. *)
Definition extractChannels (grid : list (list Z)) (indexOrder : string) (deckOrder : list Z)
  : list (option Z * list Z) :=
  let numCols := length (hd [] grid) in
  foldl (fun channels col =>
           let channelIndex :=
             if String.eqb indexOrder "ascending" then col else (numCols - 1 - col)%nat in
           setProperty (deckOrder !! channelIndex) (column grid col) channels)
        [] (seq 0 numCols).

Definition rowOrder (featureConfig : FeatureRows) : list (option string) :=
  [nearest featureConfig; second featureConfig; third featureConfig;
   furthest featureConfig].

(** [extractFeatureRows(grid, featureConfig)]: the rows of the grid under
    the features they are assigned, the bottom row being the nearest. *)
Definition extractFeatureRows (grid : list (list Z)) (featureConfig : FeatureRows)
  : list (string * list Z) :=
  foldl (fun features position =>
           match snd position with
           | Some featureType =>
               if String.eqb featureType "" then features
               else
                 match grid !! (length grid - 1 - fst position)%nat with
                 | Some row =>
                     if (fst position <? length grid)%nat
                     then setProperty featureType row features else features
                 | None => features
                 end
           | None => features
           end)
        [] (imap pair (rowOrder featureConfig)).

(** ** The feature bank ([MPD218.BankGenerator.generateFeatureBank]) *)

(** [deckNum] for a pad: the column index plus one unless a channel holds
    the note; [None] is the [NaN] that [parseInt("undefined")] gives. *)
Definition deckOf (channels : list (option Z * list Z)) (note : Z) (index : nat) : option Z :=
  foldl (fun deckNum channel => if bool_decide (note ∈ snd channel) then fst channel else deckNum)
        (Some (Z.of_nat index + 1)) (ownEntries deckIndex channels).

(** The template literal [`[Channel${deckNum}]`]. *)
Definition deckName (deckNum : option Z) : string :=
  "[Channel" +:+ match deckNum with Some d => pretty d | None => "NaN" end +:+ "]".

Definition featureMapping (featureType : string) (deckNum : option Z) : PadMapping :=
  {| padType := featureType; padDeck := deckName deckNum; padNumber := None |}.

(** The body of [notes.forEach((note, index) => ...)]. *)
Definition assignFeature (channels : list (option Z * list Z)) (featureType : string)
    (pads : gmap Z PadMapping) (item : nat * Z) : gmap Z PadMapping :=
  <[snd item := featureMapping featureType (deckOf channels (snd item) (fst item))]> pads.

Definition generateFeatureBank (channels : list (option Z * list Z))
    (features : list (string * list Z)) : Bank :=
  {| bankName := "Features";
     bankPads :=
       foldl (fun pads feature =>
                foldl (assignFeature channels (fst feature)) pads (imap pair (snd feature)))
             ∅ (ownEntries arrayIndex features) |}.

(** [generateAllBanks()] on the layout generated for a configuration. *)
Definition generateAllBanks (cfg : Config) (options : PadOptions) : gmap Z Bank :=
  let layout := generateLayout cfg in
  let channels := extractChannels (GRID layout) (indexOrder options) (deckOrder cfg) in
  let features := extractFeatureRows (GRID layout) (featureRows options) in
  {[ 1 := generateFeatureBank channels features;
     2 := generateHotcueBank layout 1;
     3 := generateHotcueBank layout 2 ]}.

(** The controller after the script has been loaded. *)
Definition loadController (cfg : Config) (options : PadOptions)
    (ctl : string -> string -> JS.number) : Controller :=
  {| world := load cfg ctl; currentBank := 1; bankMappings := generateAllBanks cfg options |}.

(** ** Changing the encoder speeds ([MPD218.setEncoderSpeeds]) *)

(** [Config.encoders.jogwheelSpeed] and [Config.encoders.scrubSpeed],
    which no encoder mapping reads. *)
Record SpareSpeeds := {
  jogwheelSpeed : JS.number;
  scrubSpeed : JS.number
}.

(** [HARDWARE.LIMITS.MAX_ENCODER_SPEED]. *)
Definition MAX_ENCODER_SPEED : JS.number := JS.of_Z 1000.

(** [isValidSpeed(val)] for an argument that is a number or was left out;
    [None] is [undefined]. *)
Definition isValidSpeed (val : option JS.number) : bool :=
  match val with
  | None => true
  | Some v => (v >! JS.lit_0) && (v <! MAX_ENCODER_SPEED)
  end.

(** [setEncoderSpeeds(zoomFast, zoomSlow, beatgrid, jogwheel, scrub)]. *)
Definition setEncoderSpeeds (fast slow beatgrid jogwheel scrub : option JS.number)
    (w : World) (spare : SpareSpeeds) : World * SpareSpeeds :=
  if negb (isValidSpeed fast) || negb (isValidSpeed slow) || negb (isValidSpeed beatgrid)
     || negb (isValidSpeed jogwheel) || negb (isValidSpeed scrub)
  then (w, spare)
  else
    let cfg := config w in
    let cfg' := {| rotation := rotation cfg; rotationDirection := rotationDirection cfg;
                   deckOrder := deckOrder cfg;
                   zoomFast := default (zoomFast cfg) fast;
                   zoomSlow := default (zoomSlow cfg) slow;
                   beatgridSpeed := default (beatgridSpeed cfg) beatgrid;
                   zoomFeedbackEnabled := zoomFeedbackEnabled cfg;
                   zoomFeedbackDuration := zoomFeedbackDuration cfg;
                   reverseDirection := reverseDirection cfg |} in
    ({| config := cfg'; padLayout := padLayout w;
        encoderMappings := generateEncoderMappings cfg'; state := state w;
        controls := controls w; nextTimer := nextTimer w; output := output w |},
     {| jogwheelSpeed := default (jogwheelSpeed spare) jogwheel;
        scrubSpeed := default (scrubSpeed spare) scrub |}).

(** The configured speeds that encoder mappings read are valid speeds. *)
Definition speedsOk (cfg : Config) : Prop :=
  isValidSpeed (Some (zoomFast cfg)) = true /\ isValidSpeed (Some (zoomSlow cfg)) = true
  /\ isValidSpeed (Some (beatgridSpeed cfg)) = true.

(** ** The parameter-select handlers of the earlier script

    The repository also holds the script this one was rewritten from.  Its
    CC 99 and CC 98 handlers keep a table of the channels that carry an
    encoder, recompute the parameter on either byte and clear it on the
    NRPN null pair. *)

Module Legacy.

Record ChannelState := {
  currentParameter : option Z;
  msb : Z;
  lsb : Z
}.

(** [MPD218.nrpnState.channels] as the script declares it. *)
Definition channels : gmap Z ChannelState :=
  list_to_map
    (map (fun c => (c, {| currentParameter := None; msb := 0; lsb := 0 |}))
         [1; 2; 3; 4; 5; 6; 9; 11; 12; 13]).

(** The statements both handlers end with. *)
Definition recompute (hi lo : Z) : ChannelState :=
  {| currentParameter :=
       if (hi =? 127) && (lo =? 127) then None else Some (JS.bor (JS.shl hi 7) lo);
     msb := hi; lsb := lo |}.

Definition handleNRPNMSB (enableNRPN : bool) (status value : Z)
    (chans : gmap Z ChannelState) : gmap Z ChannelState :=
  if negb enableNRPN then chans
  else
    let midiChannel := JS.band status 0x0F + 1 in
    match chans !! midiChannel with
    | None => chans
    | Some channelState => <[midiChannel := recompute value (lsb channelState)]> chans
    end.

Definition handleNRPNLSB (enableNRPN : bool) (status value : Z)
    (chans : gmap Z ChannelState) : gmap Z ChannelState :=
  if negb enableNRPN then chans
  else
    let midiChannel := JS.band status 0x0F + 1 in
    match chans !! midiChannel with
    | None => chans
    | Some channelState => <[midiChannel := recompute (msb channelState) value]> chans
    end.

End Legacy.

(** ** Notions used to state the properties *)

(** A parameter-select message: CC 99 carries the MSB, CC 98 the LSB. *)
Inductive NrpnSelect :=
  | CC99 (status value : Z)
  | CC98 (status value : Z).

Definition select (m : NrpnSelect) (w : World) : World :=
  match m with
  | CC99 status value => nrpnMSB status value w
  | CC98 status value => nrpnLSB status value w
  end.

Definition selectAll (msgs : list NrpnSelect) (w : World) : World :=
  fold_left (fun w m => select m w) msgs w.

(** The parameter stored for a 1-based MIDI channel; [None] when none is. *)
Definition storedParameter (midiChannel : Z) (w : World) : option Z :=
  param (entryAt (nrpnParams (state w)) midiChannel).

(** The value of the last CC 99 that arrived on 0-based channel [c]. *)
Definition lastMsb (c : Z) (msgs : list NrpnSelect) : option Z :=
  fold_left
    (fun acc m =>
       match m with
       | CC99 status value => if JS.band status 0x0F =? c then Some value else acc
       | CC98 _ _ => acc
       end) msgs None.

(** The parameter the NRPN null convention asks for: the pair (127,127)
    selects nothing. *)
Definition parameterWithNullReset (hi lo : Z) : option Z :=
  if (hi =? 127) && (lo =? 127) then None else Some (Z.lor (Z.shiftl hi 7) lo).

(** [clamp(x, lo, hi)]. *)
Definition clamp (x lo hi : JS.number) : JS.number :=
  if x <! lo then lo else if x >! hi then hi else x.

(** One multiplicative zoom step: [clamp(z * (1 + direction * speed * 0.05))]. *)
Definition zoomStep (direction speed z : JS.number) : JS.number :=
  clamp (z *! (JS.lit_1 +! (direction *! speed *! JS.lit_0_05)))
        HARDWARE.MIN_ZOOM HARDWARE.MAX_ZOOM.

(** The direction after the optional global inversion. *)
Definition invertIf (reverse : bool) (direction : JS.number) : JS.number :=
  if reverse then JS.neg direction else direction.

(** The transition table of the beat-jump rate tracker: the multiplier
    after a tick that comes [dt] milliseconds after the previous one. *)
Definition nextMultiplier (dt m : Z) : Z :=
  if dt <? 50 then (if m <? 2 then 2 else if m <? 4 then 4 else 8)
  else if dt <? 100 then (if m <? 2 then 2 else m)
  else if dt >? 150 then 1
  else m.

(** The multiplier of [deck] after each of a series of ticks. *)
Fixpoint multipliersAt (deck : string) (times : list Z) (r : BeatjumpRate)
  : list (option Z) :=
  match times with
  | [] => []
  | now :: rest =>
      let r' := fst (trackBeatjumpRate deck now r) in
      multiplier r' !! deck :: multipliersAt deck rest r'
  end.

(** A configuration with another layout and the same encoder speeds. *)
Definition withLayout (rot : Z) (dir : string) (order : list Z) (c : Config) : Config :=
  {| rotation := rot; rotationDirection := dir; deckOrder := order;
     zoomFast := zoomFast c; zoomSlow := zoomSlow c; beatgridSpeed := beatgridSpeed c;
     zoomFeedbackEnabled := zoomFeedbackEnabled c;
     zoomFeedbackDuration := zoomFeedbackDuration c;
     reverseDirection := reverseDirection c |}.

(** What of a mapping the layout cannot change. *)
Definition actionAndSpeed (m : Mapping) : ActionType * JS.number := (type m, speed m).

(** A host in which every control reads 0, and the script loaded into it
    with its default configuration. *)
Definition silentHost : string -> string -> JS.number := fun _ _ => JS.lit_0.
Definition freshWorld : World := load defaultConfig silentHost.

(** The default configuration with the zoom visualization switched off. *)
Definition zoomFeedbackOff : Config := {|
  rotation := 90;
  rotationDirection := "counterclockwise";
  deckOrder := [3; 1; 2; 4];
  zoomFast := JS.lit_1;
  zoomSlow := JS.lit_0_1;
  beatgridSpeed := JS.lit_1;
  zoomFeedbackEnabled := false;
  zoomFeedbackDuration := 4000;
  reverseDirection := true
|}.

(** A host whose waveform zoom reads [z], every other control 0. *)
Definition hostWithZoom (z : JS.number) : string -> string -> JS.number :=
  fun _ key => if String.eqb key "waveform_zoom" then z else JS.lit_0.

(** A host playing a track: play position, duration in seconds and BPM. *)
Definition hostWithTrack (pos dur bpm : JS.number) : string -> string -> JS.number :=
  fun _ key =>
    if String.eqb key "playposition" then pos
    else if String.eqb key "duration" then dur
    else if String.eqb key "bpm" then bpm
    else JS.lit_0.


(** Whether an effect writes one of the beat-jump controls. *)
Definition writesBeatjump (e : Effect) : bool :=
  match e with
  | setValue _ key _ =>
      String.eqb key "beatjump_size" || String.eqb key "beatjump_forward"
      || String.eqb key "beatjump_backward"
  | _ => false
  end.

(** The direction of a motion message and the speed [processMotion]
    derives from its data byte. *)
Definition motionDirection (increment : bool) : JS.number :=
  if increment then JS.lit_1 else JS.neg JS.lit_1.

Definition motionSpeed (value : Z) (mapping : Mapping) : JS.number :=
  JS.of_Z value *! JS.or_else (speed mapping) JS.lit_1.

(** The handler [processMotion] selects for an action type. *)
Definition actionHandler (t : ActionType) (deck : string) (direction speed : JS.number)
    (now : Z) (w : World) : option World :=
  match t with
  | zoom => Some (handleZoom deck direction speed w)
  | beatgrid => Some (handleBeatgrid deck direction speed w)
  | jogwheel => Some (handleJogwheel deck direction speed w)
  | beatjump => Some (handleBeatJump deck direction speed now w)
  | superknob => handleSuperknob deck direction speed w
  end.

(** A CC 96 (increment) or CC 97 (decrement) message as the host delivers
    it, at time [now]. *)
Definition motionMessage (increment : bool) (status value now : Z) (w : World)
  : option World :=
  if increment then nrpnIncrement status value now w
  else nrpnDecrement status value now w.

(** The pads a pad-state object holds as lit, in key order. *)
Definition litPads (o : gmap Z bool) : list Z :=
  List.filter (truthyAt o) (Object_keys o).

(** Every pad recorded in a pad-state object is recorded as lit. *)
Definition allLit (o : gmap Z bool) : Prop :=
  forall k b, o !! k = Some b -> b = true.

(** The pads of the old lit set that are absent from the new target set,
    and the pads of the target set that the old lit set lacks. *)
Definition stalePads (target current : gmap Z bool) : list Z :=
  List.filter (fun note => truthyAt current note && negb (truthyAt target note))
              (Object_keys current).

Definition freshPads (target current : gmap Z bool) : list Z :=
  List.filter (fun note => negb (truthyAt current note)) (Object_keys target).

Definition isLedMessage (e : Effect) : bool :=
  match e with sendShortMsg _ _ _ => true | _ => false end.

(** The LED messages among what a handler added to the output of [w]. *)
Definition ledMessagesSince (w w' : World) : list Effect :=
  List.filter isLedMessage (drop (length (output w)) (output w')).

(** The target pad sets the two renderers compute. *)
Definition zoomTarget (zoomLevel : JS.number) (w : World) : gmap Z bool :=
  zoomTargetPadStates (zoomClampedSteps zoomLevel) 0 (getBottomLeftToTopRightOrder w) ∅.

Definition superknobTarget (superknobValue : JS.number) (w : World) : gmap Z bool :=
  superknobTargetPadStates (superknobClampedPads superknobValue) 0
    (if superknobValue <! JS.lit_0_5 then getBottomLeftToTopRightOrder w
     else getTopRightToBottomLeftOrder w) ∅.

(** Whether [show] takes the timer-only path: the session is active for
    the same deck and what was shown last has not changed. *)
Definition unchangedZoom (deck : string) (zoomLevel : JS.number) (w : World) : bool :=
  let fb := zoomFeedback (state w) in
  active fb && sameShown fb (zoomClampedSteps zoomLevel) && sameDeck fb deck.

Definition unchangedSuperknob (deck : string) (superknobValue : JS.number) (w : World)
  : bool :=
  let fb := superknobFeedback (state w) in
  active fb && sameShown fb superknobValue && sameDeck fb deck.

(** What holds of the zoom session between two calls: every recorded pad
    is lit, and while the session is active the recorded pads are the
    target set of the level shown last. *)
Definition zoomSessionOk (w : World) : Prop :=
  let fb := zoomFeedback (state w) in
  allLit (currentPadStates fb) /\
  (active fb = true -> forall c, lastShown fb = Some c ->
     currentPadStates fb =
     zoomTargetPadStates c 0 (getBottomLeftToTopRightOrder w) ∅).

(** The step count as the formula gives it:
    [clamp(floor(((v - MIN) / (MAX - MIN)) * 16), 0, 15)]. *)
Definition zoomStepsFormula (v : JS.number) : JS.number :=
  clamp (JS.Math_floor
           (((v -! HARDWARE.MIN_ZOOM) /! (HARDWARE.MAX_ZOOM -! HARDWARE.MIN_ZOOM))
            *! JS.lit_16))
        JS.lit_0 JS.lit_15.

(** Recording each pad of a list as lit. *)
Definition lightAll (pads : list Z) (acc : gmap Z bool) : gmap Z bool :=
  foldl (fun acc pad => <[pad := true]> acc) acc pads.

(** The rate tracker after a series of ticks, each on some deck at some
    time. *)
Definition trackAll (ticks : list (string * Z)) (r : BeatjumpRate) : BeatjumpRate :=
  fold_left (fun r tick => fst (trackBeatjumpRate (fst tick) (snd tick) r)) ticks r.

(** A jump size the rate tracker hands out. *)
Definition jumpSize (m : Z) : Prop := m = 1 \/ m = 2 \/ m = 4 \/ m = 8.

(** What holds of the rate tracker between ticks: a deck that has a time
    has a multiplier, and every multiplier is a jump size. *)
Definition trackerOk (r : BeatjumpRate) : Prop :=
  forall d, (noLastTime r d = false -> is_Some (multiplier r !! d)) /\
            (forall m, multiplier r !! d = Some m -> jumpSize m).

(** What holds of the superknob session between two calls: every
    recorded pad is lit, and while the session is active the recorded
    pads are the target set of the value shown last. *)
Definition superknobSessionOk (w : World) : Prop :=
  let fb := superknobFeedback (state w) in
  allLit (currentPadStates fb) /\
  (active fb = true -> forall l, lastShown fb = Some l ->
     currentPadStates fb = superknobTarget l w).

(** The order in which [showSuperknobFeedback] lights pads for a value. *)
Definition superknobOrder (superknobValue : JS.number) (w : World) : list Z :=
  if superknobValue <! JS.lit_0_5 then getBottomLeftToTopRightOrder w
  else getTopRightToBottomLeftOrder w.

(** What [if (feedback.timer) engine.stopTimer(feedback.timer)] asks of
    the host. *)
Definition stopsOf (f : Feedback) : list Effect :=
  match timer f with
  | Some id => if id =? 0 then [] else [stopTimer id]
  | None => []
  end.

(** The state a series of messages leaves the LED of pad [note] in,
    starting from [st]: the last note-on or note-off on the pad channel for
    that note decides. *)
Definition ledFrom (st : option bool) (note : Z) (es : list Effect) : option bool :=
  foldl (fun st e =>
           match e with
           | sendShortMsg status data1 _ =>
               if data1 =? note then
                 if status =? MIDI.NOTE_ON + MIDI.PAD_CHANNEL then Some true
                 else if status =? MIDI.NOTE_OFF + MIDI.PAD_CHANNEL then Some false
                 else st
               else st
           | _ => st
           end) st es.

(** [None] when the messages leave the pad's LED alone. *)
Definition ledAfter (note : Z) (es : list Effect) : option bool := ledFrom None note es.

(** What a handler added to the output of [w]. *)
Definition sentSince (w w' : World) : list Effect := drop (length (output w)) (output w').




(** The session a timer callback ends. *)
Definition sessionOf (callback : Callback) (s : State) : Feedback :=
  match callback with
  | endZoomFeedback => zoomFeedback s
  | endSuperknobFeedback => superknobFeedback s
  end.

(** The session a timer callback leaves alone. *)
Definition otherSession (callback : Callback) (s : State) : Feedback :=
  match callback with
  | endZoomFeedback => superknobFeedback s
  | endSuperknobFeedback => zoomFeedback s
  end.

(** The script loaded with its default configuration into a host in
    which every control reads 0. *)
Definition freshController : Controller :=
  loadController defaultConfig defaultPadOptions silentHost.

(** The literals are what a JavaScript engine reads from the source text. *)
Lemma literals_are_binary64 :
  Prim2SF 0%float = JS.lit_0 /\ Prim2SF 1%float = JS.lit_1 /\
  Prim2SF 0x1.999999999999ap-5%float = JS.lit_0_05 /\
  Prim2SF 0x1.47ae147ae147bp-7%float = JS.lit_0_01 /\
  Prim2SF 0x1.0624dd2f1a9fcp-10%float = JS.lit_0_001 /\
  Prim2SF 0x1.999999999999ap-4%float = JS.lit_0_1 /\
  Prim2SF 0.5%float = JS.lit_0_5 /\
  Prim2SF 0x1.ff7ced916872bp-1%float = JS.lit_0_999 /\
  Prim2SF 2%float = JS.lit_2 /\ Prim2SF 4%float = JS.lit_4 /\
  Prim2SF 15%float = JS.lit_15 /\ Prim2SF 16%float = JS.lit_16 /\
  Prim2SF 60%float = JS.lit_60 /\ Prim2SF 100%float = JS.lit_100.
Proof. vm_compute. repeat split; reflexivity. Qed.

(** * The NRPN assembler *)

Section NrpnAssembler.

Variable cfg : Config.
Variable ctl : string -> string -> JS.number.

Local Abbreviation start := (load cfg ctl).

Lemma entryAt_insert (p : gmap Z NrpnEntry) (k j : Z) (e : NrpnEntry) :
  entryAt (<[k := e]> p) j = if decide (k = j) then e else entryAt p j.
Proof.
  unfold entryAt. rewrite lookup_insert. destruct (decide (k = j)); reflexivity.
Qed.

Lemma entry_after_msb status value w k :
  entryAt (nrpnParams (state (nrpnMSB status value w))) k =
  if decide (JS.band status 0x0F + 1 = k)
  then {| msb := Some value; lsb := lsb (entryAt (nrpnParams (state w)) k);
          param := param (entryAt (nrpnParams (state w)) k) |}
  else entryAt (nrpnParams (state w)) k.
Proof.
  unfold nrpnMSB; simpl. rewrite entryAt_insert.
  destruct (decide _) as [<-|]; reflexivity.
Qed.

Lemma entry_after_lsb status value w k :
  entryAt (nrpnParams (state (nrpnLSB status value w))) k =
  if decide (JS.band status 0x0F + 1 = k)
  then {| msb := msb (entryAt (nrpnParams (state w)) k); lsb := Some value;
          param := match msb (entryAt (nrpnParams (state w)) k) with
                   | Some hi => Some (JS.bor (JS.shl hi 7) value)
                   | None => param (entryAt (nrpnParams (state w)) k)
                   end |}
  else entryAt (nrpnParams (state w)) k.
Proof.
  unfold nrpnLSB; simpl.
  destruct (msb (entryAt (nrpnParams (state w)) (JS.band status 15 + 1))) as [hi|] eqn:E;
    unfold setParameter; simpl; rewrite ?entryAt_insert;
    destruct (decide _) as [<-|]; rewrite ?E; try reflexivity.
  rewrite decide_True by reflexivity. reflexivity.
Qed.

Lemma lastMsb_snoc c msgs m :
  lastMsb c (msgs ++ [m]) =
  match m with
  | CC99 status value => if JS.band status 0x0F =? c then Some value else lastMsb c msgs
  | CC98 _ _ => lastMsb c msgs
  end.
Proof. unfold lastMsb. rewrite fold_left_app. reflexivity. Qed.

(** The stored MSB of a channel is the last one received on it, and no
    parameter is stored before an MSB has arrived. *)
Lemma stored_msb_is_last msgs k :
  let e := entryAt (nrpnParams (state (selectAll msgs start))) k in
  msb e = lastMsb (k - 1) msgs /\ (msb e = None -> param e = None).
Proof.
  induction msgs as [|m msgs IH] using rev_ind; [split; reflexivity|].
  cbv zeta in *. unfold selectAll in *. rewrite fold_left_app, lastMsb_snoc.
  cbn [fold_left select]. destruct IH as [IH1 IH2].
  destruct m as [status value|status value]; cbn [select].
  - rewrite entry_after_msb. destruct (decide _) as [E|E]; cbn [msb param].
    + rewrite (proj2 (Z.eqb_eq _ _)) by lia. split; [reflexivity|discriminate].
    + rewrite (proj2 (Z.eqb_neq _ _)) by lia. auto.
  - rewrite entry_after_lsb. destruct (decide _) as [E|E]; cbn [msb param]; [|auto].
    split; [assumption|]. intros H. rewrite H. auto.
Qed.

Lemma to_int32_small z : -2147483648 <= z < 2147483648 -> JS.to_int32 z = z.
Proof.
  intros Hz. unfold JS.to_int32.
  change (2 ^ 31) with 2147483648. change (2 ^ 32) with 4294967296.
  rewrite Z.mod_small; lia.
Qed.

(** On data bytes the 32-bit operators of [(msb << 7) | lsb] never wrap. *)
Lemma combine_data_bytes hi lo :
  0 <= hi < 128 -> 0 <= lo < 128 ->
  JS.bor (JS.shl hi 7) lo = Z.lor (Z.shiftl hi 7) lo /\
  Z.lor (Z.shiftl hi 7) lo = 128 * hi + lo.
Proof.
  intros Hhi Hlo.
  assert (Hs : Z.shiftl hi 7 = 128 * hi) by (rewrite Z.shiftl_mul_pow2; lia).
  unfold JS.bor, JS.shl. change (Z.land 7 31) with 7.
  rewrite (to_int32_small hi) by lia. rewrite Hs.
  rewrite (to_int32_small (128 * hi)) by lia. rewrite (to_int32_small (128 * hi)) by lia.
  rewrite (to_int32_small lo) by lia.
  split; [reflexivity|].
  rewrite <- Z.lxor_lor, <- Z.add_nocarry_lxor; try reflexivity;
    rewrite <- Hs; apply Z.bits_inj'; intros n Hn;
    rewrite Z.land_spec, Z.bits_0, Z.shiftl_spec by assumption;
    (destruct (Z.lt_ge_cases n 7);
    [ rewrite (Z.testbit_neg_r hi) by lia; reflexivity
    | rewrite (Z.bits_above_log2 lo n), andb_false_r; try reflexivity; try lia;
      destruct (Z.eq_dec lo 0) as [->|]; [simpl; lia|];
      apply Z.log2_lt_pow2; try lia;
      apply Z.lt_le_trans with (2 ^ 7); [lia | apply Z.pow_le_mono_r; lia] ]).
Qed.

(** C1, as amended: the stored NRPN parameter of a channel is recomputed
    only when a CC 98 (LSB) arrives, to [(last_msb << 7) | lsb], provided a
    CC 99 (MSB) has been received on that channel before; this includes the
    pair (127,127), which is stored like any other.  A CC 99 leaves the
    stored parameter as it was. *)
Theorem nrpn_parameter_recomputed_on_lsb (msgs : list NrpnSelect) (status value : Z) :
  let c := JS.band status 0x0F in
  let w := selectAll msgs start in
  storedParameter (c + 1) (nrpnLSB status value w) =
    (fun hi => JS.bor (JS.shl hi 7) value) <$> lastMsb c msgs
  /\ storedParameter (c + 1) (nrpnMSB status value w) = storedParameter (c + 1) w.
Proof.
  cbv zeta. unfold storedParameter. rewrite entry_after_lsb, entry_after_msb.
  rewrite !decide_True by reflexivity. simpl. split; [|reflexivity].
  destruct (stored_msb_is_last msgs (JS.band status 15 + 1)) as [H1 H2]. cbv zeta in *.
  replace (JS.band status 15 + 1 - 1) with (JS.band status 15) in H1 by lia.
  rewrite <- H1. destruct (msb _) as [hi|]; [reflexivity|]. now rewrite H2.
Qed.

End NrpnAssembler.

(** C1, as stated, fails: after the pair (127,127) on channel 5 the stored
    parameter is 16383, not cleared; and after MSB 1, LSB 2, MSB 3 it is
    still [(1 << 7) | 2 = 130], not [(3 << 7) | 2 = 386]. *)
Lemma nrpn_null_pair_is_stored :
  storedParameter 5 (selectAll [CC99 0xB4 127; CC98 0xB4 127] freshWorld) = Some 16383
  /\ parameterWithNullReset 127 127 = None
  /\ storedParameter 5 (selectAll [CC99 0xB4 1; CC98 0xB4 2; CC99 0xB4 3] freshWorld)
     = Some 130
  /\ parameterWithNullReset 3 2 = Some 386.
Proof. vm_compute. repeat split; reflexivity. Qed.

(** * The encoder mappings *)

(** C10: whatever the rotation, rotation direction and deck order, MIDI
    channels 1 and 2 map to zoom on [[Channel1]] with the fast and the slow
    zoom speed; another layout changes no channel's action or speed, so it
    can only change the deck that channels 3 to 16 address. *)
Theorem zoom_encoders_fixed_on_channel1 (cfg : Config) (rot : Z) (dir : string)
    (order : list Z) :
  generateEncoderMappings cfg !! 1 =
    Some {| type := zoom; deck := "[Channel1]"; speed := zoomFast cfg |}
  /\ generateEncoderMappings cfg !! 2 =
    Some {| type := zoom; deck := "[Channel1]"; speed := zoomSlow cfg |}
  /\ generateEncoderMappings (withLayout rot dir order cfg) !! 1 =
     generateEncoderMappings cfg !! 1
  /\ generateEncoderMappings (withLayout rot dir order cfg) !! 2 =
     generateEncoderMappings cfg !! 2
  /\ actionAndSpeed <$> generateEncoderMappings (withLayout rot dir order cfg) =
     actionAndSpeed <$> generateEncoderMappings cfg.
Proof.
  repeat split; reflexivity.
Qed.

(** * The beat-jump rate tracker *)

Section BeatjumpRateTracker.

Variable deck : string.

(** The first tick of a deck: the multiplier is initialised to 1, and the
    interval of 0 ms that follows from it escalates it to 2 at once. *)
Lemma first_tick now (r : BeatjumpRate) :
  noLastTime r deck = true ->
  let r' := fst (trackBeatjumpRate deck now r) in
  lastTime r' !! deck = Some now /\ multiplier r' !! deck = Some 2.
Proof.
  intros H. unfold trackBeatjumpRate. rewrite H. cbn [lastTime multiplier].
  rewrite lookup_insert_eq. change (default 0 (Some now)) with now. rewrite Z.sub_diag.
  change (0 <? 50) with true. cbv iota.
  unfold multiplierBelow. cbn [multiplier]. rewrite lookup_insert_eq.
  change (1 <? 2) with true. cbv iota. cbn [fst setMultiplier lastTime multiplier].
  rewrite !lookup_insert_eq. split; reflexivity.
Qed.

(** Every later tick follows the transition table. *)
Lemma later_tick now t m (r : BeatjumpRate) :
  lastTime r !! deck = Some t -> t <> 0 -> multiplier r !! deck = Some m ->
  let r' := fst (trackBeatjumpRate deck now r) in
  lastTime r' !! deck = Some now /\
  multiplier r' !! deck = Some (nextMultiplier (now - t) m).
Proof.
  intros Ht Hnz Hm. unfold trackBeatjumpRate, noLastTime. rewrite Ht.
  rewrite (proj2 (Z.eqb_neq t 0) Hnz). rewrite Ht. change (default 0 (Some t)) with t.
  unfold nextMultiplier, multiplierBelow. cbn [multiplier]. rewrite Hm.
  cbv beta iota.
  destruct (now - t <? 50); [|destruct (now - t <? 100); [|destruct (now - t >? 150)]];
    destruct (m <? 2); try destruct (m <? 4);
    cbn [fst setMultiplier lastTime multiplier];
    rewrite ?lookup_insert_eq; auto.
Qed.

(** C2, as the code has it: on a deck without earlier ticks the first tick
    already doubles the multiplier, so ticks 10 ms apart give 2, 4, 8, 8,
    8, 8 and ticks 200 ms apart give 2, 1, 1, 1, 1, 1. *)
Theorem first_tick_doubles_multiplier now (r : BeatjumpRate) :
  0 < now -> noLastTime r deck = true ->
  multiplier (fst (trackBeatjumpRate deck now r)) !! deck = Some 2
  /\ multipliersAt deck [now; now + 10; now + 20; now + 30; now + 40; now + 50] r
     = [Some 2; Some 4; Some 8; Some 8; Some 8; Some 8]
  /\ multipliersAt deck [now; now + 200; now + 400; now + 600; now + 800; now + 1000] r
     = [Some 2; Some 1; Some 1; Some 1; Some 1; Some 1].
Proof.
  intros Hnow Hfresh.
  destruct (first_tick now r Hfresh) as [Ht Hm]. cbv zeta in Ht, Hm.
  split; [assumption|].
  split; cbn [multipliersAt]; rewrite Hm;
    repeat match goal with
      | Ht : lastTime ?r !! deck = Some ?t, Hm : multiplier ?r !! deck = Some ?m
        |- context [trackBeatjumpRate deck ?n ?r] =>
          let Ht' := fresh "Ht" in let Hm' := fresh "Hm" in
          destruct (later_tick n t m r Ht ltac:(lia) Hm) as [Ht' Hm'];
          cbv zeta in Ht', Hm';
          match type of Hm' with
          | context [nextMultiplier ?d m] =>
              (replace d with 10 in Hm' by lia) || (replace d with 200 in Hm' by lia)
          end;
          rewrite Hm'; clear Ht Hm
      end; reflexivity.
Qed.

End BeatjumpRateTracker.

(** Ticks on deck [[Channel1]] of the fresh script, the first at time
    1000. *)
Lemma first_tick_doubles_multiplier_witness :
  let r := beatjumpRate initialState in
  0 < 1000 /\ noLastTime r "[Channel1]" = true /\
  multiplier (fst (trackBeatjumpRate "[Channel1]" 1000 r)) !! "[Channel1]" = Some 2 /\
  multipliersAt "[Channel1]" [1000; 1010; 1020; 1030; 1040; 1050] r
    = [Some 2; Some 4; Some 8; Some 8; Some 8; Some 8] /\
  multipliersAt "[Channel1]" [1000; 1200; 1400; 1600; 1800; 2000] r
    = [Some 2; Some 1; Some 1; Some 1; Some 1; Some 1].
Proof.
  cbv zeta. split; [lia|]. split; [reflexivity|].
  exact (first_tick_doubles_multiplier "[Channel1]" 1000 (beatjumpRate initialState)
           eq_refl eq_refl).
Defined.

(** * Order on JavaScript numbers *)

Section NumberOrder.

Implicit Types a b c : JS.number.

Lemma SFcompare_swap a b :
  SFcompare b a = option_map CompOpp (SFcompare a b).
Proof.
  destruct a as [[]|[]| |[] m1 e1], b as [[]|[]| |[] m2 e2]; simpl; try reflexivity;
    rewrite (Z.compare_antisym e1 e2);
    destruct (e1 ?= e2); simpl; try reflexivity;
    change (Pos.compare_cont Eq m2 m1) with (m2 ?= m1)%positive;
    change (Pos.compare_cont Eq m1 m2) with (m1 ?= m2)%positive;
    rewrite (Pos.compare_antisym m1 m2); destruct (m1 ?= m2)%positive; reflexivity.
Qed.

Lemma SFcompare_Lt_trans a b c :
  SFcompare a b = Some Lt -> SFcompare b c = Some Lt -> SFcompare a c = Some Lt.
Proof.
  destruct a as [[]|[]| |[] m1 e1], b as [[]|[]| |[] m2 e2], c as [[]|[]| |[] m3 e3];
    simpl; try congruence;
    change (Pos.compare_cont Eq) with Pos.compare;
    destruct (Z.compare_spec e1 e2), (Z.compare_spec e2 e3); try congruence;
    destruct (Z.compare_spec e1 e3); try lia; try congruence; subst;
    destruct (Pos.compare_spec m1 m2), (Pos.compare_spec m2 m3); simpl; try congruence;
    destruct (Pos.compare_spec m1 m3); simpl; try lia; congruence.
Qed.

(** Numbers that compare equal are the same, up to the sign of zero. *)
Lemma SFcompare_Eq a b :
  SFcompare a b = Some Eq -> a = b \/ exists s t, a = S754_zero s /\ b = S754_zero t.
Proof.
  destruct a as [[]|[]| |[] m1 e1], b as [[]|[]| |[] m2 e2]; simpl; try congruence; eauto;
    change (Pos.compare_cont Eq) with Pos.compare;
    destruct (Z.compare_spec e1 e2); try congruence; subst;
    destruct (Pos.compare_spec m1 m2); simpl; try congruence; subst; auto.
Qed.

Lemma SFcompare_None a b : SFcompare a b = None -> a = JS.NaN \/ b = JS.NaN.
Proof.
  destruct a as [[]|[]| |[] m1 e1], b as [[]|[]| |[] m2 e2]; simpl; auto; discriminate.
Qed.

Lemma lt_not_ge a b : a <! b = true -> b <=! a = false.
Proof.
  unfold JS.lt, JS.le, SFltb, SFleb. rewrite (SFcompare_swap a b).
  destruct (SFcompare a b) as [[]|]; simpl; congruence.
Qed.


Lemma lt_asym a b : a <! b = true -> b <! a = false.
Proof.
  unfold JS.lt, SFltb. rewrite (SFcompare_swap a b).
  destruct (SFcompare a b) as [[]|]; simpl; congruence.
Qed.

Lemma lt_trans a b c : a <! b = true -> b <! c = true -> a <! c = true.
Proof.
  unfold JS.lt, SFltb. intros Hab Hbc.
  destruct (SFcompare a b) as [[]|] eqn:E1; try discriminate.
  destruct (SFcompare b c) as [[]|] eqn:E2; try discriminate.
  now rewrite (SFcompare_Lt_trans _ _ _ E1 E2).
Qed.

(** [Math.max(lo, Math.min(hi, x))] is [clamp(x, lo, hi)] for finite,
    non-zero bounds [lo < hi]. *)
Lemma max_min_is_clamp x sl ml el sh mh eh :
  let lo := S754_finite sl ml el in
  let hi := S754_finite sh mh eh in
  lo <! hi = true ->
  JS.Math_max lo (JS.Math_min hi x) = clamp x lo hi.
Proof.
  intros lo hi Hlh.
  assert (Hc : SFcompare lo hi = Some Lt).
  { unfold JS.lt, SFltb in Hlh. destruct (SFcompare lo hi) as [[]|]; congruence. }
  assert (Hmin : JS.Math_min hi x =
                 match SFcompare hi x with
                 | None => JS.NaN | Some Lt => hi | Some _ => x end).
  { unfold JS.Math_min. destruct (SFcompare hi x) as [[]|]; reflexivity. }
  assert (Hmax : forall y, JS.Math_max lo y =
                 match SFcompare lo y with
                 | None => JS.NaN | Some Gt => lo | Some _ => y end).
  { intros y. unfold JS.Math_max. destruct (SFcompare lo y) as [[]|]; reflexivity. }
  rewrite Hmin, Hmax. unfold clamp. change (x >! hi) with (hi <! x). clear Hmin Hmax.
  destruct (SFcompare hi x) as [[]|] eqn:Ehx.
  - (* x is hi *)
    destruct (SFcompare_Eq _ _ Ehx) as [<-|(s & t & Habs & _)]; [|discriminate].
    rewrite Hc, (lt_asym _ _ Hlh).
    unfold JS.lt, SFltb. rewrite Ehx. reflexivity.
  - (* hi < x *)
    rewrite Hc.
    assert (Hhx : hi <! x = true) by (unfold JS.lt, SFltb; now rewrite Ehx).
    rewrite (lt_asym _ _ (lt_trans _ _ _ Hlh Hhx)), Hhx. reflexivity.
  - (* x < hi *)
    assert (Hxh : x <! hi = true).
    { unfold JS.lt, SFltb. rewrite (SFcompare_swap hi x), Ehx. reflexivity. }
    rewrite (lt_asym _ _ Hxh).
    destruct (SFcompare lo x) as [[]|] eqn:Elx.
    + destruct (SFcompare_Eq _ _ Elx) as [<-|(s & t & Habs & _)]; [|discriminate].
      unfold JS.lt, SFltb. rewrite Elx. reflexivity.
    + unfold JS.lt, SFltb. rewrite (SFcompare_swap lo x), Elx. reflexivity.
    + unfold JS.lt, SFltb. rewrite (SFcompare_swap lo x), Elx. reflexivity.
    + destruct (SFcompare_None _ _ Elx) as [Habs| ->]; [discriminate|].
      simpl in Ehx. discriminate.
  - (* x is NaN *)
    destruct (SFcompare_None _ _ Ehx) as [Habs| ->]; [discriminate|].
    reflexivity.
Qed.

End NumberOrder.

(** * The motion dispatcher *)

Section MotionDispatcher.

(** What the feedback renderer leaves alone. *)
Lemma showZoomFeedback_frame deck z w :
  let w' := showZoomFeedback deck z w in
  controls w' = controls w /\ config w' = config w /\
  encoderMappings w' = encoderMappings w /\ padLayout w' = padLayout w /\
  nrpnParams (state w') = nrpnParams (state w) /\
  beatjumpRate (state w') = beatjumpRate (state w) /\
  superknobFeedback (state w') = superknobFeedback (state w).
Proof.
  unfold showZoomFeedback, stopFeedbackTimer.
  destruct (differentialUpdate _ _) as [cur leds].
  repeat match goal with |- context [if ?b then _ else _] => destruct b end;
    try destruct (timer _) as [id|]; try destruct (id =? 0);
    repeat match goal with |- context [if ?b then _ else _] => destruct b end;
    repeat split; reflexivity.
Qed.

Lemma showSuperknobFeedback_frame deck v w :
  let w' := showSuperknobFeedback deck v w in
  controls w' = controls w /\ config w' = config w /\
  encoderMappings w' = encoderMappings w /\ padLayout w' = padLayout w /\
  nrpnParams (state w') = nrpnParams (state w) /\
  beatjumpRate (state w') = beatjumpRate (state w) /\
  zoomFeedback (state w') = zoomFeedback (state w).
Proof.
  unfold showSuperknobFeedback, stopFeedbackTimer.
  destruct (differentialUpdate _ _) as [cur leds].
  repeat match goal with |- context [if ?b then _ else _] => destruct b end;
    try destruct (timer _) as [id|]; try destruct (id =? 0);
    repeat match goal with |- context [if ?b then _ else _] => destruct b end;
    repeat split; reflexivity.
Qed.

Lemma zoom_clamp x :
  JS.Math_max HARDWARE.MIN_ZOOM (JS.Math_min HARDWARE.MAX_ZOOM x) =
  clamp x HARDWARE.MIN_ZOOM HARDWARE.MAX_ZOOM.
Proof.
  exact (max_min_is_clamp x false 4503599627370496 (-52)
                          false 7036874417766400 (-46) eq_refl).
Qed.

Lemma handleZoom_unfold deck direction speed w :
  let z := engine_getValue deck "waveform_zoom" w in
  let z' := zoomStep (invertIf (reverseDirection (config w)) direction) speed z in
  let w1 := engine_setValue deck "waveform_zoom" z' w in
  handleZoom deck direction speed w =
    if zoomFeedbackEnabled (config w) then showZoomFeedback deck z' w1 else w1.
Proof.
  cbv zeta. unfold handleZoom, zoomStep, invertIf. rewrite zoom_clamp. reflexivity.
Qed.

Lemma handleZoom_frame deck direction speed w :
  let w' := handleZoom deck direction speed w in
  config w' = config w /\ encoderMappings w' = encoderMappings w.
Proof.
  cbv zeta. rewrite handleZoom_unfold. cbv zeta.
  destruct (zoomFeedbackEnabled (config w)); [|split; reflexivity].
  match goal with |- context [showZoomFeedback ?d ?z ?w1] =>
    destruct (showZoomFeedback_frame d z w1) as (_ & Hc & Hm & _) end.
  cbv zeta in *. rewrite Hc, Hm. split; reflexivity.
Qed.

Lemma zoom_after_handleZoom deck direction speed w :
  engine_getValue deck "waveform_zoom" (handleZoom deck direction speed w) =
  zoomStep (invertIf (reverseDirection (config w)) direction) speed
           (engine_getValue deck "waveform_zoom" w).
Proof.
  rewrite handleZoom_unfold. cbv zeta. unfold engine_getValue at 1.
  destruct (zoomFeedbackEnabled (config w)).
  - match goal with |- context [showZoomFeedback ?d ?z ?w1] =>
      destruct (showZoomFeedback_frame d z w1) as (Hc & _) end.
    cbv zeta in Hc. rewrite Hc. cbn [controls engine_setValue].
    rewrite !String.eqb_refl. reflexivity.
  - cbn [controls engine_setValue]. rewrite !String.eqb_refl. reflexivity.
Qed.

(** C4, as amended: a zoom motion reads the current zoom [z], applies the
    optional direction inversion, writes back
    [clamp(z * (1 + direction' * speed * 0.05), 1, 100)], and triggers the
    zoom visualization with the written-back value when zoom feedback is
    enabled in the configuration; when it is disabled the write is all that
    happens. *)
Theorem zoom_motion_writes_clamped_step (deck : string) (direction speed : JS.number)
    (w : World) :
  let z := engine_getValue deck "waveform_zoom" w in
  let direction' := invertIf (reverseDirection (config w)) direction in
  let factor := JS.lit_1 +! (direction' *! speed *! JS.lit_0_05) in
  let z' := clamp (z *! factor) HARDWARE.MIN_ZOOM HARDWARE.MAX_ZOOM in
  let written := engine_setValue deck "waveform_zoom" z' w in
  handleZoom deck direction speed w =
    (if zoomFeedbackEnabled (config w) then showZoomFeedback deck z' written else written)
  /\ output written = output w ++ [setValue deck "waveform_zoom" z']
  /\ engine_getValue deck "waveform_zoom" (handleZoom deck direction speed w) = z'
  /\ HARDWARE.MIN_ZOOM = JS.of_Z 1 /\ HARDWARE.MAX_ZOOM = JS.of_Z 100.
Proof.
  cbv zeta. split; [apply handleZoom_unfold|].
  split; [reflexivity|]. split; [apply zoom_after_handleZoom|].
  split; reflexivity.
Qed.

End MotionDispatcher.

(** C4, as stated, fails: with zoom feedback disabled in the configuration
    a zoom motion writes the new zoom and triggers no visualization. *)
Lemma zoom_visualization_is_gated :
  let w := load zoomFeedbackOff (hostWithZoom (JS.of_Z 10)) in
  let w' := handleZoom "[Channel1]" JS.lit_1 JS.lit_1 w in
  output w' = [setValue "[Channel1]" "waveform_zoom"
                 (S754_finite false 5348024557502464 (-49))]
  /\ zoomFeedback (state w') = idleFeedback
  /\ w' <> showZoomFeedback "[Channel1]" (S754_finite false 5348024557502464 (-49))
            (engine_setValue "[Channel1]" "waveform_zoom"
               (S754_finite false 5348024557502464 (-49)) w).
Proof.
  cbv zeta. split; [vm_compute; reflexivity|]. split; [vm_compute; reflexivity|].
  intros H. apply (f_equal (fun x => active (zoomFeedback (state x)))) in H.
  vm_compute in H. discriminate.
Qed.

(** * Zoom turns *)

Section ZoomTurns.

Lemma invertIf_neg reverse d : invertIf reverse (JS.neg d) = JS.neg (invertIf reverse d).
Proof. destruct reverse; reflexivity. Qed.

(** Two zoom motions in opposite directions and of equal speed compose
    two multiplicative steps. *)
Lemma opposite_zoom_motions deck d speed w :
  engine_getValue deck "waveform_zoom"
    (handleZoom deck (JS.neg d) speed (handleZoom deck d speed w)) =
  zoomStep (JS.neg (invertIf (reverseDirection (config w)) d)) speed
    (zoomStep (invertIf (reverseDirection (config w)) d) speed
       (engine_getValue deck "waveform_zoom" w)).
Proof.
  rewrite zoom_after_handleZoom.
  destruct (handleZoom_frame deck d speed w) as [Hc _]. cbv zeta in Hc.
  rewrite Hc, invertIf_neg, zoom_after_handleZoom. reflexivity.
Qed.

(** C3, as amended: an increment followed by a decrement of the same
    magnitude on a zoom encoder leaves the zoom at
    [clamp(clamp(z * (1 + d * s * 0.05)) * (1 - d * s * 0.05))], the
    composition of two opposite multiplicative steps ([d] the increment's
    direction after the optional inversion, [s] the magnitude times the
    encoder speed), and not in general at the pre-turn value [z]. *)
Theorem zoom_increment_then_decrement (w : World) (status value now1 now2 : Z)
    (mapping : Mapping) :
  encoderMappings w !! (JS.band status 0x0F + 1) = Some mapping ->
  type mapping = zoom ->
  let z := engine_getValue (deck mapping) "waveform_zoom" w in
  let s := motionSpeed value mapping in
  let d := invertIf (reverseDirection (config w)) JS.lit_1 in
  exists w1 w2,
    nrpnIncrement status value now1 w = Some w1 /\
    nrpnDecrement status value now2 w1 = Some w2 /\
    engine_getValue (deck mapping) "waveform_zoom" w2 =
      zoomStep (JS.neg d) s (zoomStep d s z).
Proof.
  intros Hmap Hzoom. cbv zeta.
  exists (handleZoom (deck mapping) JS.lit_1 (motionSpeed value mapping) w).
  exists (handleZoom (deck mapping) (JS.neg JS.lit_1) (motionSpeed value mapping)
            (handleZoom (deck mapping) JS.lit_1 (motionSpeed value mapping) w)).
  destruct (handleZoom_frame (deck mapping) JS.lit_1 (motionSpeed value mapping) w)
    as [_ Hm]. cbv zeta in Hm.
  unfold nrpnIncrement, nrpnDecrement, processMotion. rewrite Hm, Hmap, Hzoom.
  repeat split. apply opposite_zoom_motions.
Qed.

End ZoomTurns.

(** An increment and a decrement of magnitude 5 on the fast zoom encoder,
    from a zoom of 10. *)
Lemma zoom_increment_then_decrement_witness :
  let w := load defaultConfig (hostWithZoom (JS.of_Z 10)) in
  let mapping := {| type := zoom; deck := "[Channel1]"; speed := JS.lit_1 |} in
  encoderMappings w !! (JS.band 0xB0 0x0F + 1) = Some mapping /\
  type mapping = zoom /\
  exists w1 w2,
    nrpnIncrement 0xB0 5 0 w = Some w1 /\
    nrpnDecrement 0xB0 5 0 w1 = Some w2 /\
    engine_getValue "[Channel1]" "waveform_zoom" w2 =
      zoomStep (JS.neg (JS.neg JS.lit_1)) (JS.of_Z 5)
        (zoomStep (JS.neg JS.lit_1) (JS.of_Z 5) (JS.of_Z 10)).
Proof.
  split; [reflexivity|]. split; [reflexivity|].
  exact (zoom_increment_then_decrement
           (load defaultConfig (hostWithZoom (JS.of_Z 10))) 0xB0 5 0 0
           {| type := zoom; deck := "[Channel1]"; speed := JS.lit_1 |}
           eq_refl eq_refl).
Defined.

(** C3, as stated, fails: from a zoom of 10, strictly inside the bounds 1
    and 100, an increment and a decrement of magnitude 1 on the fast zoom
    encoder leave the zoom at 9.975 (10 to 9.5, then 9.5 * 1.05). *)
Lemma zoom_round_trip_loses :
  let w := load defaultConfig (hostWithZoom (JS.of_Z 10)) in
  HARDWARE.MIN_ZOOM <! JS.of_Z 10 = true /\ JS.of_Z 10 <! HARDWARE.MAX_ZOOM = true /\
  (w1 ← nrpnIncrement 0xB0 1 0 w; w2 ← nrpnDecrement 0xB0 1 0 w1;
   Some (engine_getValue "[Channel1]" "waveform_zoom" w2))
  = Some (S754_finite false 5615425785377587 (-49)) /\
  S754_finite false 5615425785377587 (-49) <> JS.of_Z 10 /\
  S754_finite false 5615425785377587 (-49) <! JS.of_Z 10 = true.
Proof. vm_compute. repeat split; try reflexivity. discriminate. Qed.

(** * Beat jumps at the track boundaries *)

Lemma ge_is_le (a b : JS.number) : a >=! b = (b <=! a).
Proof. reflexivity. Qed.

Lemma gt_is_lt (a b : JS.number) : a >! b = (b <! a).
Proof. reflexivity. Qed.

Section BeatJump.

Variable deck : string.
Variables direction speed : JS.number.
Variable now : Z.
Variable w : World.

Let rate := fst (trackBeatjumpRate deck now (beatjumpRate (state w))).
Let beatSize := beatSizeOf deck rate.
Let pos := engine_getValue deck "playposition" w.
Let dur := engine_getValue deck "duration" w.
Let bpm := engine_getValue deck "bpm" w.
Let newTime := jumpNewTime pos dur bpm beatSize direction.
Let w' := handleBeatJump deck direction speed now w.

(** [handleBeatJump] with the rate tracking and the host reads named. *)
Lemma handleBeatJump_unfold :
  w' =
  let w0 := withBeatjumpRate rate w in
  if (bpm >! JS.lit_0) && (dur >! JS.lit_0) then
    if (newTime >=! JS.lit_0) && (newTime <=! dur) then
      emitBeatjump deck direction beatSize w0
    else if newTime <! JS.lit_0 then engine_setValue deck "playposition" JS.lit_0 w0
    else engine_setValue deck "playposition" JS.lit_0_999 w0
  else emitBeatjump deck direction beatSize w0.
Proof.
  unfold w', handleBeatJump, newTime, beatSize, rate, bpm, dur, pos.
  destruct (trackBeatjumpRate deck now (beatjumpRate (state w))) as [r dt].
  reflexivity.
Qed.



(** C9: with BPM and duration both positive, a jump that would land after
    the end of the track sets [playposition] to exactly 0.999, which is
    below 1, and one that would land before the start sets it to exactly
    0; in both cases that write is the only effect, so neither
    [beatjump_size] nor a jump trigger is written. *)
Theorem beatjump_overshoot_sets_playposition :
  (bpm >! JS.lit_0 = true -> dur >! JS.lit_0 = true -> newTime >! dur = true ->
   output w' = output w ++ [setValue deck "playposition" JS.lit_0_999]
   /\ engine_getValue deck "playposition" w' = JS.lit_0_999
   /\ filter writesBeatjump (drop (length (output w)) (output w')) = [])
  /\ (bpm >! JS.lit_0 = true -> dur >! JS.lit_0 = true -> newTime <! JS.lit_0 = true ->
      output w' = output w ++ [setValue deck "playposition" JS.lit_0]
      /\ engine_getValue deck "playposition" w' = JS.lit_0
      /\ filter writesBeatjump (drop (length (output w)) (output w')) = [])
  /\ JS.lit_0_999 <! JS.of_Z 1 = true.
Proof.
  rewrite handleBeatJump_unfold. cbv zeta. split; [|split; [|reflexivity]].
  - intros Hb Hd Hhigh. rewrite Hb, Hd. cbn [andb].
    rewrite gt_is_lt in Hhigh, Hd. rewrite (lt_not_ge _ _ Hhigh), andb_false_r.
    rewrite (lt_asym _ _ (lt_trans _ _ _ Hd Hhigh)).
    split; [reflexivity|]. split.
    + unfold engine_getValue. cbn [controls engine_setValue].
      rewrite ?String.eqb_refl. reflexivity.
    + cbn [output engine_setValue withBeatjumpRate withState].
      rewrite drop_app_length. reflexivity.
  - intros Hb Hd Hlow. rewrite Hb, Hd. cbn [andb].
    rewrite ge_is_le, (lt_not_ge _ _ Hlow), Hlow. cbn [andb].
    split; [reflexivity|]. split.
    + unfold engine_getValue. cbn [controls engine_setValue].
      rewrite ?String.eqb_refl. reflexivity.
    + cbn [output engine_setValue withBeatjumpRate withState].
      rewrite drop_app_length. reflexivity.
Qed.

End BeatJump.


(** First ticks on the same track: forward from position 0.999, which
    would land 0.8 s after the end, and backward from the start, which
    would land 1 s before it. *)
Lemma beatjump_overshoot_sets_playposition_witness :
  let atEnd := load defaultConfig (hostWithTrack JS.lit_0_999 (JS.of_Z 200) (JS.of_Z 120)) in
  let atStart := load defaultConfig (hostWithTrack JS.lit_0 (JS.of_Z 200) (JS.of_Z 120)) in
  let back := JS.neg JS.lit_1 in
  let afterEnd := handleBeatJump "[Channel1]" JS.lit_1 JS.lit_1 1000 atEnd in
  let beforeStart := handleBeatJump "[Channel1]" back JS.lit_1 1000 atStart in
  (JS.of_Z 120 >! JS.lit_0 = true /\ JS.of_Z 200 >! JS.lit_0 = true /\
   jumpNewTime JS.lit_0_999 (JS.of_Z 200) (JS.of_Z 120) JS.lit_2 JS.lit_1 >! JS.of_Z 200
     = true /\
   output afterEnd = output atEnd ++ [setValue "[Channel1]" "playposition" JS.lit_0_999] /\
   engine_getValue "[Channel1]" "playposition" afterEnd = JS.lit_0_999 /\
   filter writesBeatjump (drop (length (output atEnd)) (output afterEnd)) = [])
  /\ (jumpNewTime JS.lit_0 (JS.of_Z 200) (JS.of_Z 120) JS.lit_2 back <! JS.lit_0 = true /\
      output beforeStart = output atStart ++ [setValue "[Channel1]" "playposition" JS.lit_0] /\
      engine_getValue "[Channel1]" "playposition" beforeStart = JS.lit_0 /\
      filter writesBeatjump (drop (length (output atStart)) (output beforeStart)) = []).
Proof.
  cbv zeta. split.
  - do 3 (split; [reflexivity|]).
    exact (proj1 (beatjump_overshoot_sets_playposition "[Channel1]" JS.lit_1 JS.lit_1 1000
                    (load defaultConfig
                       (hostWithTrack JS.lit_0_999 (JS.of_Z 200) (JS.of_Z 120))))
                 eq_refl eq_refl eq_refl).
  - split; [reflexivity|].
    exact (proj1 (proj2 (beatjump_overshoot_sets_playposition "[Channel1]"
                           (JS.neg JS.lit_1) JS.lit_1 1000
                           (load defaultConfig
                              (hostWithTrack JS.lit_0 (JS.of_Z 200) (JS.of_Z 120)))))
                 eq_refl eq_refl eq_refl).
Defined.

(** * Motion dispatch and the NRPN parameter *)

Section DispatchIgnoresSelection.

Variable p : gmap Z NrpnEntry.

Ltac crush_frame :=
  repeat (cbv beta iota zeta delta
            [config padLayout encoderMappings state controls nextTimer output
             nrpnParams zoomFeedback superknobFeedback beatjumpRate
             active feedbackDeck timer lastShown currentPadStates
             NOTES GRID fst snd];
          match goal with
          | |- context [let '(_, _) := ?x in _] => destruct x
          | |- context [if ?b then _ else _] => destruct b
          | |- context [match ?x with Some _ => _ | None => _ end] => destruct x
          end);
  try reflexivity.

Lemma showZoomFeedback_nrpn deck z w :
  showZoomFeedback deck z (withNrpnParams p w) =
  withNrpnParams p (showZoomFeedback deck z w).
Proof.
  destruct w as [cfg pl em [np [a d [t|] l c] sf br] ctl nt out];
    [destruct (t =? 0) eqn:Et|];
  unfold showZoomFeedback, stopFeedbackTimer, withNrpnParams, withZoomFeedback,
    withState, engine_beginTimer, engine_stopTimer, emit, allPadsOff,
    getBottomLeftToTopRightOrder, zoomFeedbackTimeout; cbn; rewrite ?Et;
  crush_frame.
Qed.

Lemma showSuperknobFeedback_nrpn deck v w :
  showSuperknobFeedback deck v (withNrpnParams p w) =
  withNrpnParams p (showSuperknobFeedback deck v w).
Proof.
  destruct w as [cfg pl em [np zf [a d [t|] l c] br] ctl nt out];
    [destruct (t =? 0) eqn:Et|];
  unfold showSuperknobFeedback, stopFeedbackTimer, withNrpnParams, withSuperknobFeedback,
    withState, engine_beginTimer, engine_stopTimer, emit, allPadsOff,
    getBottomLeftToTopRightOrder, getTopRightToBottomLeftOrder; cbn; rewrite ?Et;
  crush_frame.
Qed.

Lemma engine_setValue_nrpn g k v w :
  engine_setValue g k v (withNrpnParams p w) = withNrpnParams p (engine_setValue g k v w).
Proof. reflexivity. Qed.

Lemma actionHandler_nrpn t deck direction speed now w :
  actionHandler t deck direction speed now (withNrpnParams p w) =
  withNrpnParams p <$> actionHandler t deck direction speed now w.
Proof.
  destruct t; cbn [actionHandler fmap option_fmap option_map].
  - f_equal. unfold handleZoom.
    change (engine_getValue deck "waveform_zoom" (withNrpnParams p w))
      with (engine_getValue deck "waveform_zoom" w).
    change (config (withNrpnParams p w)) with (config w).
    rewrite engine_setValue_nrpn.
    change (config (withNrpnParams p ?x)) with (config x).
    destruct (zoomFeedbackEnabled _); [apply showZoomFeedback_nrpn | reflexivity].
  - reflexivity.
  - reflexivity.
  - f_equal. unfold handleBeatJump.
    change (beatjumpRate (state (withNrpnParams p w))) with (beatjumpRate (state w)).
    destruct (trackBeatjumpRate _ _ _) as [r dt].
    change (engine_getValue ?d ?k (withBeatjumpRate r (withNrpnParams p w)))
      with (engine_getValue d k (withBeatjumpRate r w)).
    crush_frame.
  - unfold handleSuperknob. destruct (hasDigit deck); [|reflexivity].
    cbn [fmap option_fmap option_map]. f_equal.
    change (engine_getValue ?d ?k (withNrpnParams p w)) with (engine_getValue d k w).
    rewrite engine_setValue_nrpn. apply showSuperknobFeedback_nrpn.
Qed.

Ltac crush_output :=
  repeat (cbv beta iota zeta delta
            [config padLayout encoderMappings state controls nextTimer output
             nrpnParams zoomFeedback superknobFeedback beatjumpRate
             active feedbackDeck timer lastShown currentPadStates
             NOTES GRID fst snd];
          match goal with
          | |- context [let '(_, _) := ?x in _] => destruct x
          | |- context [if ?b then _ else _] => destruct b
          | |- context [match ?x with Some _ => _ | None => _ end] => destruct x
          end);
  cbn; rewrite <- ?app_assoc; eauto.

Lemma showZoomFeedback_output deck z w :
  exists es, output (showZoomFeedback deck z w) = output w ++ es.
Proof.
  destruct w as [cfg pl em [np [a d [t|] l c] sf br] ctl nt out];
    [destruct (t =? 0) eqn:Et|];
  unfold showZoomFeedback, stopFeedbackTimer, withNrpnParams, withZoomFeedback,
    withState, engine_beginTimer, engine_stopTimer, emit, allPadsOff,
    getBottomLeftToTopRightOrder, zoomFeedbackTimeout; cbn; rewrite ?Et;
  crush_output.
Qed.

Lemma showSuperknobFeedback_output deck v w :
  exists es, output (showSuperknobFeedback deck v w) = output w ++ es.
Proof.
  destruct w as [cfg pl em [np zf [a d [t|] l c] br] ctl nt out];
    [destruct (t =? 0) eqn:Et|];
  unfold showSuperknobFeedback, stopFeedbackTimer, withNrpnParams, withSuperknobFeedback,
    withState, engine_beginTimer, engine_stopTimer, emit, allPadsOff,
    getBottomLeftToTopRightOrder, getTopRightToBottomLeftOrder; cbn; rewrite ?Et;
  crush_output.
Qed.

(** Every action handler asks something of the host. *)
Lemma actionHandler_acts t deck direction speed now w w' :
  actionHandler t deck direction speed now w = Some w' ->
  exists e es, output w' = output w ++ e :: es.
Proof.
  destruct t; cbn [actionHandler].
  - intros [= <-]. unfold handleZoom.
    destruct (zoomFeedbackEnabled _).
    + match goal with |- context [showZoomFeedback ?d ?z ?v] =>
        destruct (showZoomFeedback_output d z v) as [es ->] end.
      cbn [output engine_setValue]. rewrite <- app_assoc. eauto.
    + cbn [output engine_setValue]. eauto.
  - intros [= <-]. unfold handleBeatgrid. cbn [output engine_setValue]. eauto.
  - intros [= <-]. unfold handleJogwheel. cbn [output engine_setValue]. eauto.
  - intros [= <-]. unfold handleBeatJump, emitBeatjump.
    destruct (trackBeatjumpRate _ _ _) as [r dt].
    repeat match goal with |- context [if ?b then _ else _] => destruct b end;
      cbn [output engine_setValue withBeatjumpRate withState];
      rewrite <- ?app_assoc; eauto.
  - unfold handleSuperknob. destruct (hasDigit deck); [|discriminate].
    intros [= <-].
    match goal with |- context [showSuperknobFeedback ?d ?z ?v] =>
      destruct (showSuperknobFeedback_output d z v) as [es ->] end.
    cbn [output engine_setValue]. rewrite <- app_assoc. eauto.
Qed.

End DispatchIgnoresSelection.

(** The parameter-select handlers touch nothing but the NRPN table. *)
Lemma nrpnMSB_only_nrpn status value w :
  nrpnMSB status value w = withNrpnParams (nrpnParams (state (nrpnMSB status value w))) w.
Proof. reflexivity. Qed.

Lemma nrpnLSB_only_nrpn status value w :
  nrpnLSB status value w = withNrpnParams (nrpnParams (state (nrpnLSB status value w))) w.
Proof.
  unfold nrpnLSB. cbn [msb]. destruct (msb _); reflexivity.
Qed.

(** C6: a CC 96 or CC 97 arriving on a channel that has an encoder mapping
    is handed to the mapped action, the handler acts on the host, and the
    outcome does not depend on the NRPN parameter table: not on whether a
    parameter is selected for the channel, and in particular not on a
    (127,127) pair received just before. *)
Theorem motion_dispatched_without_selected_parameter (w : World) (increment : bool)
    (status value now : Z) (mapping : Mapping) :
  encoderMappings w !! (JS.band status 0x0F + 1) = Some mapping ->
  let dispatched :=
    actionHandler (type mapping) (deck mapping) (motionDirection increment)
                  (motionSpeed value mapping) now w in
  motionMessage increment status value now w = dispatched
  /\ (forall p : gmap Z NrpnEntry,
        motionMessage increment status value now (withNrpnParams p w) =
        withNrpnParams p <$> dispatched)
  /\ (let reset := nrpnLSB status 127 (nrpnMSB status 127 w) in
      motionMessage increment status value now reset =
      withNrpnParams (nrpnParams (state reset)) <$> dispatched)
  /\ (forall w', dispatched = Some w' -> exists e es, output w' = output w ++ e :: es).
Proof.
  intros Hmap dispatched.
  assert (Hany : forall p, motionMessage increment status value now (withNrpnParams p w) =
                           withNrpnParams p <$> dispatched).
  { intros p. unfold motionMessage, nrpnIncrement, nrpnDecrement, processMotion.
    change (encoderMappings (withNrpnParams p w)) with (encoderMappings w).
    destruct increment; rewrite Hmap; fold (motionSpeed value mapping);
      exact (actionHandler_nrpn p (type mapping) (deck mapping) _ _ now w). }
  split; [|split; [exact Hany|split]].
  - unfold motionMessage, nrpnIncrement, nrpnDecrement, processMotion.
    destruct increment; rewrite Hmap; reflexivity.
  - cbv zeta. rewrite nrpnLSB_only_nrpn at 1.
    change (withNrpnParams ?q (nrpnMSB status 127 w)) with (withNrpnParams q w).
    apply Hany.
  - intros w'. apply actionHandler_acts.
Qed.

(** An increment of magnitude 1 on MIDI channel 5 of the fresh script,
    whose encoder drives the filter of deck 2. *)
Lemma motion_dispatched_without_selected_parameter_witness :
  let mapping := {| type := superknob; deck := "[Channel2]"; speed := JS.lit_4 |} in
  let reset := nrpnLSB 0xB4 127 (nrpnMSB 0xB4 127 freshWorld) in
  encoderMappings freshWorld !! (JS.band 0xB4 0x0F + 1) = Some mapping /\
  motionMessage true 0xB4 1 1000 reset =
  withNrpnParams (nrpnParams (state reset)) <$>
    actionHandler superknob "[Channel2]" JS.lit_1 (motionSpeed 1 mapping) 1000 freshWorld.
Proof.
  cbv zeta. split; [reflexivity|].
  exact (proj1 (proj2 (proj2
    (motion_dispatched_without_selected_parameter freshWorld true 0xB4 1 1000
       {| type := superknob; deck := "[Channel2]"; speed := JS.lit_4 |} eq_refl)))).
Defined.

(** * The differential LED update *)

Section DifferentialUpdate.

Implicit Types target cur : gmap Z bool.

Lemma Object_keys_perm (o : gmap Z bool) : Object_keys o ≡ₚ (map_to_list o).*1.
Proof. apply merge_sort_Permutation. Qed.

Lemma NoDup_Object_keys (o : gmap Z bool) : NoDup (Object_keys o).
Proof. rewrite Object_keys_perm. apply NoDup_fst_map_to_list. Qed.

Lemma elem_of_Object_keys (o : gmap Z bool) k : k ∈ Object_keys o <-> is_Some (o !! k).
Proof.
  rewrite Object_keys_perm, list_elem_of_fmap. split.
  - intros ([k' b] & -> & H). apply elem_of_map_to_list in H. eauto.
  - intros [b H]. exists (k, b). split; [reflexivity|]. now apply elem_of_map_to_list.
Qed.

Lemma truthyAt_delete cur k j : k <> j -> truthyAt (delete k cur) j = truthyAt cur j.
Proof. intros H. unfold truthyAt. now rewrite lookup_delete_ne. Qed.

Lemma truthyAt_insert cur k j : k <> j -> truthyAt (<[k := true]> cur) j = truthyAt cur j.
Proof. intros H. unfold truthyAt. now rewrite lookup_insert_ne. Qed.

(** The first loop sends one "off" for each key that is lit and not
    wanted, judged on the pad states it started from, and deletes those
    keys only. *)
Lemma turnOffStale_spec target keys : forall cur out,
  NoDup keys ->
  let stale := List.filter (fun n => truthyAt cur n && negb (truthyAt target n)) keys in
  snd (turnOffStale target keys cur out) = out ++ flat_map (fun n => setPadLED n false) stale
  /\ forall k, fst (turnOffStale target keys cur out) !! k =
               if decide (k ∈ stale) then None else cur !! k.
Proof.
  induction keys as [|note rest IH]; intros cur out Hnd; cbn zeta.
  - cbn. rewrite app_nil_r. split; [reflexivity|]. intros k.
    rewrite decide_False; [reflexivity|]. apply not_elem_of_nil.
  - apply NoDup_cons in Hnd as [Hnotin Hnd].
    assert (Hext : forall cur', (forall j, j <> note -> truthyAt cur' j = truthyAt cur j) ->
              List.filter (fun n => truthyAt cur' n && negb (truthyAt target n)) rest =
              List.filter (fun n => truthyAt cur n && negb (truthyAt target n)) rest).
    { intros cur' H. apply filter_ext_in. intros j Hj. rewrite H; [reflexivity|].
      intros ->. apply Hnotin. now apply list_elem_of_In. }
    cbn [turnOffStale List.filter].
    destruct (truthyAt cur note && negb (truthyAt target note)) eqn:E.
    + destruct (IH (delete note cur) (out ++ setPadLED note false) Hnd) as [IH1 IH2].
      cbv zeta in IH1, IH2.
      rewrite Hext in IH1, IH2 by (intros j Hj; apply truthyAt_delete; congruence).
      split.
      * rewrite IH1. cbn [flat_map]. now rewrite <- !app_assoc.
      * intros k. rewrite IH2. destruct (decide (k = note)) as [->|Hne].
        -- rewrite lookup_delete_eq.
           rewrite (decide_True (P := note ∈ note :: _)) by apply list_elem_of_here.
           now destruct (decide _).
        -- rewrite lookup_delete_ne by congruence.
           destruct (decide (k ∈ _)) as [Hin|Hin].
           ++ rewrite decide_True; [reflexivity|]. now apply list_elem_of_further.
           ++ rewrite decide_False; [reflexivity|].
              intros [?|?]%elem_of_cons; contradiction.
    + destruct (IH cur out Hnd) as [IH1 IH2]. cbv zeta in IH1, IH2. split; assumption.
Qed.

(** The second loop sends one "on" for each key that is not lit yet and
    records it as lit. *)
Lemma turnOnNew_spec keys : forall cur out,
  NoDup keys ->
  let fresh := List.filter (fun n => negb (truthyAt cur n)) keys in
  snd (turnOnNew keys cur out) = out ++ flat_map (fun n => setPadLED n true) fresh
  /\ forall k, fst (turnOnNew keys cur out) !! k =
               if decide (k ∈ fresh) then Some true else cur !! k.
Proof.
  induction keys as [|note rest IH]; intros cur out Hnd; cbn zeta.
  - cbn. rewrite app_nil_r. split; [reflexivity|]. intros k.
    rewrite decide_False; [reflexivity|]. apply not_elem_of_nil.
  - apply NoDup_cons in Hnd as [Hnotin Hnd].
    assert (Hext : forall cur', (forall j, j <> note -> truthyAt cur' j = truthyAt cur j) ->
              List.filter (fun n => negb (truthyAt cur' n)) rest =
              List.filter (fun n => negb (truthyAt cur n)) rest).
    { intros cur' H. apply filter_ext_in. intros j Hj. rewrite H; [reflexivity|].
      intros ->. apply Hnotin. now apply list_elem_of_In. }
    cbn [turnOnNew List.filter].
    destruct (negb (truthyAt cur note)) eqn:E.
    + destruct (IH (<[note := true]> cur) (out ++ setPadLED note true) Hnd) as [IH1 IH2].
      cbv zeta in IH1, IH2.
      rewrite Hext in IH1, IH2 by (intros j Hj; apply truthyAt_insert; congruence).
      split.
      * rewrite IH1. cbn [flat_map]. now rewrite <- !app_assoc.
      * intros k. rewrite IH2. destruct (decide (k = note)) as [->|Hne].
        -- rewrite lookup_insert_eq.
           rewrite (decide_True (P := note ∈ note :: _)) by apply list_elem_of_here.
           now destruct (decide _).
        -- rewrite lookup_insert_ne by congruence.
           destruct (decide (k ∈ _)) as [Hin|Hin].
           ++ rewrite decide_True; [reflexivity|]. now apply list_elem_of_further.
           ++ rewrite decide_False; [reflexivity|].
              intros [?|?]%elem_of_cons; contradiction.
    + destruct (IH cur out Hnd) as [IH1 IH2]. cbv zeta in IH1, IH2. split; assumption.
Qed.

Lemma truthyAt_true (o : gmap Z bool) k : truthyAt o k = true <-> o !! k = Some true.
Proof.
  unfold truthyAt. destruct (o !! k) as [[]|]; split; congruence.
Qed.

Lemma allLit_truthy (o : gmap Z bool) k :
  allLit o -> is_Some (o !! k) -> truthyAt o k = true.
Proof.
  intros Hlit [b Hb]. apply truthyAt_true. now rewrite Hb, (Hlit k b Hb).
Qed.

Lemma elem_of_stalePads target cur k :
  k ∈ stalePads target cur <-> truthyAt cur k = true /\ truthyAt target k = false.
Proof.
  unfold stalePads. rewrite list_elem_of_In, filter_In, <- list_elem_of_In.
  rewrite elem_of_Object_keys, andb_true_iff, negb_true_iff. split; [tauto|].
  intros [H1 H2]. split; [|tauto]. apply truthyAt_true in H1. eauto.
Qed.

Lemma elem_of_freshPads target cur k :
  allLit target ->
  k ∈ freshPads target cur <-> truthyAt target k = true /\ truthyAt cur k = false.
Proof.
  intros Hlit. unfold freshPads. rewrite list_elem_of_In, filter_In, <- list_elem_of_In.
  rewrite elem_of_Object_keys, negb_true_iff. split.
  - intros [H1 H2]. split; [now apply allLit_truthy | assumption].
  - intros [H1 H2]. split; [|assumption]. apply truthyAt_true in H1. eauto.
Qed.

(** The differential update as a whole: the "off" messages for the stale
    pads, then the "on" messages for the fresh pads, and pad states that
    drop the former and add the latter. *)
Lemma differentialUpdate_spec target cur :
  allLit target ->
  snd (differentialUpdate target cur) =
    flat_map (fun n => setPadLED n false) (stalePads target cur) ++
    flat_map (fun n => setPadLED n true) (freshPads target cur)
  /\ forall k, fst (differentialUpdate target cur) !! k =
               if decide (k ∈ freshPads target cur) then Some true
               else if decide (k ∈ stalePads target cur) then None
               else cur !! k.
Proof.
  intros Hlit. unfold differentialUpdate.
  destruct (turnOffStale_spec target (Object_keys cur) cur [] (NoDup_Object_keys cur))
    as [Hoff Hmap]. cbv zeta in Hoff, Hmap. fold (stalePads target cur) in Hoff, Hmap.
  destruct (turnOffStale target (Object_keys cur) cur []) as [afterOff offs].
  cbn [fst snd] in Hoff, Hmap. subst offs.
  destruct (turnOnNew_spec (Object_keys target) afterOff
              ([] ++ flat_map (fun n => setPadLED n false) (stalePads target cur))
              (NoDup_Object_keys target)) as [Hon Hmap'].
  cbv zeta in Hon, Hmap'.
  assert (Hsame : List.filter (fun n => negb (truthyAt afterOff n)) (Object_keys target)
                  = freshPads target cur).
  { apply filter_ext_in. intros k Hk. f_equal. unfold truthyAt at 1. rewrite Hmap.
    destruct (decide (k ∈ stalePads target cur)) as [Hin|]; [|reflexivity].
    apply elem_of_stalePads in Hin as [_ Hin].
    apply list_elem_of_In, elem_of_Object_keys in Hk.
    rewrite (allLit_truthy _ _ Hlit Hk) in Hin. discriminate. }
  rewrite Hsame in Hon, Hmap'. split; [exact Hon|].
  intros k. rewrite Hmap', Hmap. reflexivity.
Qed.

(** When every recorded pad is lit, the update leaves exactly the target
    set recorded. *)
Lemma differentialUpdate_result target cur :
  allLit target -> allLit cur -> fst (differentialUpdate target cur) = target.
Proof.
  intros Ht Hc. apply map_eq. intros k.
  rewrite (proj2 (differentialUpdate_spec target cur Ht)).
  destruct (decide (k ∈ freshPads target cur)) as [Hf|Hf].
  - apply (elem_of_freshPads _ _ _ Ht) in Hf as [Hf _]. now apply truthyAt_true in Hf.
  - destruct (decide (k ∈ stalePads target cur)) as [Hs|Hs].
    + apply elem_of_stalePads in Hs as [_ Hs].
      destruct (target !! k) as [b|] eqn:E; [|reflexivity].
      rewrite (allLit_truthy target k Ht) in Hs by eauto. discriminate.
    + rewrite elem_of_stalePads in Hs. rewrite (elem_of_freshPads _ _ _ Ht) in Hf.
      destruct (cur !! k) as [b|] eqn:Ec, (target !! k) as [b'|] eqn:Et.
      * now rewrite (Hc k b Ec), (Ht k b' Et).
      * exfalso. apply Hs. split; [apply allLit_truthy; eauto|].
        unfold truthyAt. now rewrite Et.
      * exfalso. apply Hf. split; [apply allLit_truthy; eauto|].
        unfold truthyAt. now rewrite Ec.
      * reflexivity.
Qed.

Lemma ledMessages_setPadLED (f : Z -> bool) (l : list Z) :
  List.filter isLedMessage (flat_map (fun n => setPadLED n (f n)) l) =
  flat_map (fun n => setPadLED n (f n)) l.
Proof.
  induction l as [|n l IH]; [reflexivity|]. cbn [flat_map].
  rewrite List.filter_app, IH. f_equal. unfold setPadLED. now destruct (f n).
Qed.

End DifferentialUpdate.

Section FeedbackSessions.

Lemma allLit_empty : allLit ∅.
Proof. intros k b H. now rewrite lookup_empty in H. Qed.

Lemma allLit_insert (o : gmap Z bool) k : allLit o -> allLit (<[k := true]> o).
Proof.
  intros H j b. rewrite lookup_insert. destruct (decide (k = j)); [congruence|apply H].
Qed.

Lemma allLit_zoomTargetPadStates c pads : forall i acc,
  allLit acc -> allLit (zoomTargetPadStates c i pads acc).
Proof.
  induction pads as [|pad rest IH]; intros i acc H; cbn [zoomTargetPadStates]; [assumption|].
  destruct (JS.of_Z i <=! c); [|assumption]. apply IH. now apply allLit_insert.
Qed.

Lemma allLit_superknobTargetPadStates c pads : forall i acc,
  allLit acc -> allLit (superknobTargetPadStates c i pads acc).
Proof.
  induction pads as [|pad rest IH]; intros i acc H; cbn [superknobTargetPadStates];
    [assumption|].
  destruct (JS.of_Z i <! c); [|assumption]. apply IH. now apply allLit_insert.
Qed.

Lemma allLit_zoomTarget z w : allLit (zoomTarget z w).
Proof. apply allLit_zoomTargetPadStates, allLit_empty. Qed.

Lemma allLit_superknobTarget v w : allLit (superknobTarget v w).
Proof. apply allLit_superknobTargetPadStates, allLit_empty. Qed.

(** What [showZoomFeedback] does when the level, the deck or the activity
    of the session has changed. *)
Lemma showZoomFeedback_update deck z w :
  unchangedZoom deck z w = false ->
  let fb := zoomFeedback (state w) in
  let upd := differentialUpdate (zoomTarget z w) (currentPadStates fb) in
  output (showZoomFeedback deck z w) =
    output w
    ++ match timer fb with
       | Some id => if id =? 0 then [] else [stopTimer id]
       | None => []
       end
    ++ (if decide (Object_keys (currentPadStates fb) = []) then allPadsOff w else [])
    ++ snd upd
    ++ [beginTimer (nextTimer w) (zoomFeedbackTimeout w) endZoomFeedback]
  /\ zoomFeedback (state (showZoomFeedback deck z w)) =
     {| active := true; feedbackDeck := Some deck; timer := Some (nextTimer w);
        lastShown := Some (zoomClampedSteps z); currentPadStates := fst upd |}
  /\ padLayout (showZoomFeedback deck z w) = padLayout w.
Proof.
  unfold unchangedZoom. intros Hchanged. cbv zeta.
  unfold showZoomFeedback. rewrite Hchanged. fold (zoomTarget z w).
  destruct w as [cfg pl em [np [a d [t|] l c] sf br] ctl nt out];
    [destruct (t =? 0) eqn:Et|];
    unfold zoomTarget, stopFeedbackTimer, withZoomFeedback, withState, engine_beginTimer,
      engine_stopTimer, emit, allPadsOff, getBottomLeftToTopRightOrder, zoomFeedbackTimeout;
    cbn [timer currentPadStates zoomFeedback state output nextTimer padLayout config
         controls encoderMappings];
    rewrite ?Et;
    cbn [timer currentPadStates zoomFeedback state output nextTimer padLayout config
         controls encoderMappings];
    destruct (differentialUpdate _ c) as [cur' leds];
    destruct (decide (Object_keys c = []));
    cbn [timer currentPadStates zoomFeedback state output nextTimer padLayout config
         controls encoderMappings fst snd];
    rewrite <- ?app_assoc; repeat split; reflexivity.
Qed.

Lemma showSuperknobFeedback_update deck v w :
  unchangedSuperknob deck v w = false ->
  let fb := superknobFeedback (state w) in
  let upd := differentialUpdate (superknobTarget v w) (currentPadStates fb) in
  output (showSuperknobFeedback deck v w) =
    output w
    ++ match timer fb with
       | Some id => if id =? 0 then [] else [stopTimer id]
       | None => []
       end
    ++ (if decide (Object_keys (currentPadStates fb) = []) then allPadsOff w else [])
    ++ snd upd
    ++ [beginTimer (nextTimer w) HARDWARE.ZOOM_FEEDBACK_DURATION endSuperknobFeedback]
  /\ superknobFeedback (state (showSuperknobFeedback deck v w)) =
     {| active := true; feedbackDeck := Some deck; timer := Some (nextTimer w);
        lastShown := Some v; currentPadStates := fst upd |}.
Proof.
  unfold unchangedSuperknob. intros Hchanged. cbv zeta.
  unfold showSuperknobFeedback. rewrite Hchanged.
  destruct w as [cfg pl em [np zf [a d [t|] l c] br] ctl nt out];
    [destruct (t =? 0) eqn:Et|];
    unfold superknobTarget, stopFeedbackTimer, withSuperknobFeedback, withState,
      engine_beginTimer, engine_stopTimer, emit, allPadsOff,
      getBottomLeftToTopRightOrder, getTopRightToBottomLeftOrder;
    cbn [timer currentPadStates superknobFeedback state output nextTimer padLayout config
         controls encoderMappings];
    rewrite ?Et;
    cbn [timer currentPadStates superknobFeedback state output nextTimer padLayout config
         controls encoderMappings];
    destruct (v <! JS.lit_0_5);
    destruct (differentialUpdate _ c) as [cur' leds];
    destruct (decide (Object_keys c = []));
    cbn [timer currentPadStates superknobFeedback state output nextTimer padLayout config
         controls encoderMappings fst snd];
    rewrite <- ?app_assoc; repeat split; reflexivity.
Qed.

Lemma ledMessagesSince_update (w w' : World) (stops leds : list Effect) (id ms : Z)
    (cb : Callback) :
  output w' = output w ++ stops ++ [] ++ leds ++ [beginTimer id ms cb] ->
  List.filter isLedMessage stops = [] ->
  List.filter isLedMessage leds = leds ->
  ledMessagesSince w w' = leds.
Proof.
  intros Hout Hstops Hleds. unfold ledMessagesSince.
  rewrite Hout, drop_app_length, !List.filter_app, Hstops, Hleds. cbn.
  now rewrite app_nil_r.
Qed.

End FeedbackSessions.

Lemma ledMessages_of_update target cur :
  allLit target ->
  List.filter isLedMessage (snd (differentialUpdate target cur)) =
  snd (differentialUpdate target cur).
Proof.
  intros Hlit. rewrite (proj1 (differentialUpdate_spec target cur Hlit)).
  rewrite List.filter_app.
  rewrite (ledMessages_setPadLED (fun _ => false)), (ledMessages_setPadLED (fun _ => true)).
  reflexivity.
Qed.

Lemma no_ledMessages_in_stop (t : option Z) :
  List.filter isLedMessage
    match t with Some id => if id =? 0 then [] else [stopTimer id] | None => [] end = [].
Proof. destruct t as [id|]; [destruct (id =? 0)|]; reflexivity. Qed.

(** The differential update on its own sends "off" for exactly the pads
    of the old lit set that are absent from the new target set, each once,
    and then "on" for exactly the pads of the target set that the old lit
    set lacks, each once.  In a zoom or superknob session that has pads
    lit, a [show] with a changed value sends these LED messages and no
    others; what a session without pads does is shown at the end of this
    file. *)
Lemma differential_update_sends_only_changes (target cur : gmap Z bool)
    (deck : string) (value : JS.number) (w : World) :
  (allLit target ->
   snd (differentialUpdate target cur) =
     flat_map (fun n => setPadLED n false) (stalePads target cur) ++
     flat_map (fun n => setPadLED n true) (freshPads target cur)
   /\ (forall n, n ∈ stalePads target cur <->
                 truthyAt cur n = true /\ truthyAt target n = false)
   /\ (forall n, n ∈ freshPads target cur <->
                 truthyAt target n = true /\ truthyAt cur n = false)
   /\ NoDup (stalePads target cur) /\ NoDup (freshPads target cur))
  /\ (let lit := currentPadStates (zoomFeedback (state w)) in
      unchangedZoom deck value w = false -> Object_keys lit <> [] ->
      ledMessagesSince w (showZoomFeedback deck value w) =
        flat_map (fun n => setPadLED n false) (stalePads (zoomTarget value w) lit) ++
        flat_map (fun n => setPadLED n true) (freshPads (zoomTarget value w) lit))
  /\ (let lit := currentPadStates (superknobFeedback (state w)) in
      unchangedSuperknob deck value w = false -> Object_keys lit <> [] ->
      ledMessagesSince w (showSuperknobFeedback deck value w) =
        flat_map (fun n => setPadLED n false) (stalePads (superknobTarget value w) lit) ++
        flat_map (fun n => setPadLED n true) (freshPads (superknobTarget value w) lit)).
Proof.
  split; [|split].
  - intros Hlit. split; [apply (differentialUpdate_spec target cur Hlit)|].
    split; [intros n; apply elem_of_stalePads|].
    split; [intros n; apply (elem_of_freshPads _ _ _ Hlit)|].
    split; apply NoDup_ListNoDup, List.NoDup_filter, NoDup_ListNoDup, NoDup_Object_keys.
  - cbv zeta. intros Hchanged Hlit.
    destruct (showZoomFeedback_update deck value w Hchanged) as (Hout & _).
    cbv zeta in Hout. rewrite decide_False in Hout by assumption.
    rewrite (ledMessagesSince_update _ _ _ _ _ _ _ Hout).
    + apply differentialUpdate_spec, allLit_zoomTarget.
    + apply no_ledMessages_in_stop.
    + apply ledMessages_of_update, allLit_zoomTarget.
  - cbv zeta. intros Hchanged Hlit.
    destruct (showSuperknobFeedback_update deck value w Hchanged) as (Hout & _).
    cbv zeta in Hout. rewrite decide_False in Hout by assumption.
    rewrite (ledMessagesSince_update _ _ _ _ _ _ _ Hout).
    + apply differentialUpdate_spec, allLit_superknobTarget.
    + apply no_ledMessages_in_stop.
    + apply ledMessages_of_update, allLit_superknobTarget.
Qed.

(** A zoom session of the fresh script that shows 8.0 (two pads) and then
    30.0 (five pads): the second [show] switches on the three pads that
    are new and touches no other. *)
Lemma differential_update_sends_only_changes_example :
  let w := showZoomFeedback "[Channel1]" (JS.of_Z 8) freshWorld in
  let lit := currentPadStates (zoomFeedback (state w)) in
  unchangedZoom "[Channel1]" (JS.of_Z 30) w = false /\ Object_keys lit <> [] /\
  ledMessagesSince w (showZoomFeedback "[Channel1]" (JS.of_Z 30) w) =
    flat_map (fun n => setPadLED n false) (stalePads (zoomTarget (JS.of_Z 30) w) lit) ++
    flat_map (fun n => setPadLED n true) (freshPads (zoomTarget (JS.of_Z 30) w) lit)
  /\ stalePads (zoomTarget (JS.of_Z 30) w) lit = []
  /\ freshPads (zoomTarget (JS.of_Z 30) w) lit = [36; 40; 49].
Proof.
  cbv zeta.
  assert (H1 : unchangedZoom "[Channel1]" (JS.of_Z 30)
                 (showZoomFeedback "[Channel1]" (JS.of_Z 8) freshWorld) = false)
    by (vm_compute; reflexivity).
  assert (H2 : Object_keys (currentPadStates (zoomFeedback (state
                 (showZoomFeedback "[Channel1]" (JS.of_Z 8) freshWorld)))) <> [])
    by (vm_compute; discriminate).
  split; [exact H1|]. split; [exact H2|].
  split; [|split; vm_compute; reflexivity].
  exact (proj1 (proj2 (differential_update_sends_only_changes ∅ ∅ "[Channel1]" (JS.of_Z 30)
           (showZoomFeedback "[Channel1]" (JS.of_Z 8) freshWorld))) H1 H2).
Qed.

(** * Rounding never invents a NaN, and how far integers round *)

Section Rounding.

Lemma shr_1_nonneg mrs : 0 <= shr_m mrs -> 0 <= shr_m (shr_1 mrs).
Proof. destruct mrs as [[|[p|p|]|p] r s]; simpl; lia. Qed.

Lemma iter_shr_1_nonneg n : forall mrs,
  0 <= shr_m mrs -> 0 <= shr_m (SpecFloat.iter_pos shr_1 n mrs).
Proof.
  induction n as [n IH|n IH|]; intros mrs H; simpl.
  - apply IH, IH, shr_1_nonneg, H.
  - apply IH, IH, H.
  - apply shr_1_nonneg, H.
Qed.

Lemma shr_fexp_nonneg m e l :
  0 <= m -> 0 <= shr_m (fst (shr_fexp prec emax m e l)).
Proof.
  intros Hm. unfold shr_fexp, shr.
  assert (H0 : 0 <= shr_m (shr_record_of_loc m l)) by (destruct l as [|[]]; exact Hm).
  destruct (_ - e) as [|n|n]; simpl; auto using iter_shr_1_nonneg.
Qed.

Lemma shr_fexp_exponent m e l : e <= snd (shr_fexp prec emax m e l).
Proof.
  unfold shr_fexp, shr. destruct (_ - e) as [|n|n]; simpl; lia.
Qed.

Lemma round_nearest_even_nonneg m l : 0 <= m -> 0 <= round_nearest_even m l.
Proof.
  intros Hm. destruct l as [|[]]; simpl; try lia. destruct (Z.even m); lia.
Qed.

(** Rounding a non-negative mantissa gives a number of the sign asked for,
    never a NaN, and never lowers the exponent. *)
Lemma binary_round_aux_shape s m e l :
  0 <= m ->
  match binary_round_aux prec emax s m e l with
  | S754_nan => False
  | S754_finite s' _ e' => s' = s /\ e <= e'
  | S754_zero s' | S754_infinity s' => s' = s
  end.
Proof.
  intros Hm. unfold binary_round_aux.
  pose proof (shr_fexp_nonneg m e l Hm) as H1.
  pose proof (shr_fexp_exponent m e l) as E1.
  destruct (shr_fexp prec emax m e l) as [mrs' e']. cbn [fst snd] in H1, E1.
  set (m1 := round_nearest_even (shr_m mrs') (loc_of_shr_record mrs')).
  assert (Hm1 : 0 <= m1) by (apply round_nearest_even_nonneg, H1).
  pose proof (shr_fexp_nonneg m1 e' loc_Exact Hm1) as H2.
  pose proof (shr_fexp_exponent m1 e' loc_Exact) as E2.
  destruct (shr_fexp prec emax m1 e' loc_Exact) as [mrs'' e'']. cbn [fst snd] in H2, E2.
  destruct (shr_m mrs'') as [|p|p]; [reflexivity| |lia].
  destruct (e'' <=? emax - prec); [split; [reflexivity|lia] | reflexivity].
Qed.

Lemma binary_round_shape s p :
  match binary_round prec emax s p 0 with
  | S754_nan => False
  | S754_finite s' _ e' => s' = s /\ Z.min 0 (Zpos (digits2_pos p) - prec) <= e'
  | S754_zero s' | S754_infinity s' => s' = s
  end.
Proof.
  unfold binary_round, shl_align.
  assert (Hf : Z.min 0 (Zpos (digits2_pos p) - prec) <=
               fexp prec emax (Zpos (digits2_pos p) + 0)).
  { unfold fexp. rewrite Z.add_0_r. lia. }
  set (ex' := fexp prec emax (Zpos (digits2_pos p) + 0)) in *.
  destruct (ex' - 0) as [|d|d] eqn:Ed.
  - pose proof (binary_round_aux_shape s (Zpos p) 0 loc_Exact ltac:(lia)) as H.
    destruct (binary_round_aux _ _ _ _ _ _); try assumption. split; [tauto|lia].
  - pose proof (binary_round_aux_shape s (Zpos p) 0 loc_Exact ltac:(lia)) as H.
    destruct (binary_round_aux _ _ _ _ _ _); try assumption. split; [tauto|lia].
  - pose proof (binary_round_aux_shape s (Zpos (Pos.iter xO p d)) ex' loc_Exact
                  ltac:(lia)) as H.
    destruct (binary_round_aux _ _ _ _ _ _); try assumption. split; [tauto|lia].
Qed.

Lemma of_Z_not_nan z : JS.of_Z z <> JS.NaN.
Proof.
  unfold JS.of_Z, binary_normalize. destruct z as [|p|p]; [discriminate| |];
    [pose proof (binary_round_shape false p) as H|pose proof (binary_round_shape true p) as H];
    intros E; rewrite E in H; exact H.
Qed.

Lemma sub_finite_not_nan x s m e : x <> JS.NaN -> x -! S754_finite s m e <> JS.NaN.
Proof.
  intros Hx. unfold JS.sub, SF64sub, SFsub.
  destruct x as [sx|sx| |sx mx ex]; try discriminate; [congruence|].
  unfold binary_normalize.
  match goal with |- context [match ?z with Z0 => _ | Zpos _ => _ | Zneg _ => _ end] =>
    destruct z as [|p|p] end; [discriminate| |].
  - unfold binary_round. destruct (shl_align _ _ _) as [mz ez].
    pose proof (binary_round_aux_shape false (Zpos mz) ez loc_Exact ltac:(lia)) as H.
    intros E. rewrite E in H. exact H.
  - unfold binary_round. destruct (shl_align _ _ _) as [mz ez].
    pose proof (binary_round_aux_shape true (Zpos mz) ez loc_Exact ltac:(lia)) as H.
    intros E. rewrite E in H. exact H.
Qed.

Lemma mul_finite_not_nan x s m e : x <> JS.NaN -> x *! S754_finite s m e <> JS.NaN.
Proof.
  intros Hx. unfold JS.mul, SF64mul, SFmul.
  destruct x as [sx|sx| |sx mx ex]; try discriminate; [congruence|].
  pose proof (binary_round_aux_shape (xorb sx s) (Zpos (mx * m)) (ex + e) loc_Exact
                ltac:(lia)) as H.
  intros E. rewrite E in H. exact H.
Qed.

Lemma div_finite_not_nan x s m e : x <> JS.NaN -> x /! S754_finite s m e <> JS.NaN.
Proof.
  intros Hx. unfold JS.div, SF64div, SFdiv.
  destruct x as [sx|sx| |sx mx ex]; try discriminate; [congruence|].
  unfold SFdiv_core_binary.
  match goal with |- context [Z.div_eucl ?a ?b] =>
    assert (Ha : 0 <= a);
    [| pose proof (Z.div_pos a b Ha ltac:(lia)) as Hq; unfold Z.div in Hq;
       destruct (Z.div_eucl a b) as [q r] ]
  end.
  { match goal with |- 0 <= match ?sh with Z0 => _ | Zpos _ => _ | Zneg _ => _ end =>
      destruct sh eqn:Es end; try lia. apply Z.shiftl_nonneg. lia. }
  match goal with |- binary_round_aux _ _ ?sg q ?ez ?lz <> _ =>
    pose proof (binary_round_aux_shape sg q ez lz Hq) as H end.
  intros E. rewrite E in H. exact H.
Qed.

Lemma min_not_nan a b : a <> JS.NaN -> b <> JS.NaN -> JS.Math_min a b <> JS.NaN.
Proof.
  intros Ha Hb. unfold JS.Math_min.
  destruct (SFcompare a b) as [[]|] eqn:E; try assumption.
  - destruct a as [[]| | |], b as [[]| | |]; assumption.
  - destruct (SFcompare_None _ _ E); contradiction.
Qed.

Lemma max_not_nan a b : a <> JS.NaN -> b <> JS.NaN -> JS.Math_max a b <> JS.NaN.
Proof.
  intros Ha Hb. unfold JS.Math_max.
  destruct (SFcompare a b) as [[]|] eqn:E; try assumption.
  - destruct a as [[]| | |], b as [[]| | |]; assumption.
  - destruct (SFcompare_None _ _ E); contradiction.
Qed.

Lemma floor_not_nan x : x <> JS.NaN -> JS.Math_floor x <> JS.NaN.
Proof.
  intros Hx. unfold JS.Math_floor. destruct x as [sx|sx| |sx mx ex]; try assumption.
  destruct (0 <=? ex); [assumption|].
  destruct (Z.shiftr _ _) as [|q|q]; [discriminate|apply of_Z_not_nan..].
Qed.

(** A zoom level that is a number gives a step count that is a number. *)
Lemma zoomClampedSteps_not_nan v : v <> JS.NaN -> zoomClampedSteps v <> JS.NaN.
Proof.
  intros Hv. unfold zoomClampedSteps.
  apply max_not_nan; [discriminate|]. apply min_not_nan; [discriminate|].
  apply floor_not_nan. apply mul_finite_not_nan.
  change (HARDWARE.MAX_ZOOM -! HARDWARE.MIN_ZOOM)
    with (S754_finite false 6966505673588736 (-46)).
  apply div_finite_not_nan. now apply sub_finite_not_nan.
Qed.

End Rounding.

(** * The zoom step count *)

Section ZoomSteps.

(** [Math.max(0, Math.min(15, f))]. *)
Let stepsOf (f : JS.number) : JS.number := JS.Math_max JS.lit_0 (JS.Math_min JS.lit_15 f).

Lemma steps_of_wide m e : -49 < e -> stepsOf (S754_finite false m e) = JS.lit_15.
Proof.
  intros He. unfold stepsOf, JS.Math_min, JS.lit_15. cbn [SFcompare].
  destruct (Z.compare_spec (-49) e); try lia. reflexivity.
Qed.

Lemma steps_of_negative m e : stepsOf (S754_finite true m e) = JS.lit_0.
Proof. reflexivity. Qed.

Lemma small_cases k :
  0 <= k <= 15 ->
  k = 0 \/ k = 1 \/ k = 2 \/ k = 3 \/ k = 4 \/ k = 5 \/ k = 6 \/ k = 7 \/
  k = 8 \/ k = 9 \/ k = 10 \/ k = 11 \/ k = 12 \/ k = 13 \/ k = 14 \/ k = 15.
Proof. lia. Qed.

Lemma steps_of_small k : 0 <= k <= 15 -> stepsOf (JS.of_Z k) = JS.of_Z k.
Proof.
  intros Hk. destruct (small_cases k Hk) as
    [->|[->|[->|[->|[->|[->|[->|[->|[->|[->|[->|[->|[->|[->|[->| ->]]]]]]]]]]]]]]];
    reflexivity.
Qed.

Lemma to_Z_of_small k : 0 <= k <= 15 -> JS.to_Z (JS.of_Z k) = k.
Proof.
  intros Hk. destruct (small_cases k Hk) as
    [->|[->|[->|[->|[->|[->|[->|[->|[->|[->|[->|[->|[->|[->|[->| ->]]]]]]]]]]]]]]];
    reflexivity.
Qed.

(** An integer of five bits or more rounds to something above 15. *)
Lemma small_or_wide p : Zpos p <= 15 \/ 5 <= Zpos (digits2_pos p).
Proof.
  destruct p as [[[[p|p|]|[p|p|]|]|[[p|p|]|[p|p|]|]|]|[[[p|p|]|[p|p|]|]|[[p|p|]|[p|p|]|]|]|];
    try (left; lia); right; cbn [digits2_pos]; lia.
Qed.

Lemma steps_of_integer z :
  stepsOf (JS.of_Z z) = JS.NaN \/ exists k, 0 <= k <= 15 /\ stepsOf (JS.of_Z z) = JS.of_Z k.
Proof.
  right. destruct z as [|p|p].
  - exists 0. split; [lia|reflexivity].
  - destruct (small_or_wide p) as [Hs|Hw].
    + exists (Zpos p). split; [lia|]. apply steps_of_small. lia.
    + unfold JS.of_Z, binary_normalize.
      pose proof (binary_round_shape false p) as H.
      destruct (binary_round prec emax false p 0) as [s|s| |s m e]; try contradiction.
      * subst s. exists 0. split; [lia|reflexivity].
      * subst s. exists 15. split; [lia|reflexivity].
      * destruct H as [-> He]. exists 15. split; [lia|]. apply steps_of_wide.
        unfold prec in He. lia.
  - unfold JS.of_Z, binary_normalize.
    pose proof (binary_round_shape true p) as H.
    destruct (binary_round prec emax true p 0) as [s|s| |s m e]; try contradiction.
    * subst s. exists 0. split; [lia|reflexivity].
    * subst s. exists 0. split; [lia|reflexivity].
    * destruct H as [-> He]. exists 0. split; [lia|reflexivity].
Qed.

(** The step count is NaN or one of the integers 0 to 15. *)
Lemma steps_of_floor y :
  stepsOf (JS.Math_floor y) = JS.NaN \/
  exists k, 0 <= k <= 15 /\ stepsOf (JS.Math_floor y) = JS.of_Z k.
Proof.
  destruct y as [[]|[]| |s m e].
  - right. exists 0. split; [lia|reflexivity].
  - right. exists 0. split; [lia|reflexivity].
  - right. exists 0. split; [lia|reflexivity].
  - right. exists 15. split; [lia|reflexivity].
  - left. reflexivity.
  - unfold JS.Math_floor. destruct (0 <=? e) eqn:He.
    + apply Z.leb_le in He. right. destruct s.
      * exists 0. split; [lia|reflexivity].
      * exists 15. split; [lia|]. apply steps_of_wide. lia.
    + destruct (Z.shiftr _ _) as [|q|q].
      * right. exists 0. split; [lia|reflexivity].
      * apply steps_of_integer.
      * apply steps_of_integer.
Qed.

Lemma zoomClampedSteps_range v :
  v <> JS.NaN -> exists k, 0 <= k <= 15 /\ zoomClampedSteps v = JS.of_Z k.
Proof.
  intros Hv. pose proof (zoomClampedSteps_not_nan v Hv) as Hn.
  unfold zoomClampedSteps in *.
  match goal with |- context [JS.Math_floor ?y] => destruct (steps_of_floor y) as [H|H] end.
  - unfold stepsOf in H. contradiction.
  - exact H.
Qed.

End ZoomSteps.

(** * The zoom feedback renderer *)

Section ZoomFeedback.

(** Comparing the loop index with the step count is comparing integers. *)
Lemma index_le_steps i k :
  0 <= i <= 16 -> 0 <= k <= 15 -> (JS.of_Z i <=! JS.of_Z k) = (i <=? k).
Proof.
  intros Hi Hk.
  assert (Hi' : i = 16 \/ 0 <= i <= 15) by lia.
  destruct (small_cases k Hk) as
    [->|[->|[->|[->|[->|[->|[->|[->|[->|[->|[->|[->|[->|[->|[->| ->]]]]]]]]]]]]]]];
    (destruct Hi' as [->|Hi']; [reflexivity|]);
    destruct (small_cases i Hi') as
      [->|[->|[->|[->|[->|[->|[->|[->|[->|[->|[->|[->|[->|[->|[->| ->]]]]]]]]]]]]]]];
    reflexivity.
Qed.

(** For a step count [k] the target set is the first [k + 1] pads. *)
Lemma zoomTargetPadStates_prefix k : forall pads i acc,
  0 <= k <= 15 -> 0 <= i -> i + Z.of_nat (length pads) <= 16 ->
  zoomTargetPadStates (JS.of_Z k) i pads acc =
  lightAll (take (Z.to_nat (k + 1 - i)) pads) acc.
Proof.
  induction pads as [|pad rest IH]; intros i acc Hk Hi Hlen.
  - now rewrite take_nil.
  - cbn [zoomTargetPadStates length] in *.
    rewrite index_le_steps by lia. destruct (Z.leb_spec i k) as [Hle|Hgt].
    + rewrite IH by lia.
      replace (Z.to_nat (k + 1 - i)) with (S (Z.to_nat (k + 1 - (i + 1)))) by lia.
      reflexivity.
    + replace (Z.to_nat (k + 1 - i)) with 0%nat by lia. reflexivity.
Qed.

Lemma lookup_lightAll pads : forall acc j,
  lightAll pads acc !! j = if decide (j ∈ pads) then Some true else acc !! j.
Proof.
  induction pads as [|pad rest IH]; intros acc j; cbn [lightAll foldl].
  - rewrite decide_False; [reflexivity|apply not_elem_of_nil].
  - fold (lightAll rest (<[pad := true]> acc)). rewrite IH.
    destruct (decide (j ∈ rest)) as [Hin|Hin].
    + rewrite decide_True; [reflexivity|now apply list_elem_of_further].
    + rewrite lookup_insert. destruct (decide (pad = j)) as [->|Hne].
      * rewrite decide_True; [reflexivity|apply list_elem_of_here].
      * rewrite decide_False; [reflexivity|].
        intros [?|?]%elem_of_cons; [congruence|contradiction].
Qed.

Lemma allLit_litPads (o : gmap Z bool) : allLit o -> litPads o = Object_keys o.
Proof.
  intros Hlit. unfold litPads. apply forallb_filter_id, forallb_forall.
  intros k Hk. apply allLit_truthy; [assumption|].
  now apply elem_of_Object_keys, list_elem_of_In.
Qed.

(** The pads lit for distinct [pads] are those pads. *)
Lemma litPads_lightAll pads : NoDup pads -> litPads (lightAll pads ∅) ≡ₚ pads.
Proof.
  intros Hnd.
  assert (Hlit : allLit (lightAll pads ∅)).
  { intros k b. rewrite lookup_lightAll, lookup_empty. destruct (decide _); congruence. }
  rewrite (allLit_litPads _ Hlit).
  apply NoDup_Permutation; [apply NoDup_Object_keys|assumption|].
  intros k. rewrite elem_of_Object_keys, lookup_lightAll, lookup_empty.
  destruct (decide (k ∈ pads)) as [Hin|Hin]; split; intros H.
  - assumption.
  - now exists true.
  - destruct H as [? H]. discriminate.
  - contradiction.
Qed.

(** Levels that [===] holds equal have the same target set. *)
Lemma zoomTargetPadStates_strict_eq l c pads : forall i acc,
  l ===! c = true -> zoomTargetPadStates l i pads acc = zoomTargetPadStates c i pads acc.
Proof.
  intros i acc H. unfold JS.strict_eq, SFeqb in H.
  destruct (SFcompare l c) as [[]|] eqn:E; try discriminate.
  destruct (SFcompare_Eq _ _ E) as [->|(s & t & -> & ->)]; [reflexivity|].
  revert i acc. induction pads as [|pad rest IH]; intros i acc; [reflexivity|].
  cbn [zoomTargetPadStates]. rewrite IH.
  replace (JS.of_Z i <=! S754_zero s) with (JS.of_Z i <=! S754_zero t); [reflexivity|].
  unfold JS.le, SFleb. destruct (JS.of_Z i) as [?|[]| |[] ? ?]; reflexivity.
Qed.

End ZoomFeedback.

Section ZoomLevels.

(** [Math.max(0, Math.min(15, x))] is [clamp(x, 0, 15)], up to the sign
    of a zero. *)
Lemma steps_clamp x :
  (forall s, x <> S754_zero s) ->
  JS.Math_max JS.lit_0 (JS.Math_min JS.lit_15 x) = clamp x JS.lit_0 JS.lit_15.
Proof.
  intros Hx. set (lo := JS.lit_0). set (hi := JS.lit_15).
  assert (Hlh : lo <! hi = true) by reflexivity.
  assert (Hc : SFcompare lo hi = Some Lt) by reflexivity.
  assert (Hmin : JS.Math_min hi x =
                 match SFcompare hi x with
                 | None => JS.NaN | Some Lt => hi | Some _ => x end).
  { unfold JS.Math_min. destruct (SFcompare hi x) as [[]|]; reflexivity. }
  assert (Hmax : forall y, (forall s, y <> S754_zero s) -> JS.Math_max lo y =
                 match SFcompare lo y with
                 | None => JS.NaN | Some Gt => lo | Some _ => y end).
  { intros y Hy. unfold JS.Math_max. destruct (SFcompare lo y) as [[]|]; try reflexivity.
    destruct y as [[]| | |]; try reflexivity. now destruct (Hy true). }
  rewrite Hmin. unfold clamp. change (x >! hi) with (hi <! x). clear Hmin.
  destruct (SFcompare hi x) as [[]|] eqn:Ehx.
  - destruct (SFcompare_Eq _ _ Ehx) as [<-|(s & t & Habs & _)]; [|discriminate].
    reflexivity.
  - rewrite Hmax by discriminate. rewrite Hc.
    assert (Hhx : hi <! x = true) by (unfold JS.lt, SFltb; now rewrite Ehx).
    rewrite (lt_asym _ _ (lt_trans _ _ _ Hlh Hhx)), Hhx. reflexivity.
  - assert (Hxh : x <! hi = true).
    { unfold JS.lt, SFltb. rewrite (SFcompare_swap hi x), Ehx. reflexivity. }
    rewrite Hmax by assumption. rewrite (lt_asym _ _ Hxh).
    destruct (SFcompare lo x) as [[]|] eqn:Elx.
    + destruct (SFcompare_Eq _ _ Elx) as [<-|(s & t & _ & ->)];
        [now destruct (Hx false)|now destruct (Hx t)].
    + unfold JS.lt, SFltb. rewrite (SFcompare_swap lo x), Elx. reflexivity.
    + unfold JS.lt, SFltb. rewrite (SFcompare_swap lo x), Elx. reflexivity.
    + destruct (SFcompare_None _ _ Elx) as [Habs| ->]; [discriminate|].
      simpl in Ehx. discriminate.
  - destruct (SFcompare_None _ _ Ehx) as [Habs| ->]; [discriminate|].
    reflexivity.
Qed.

(** The step count the renderer uses has the integer value the formula
    gives. *)
Lemma steps_match_formula v : JS.to_Z (zoomClampedSteps v) = JS.to_Z (zoomStepsFormula v).
Proof.
  unfold zoomClampedSteps, zoomStepsFormula.
  match goal with |- context [JS.Math_floor ?y] => set (f := JS.Math_floor y) end.
  destruct f as [s| | |] eqn:Ef.
  - destruct s; reflexivity.
  - now rewrite steps_clamp by discriminate.
  - now rewrite steps_clamp by discriminate.
  - now rewrite steps_clamp by discriminate.
Qed.

Lemma rotationCount_le degrees : (rotationCount degrees <= 4)%nat.
Proof.
  unfold rotationCount. destruct (degrees <=? 0); [lia|].
  assert (H : (degrees mod 360 + 89) / 90 < 5).
  { apply Z.div_lt_upper_bound; [lia|]. pose proof (Z.mod_pos_bound degrees 360). lia. }
  lia.
Qed.

(** Whatever the configured rotation, the bottom-left to top-right order
    lists sixteen distinct pads. *)
Lemma generated_order cfg :
  let order := concat (rev (GRID (generateLayout cfg))) in
  NoDup order /\ length order = 16%nat.
Proof.
  unfold generateLayout, rotateGrid. cbn [GRID].
  pose proof (rotationCount_le (rotation cfg)) as Hn.
  destruct (rotationCount (rotation cfg)) as [|[|[|[|[|n]]]]]; [| | | | |lia];
    destruct (String.eqb (rotationDirection cfg) "clockwise");
    (split; [apply (bool_decide_unpack _); vm_compute; exact I | reflexivity]).
Qed.

End ZoomLevels.

Section ZoomPadCount.

(** What [showZoomFeedback] does when nothing has changed: only the timer
    is restarted. *)
Lemma showZoomFeedback_same deck z w :
  unchangedZoom deck z w = true ->
  let fb := zoomFeedback (state w) in
  zoomFeedback (state (showZoomFeedback deck z w)) =
    {| active := active fb; feedbackDeck := feedbackDeck fb; timer := Some (nextTimer w);
       lastShown := lastShown fb; currentPadStates := currentPadStates fb |}
  /\ padLayout (showZoomFeedback deck z w) = padLayout w
  /\ ledMessagesSince w (showZoomFeedback deck z w) = [].
Proof.
  unfold unchangedZoom. intros Hsame. cbv zeta.
  unfold showZoomFeedback, ledMessagesSince. rewrite Hsame.
  destruct w as [cfg pl em [np [a d [t|] l c] sf br] ctl nt out];
    [destruct (t =? 0) eqn:Et|];
    unfold stopFeedbackTimer, withZoomFeedback, withState, engine_beginTimer,
      engine_stopTimer, emit, zoomFeedbackTimeout;
    cbn [timer currentPadStates zoomFeedback state output nextTimer padLayout config
         controls encoderMappings];
    rewrite ?Et;
    cbn [timer currentPadStates zoomFeedback state output nextTimer padLayout config
         controls encoderMappings];
    rewrite <- ?app_assoc, ?drop_app_length; repeat split; reflexivity.
Qed.

(** What the zoom session records: for every zoom value [v] that is a
    number, after [showZoomFeedback] the pads the session holds as lit are
    the first [clamp(floor(((v - 1) / (100 - 1)) * 16), 0, 15) + 1] pads
    of the bottom-left to top-right order, between 1 and 16 of them; a
    zoom of 8.0 gives 2.  The session is left in a state of which the same
    holds again. *)
Lemma zoom_session_records_steps_plus_one (w : World) (cfg : Config) (deck : string)
    (v : JS.number) :
  padLayout w = generateLayout cfg -> zoomSessionOk w -> v <> JS.NaN ->
  let w' := showZoomFeedback deck v w in
  let lit := litPads (currentPadStates (zoomFeedback (state w'))) in
  let n := JS.to_Z (zoomStepsFormula v) + 1 in
  1 <= n <= 16
  /\ lit ≡ₚ take (Z.to_nat n) (getBottomLeftToTopRightOrder w)
  /\ Z.of_nat (length lit) = n
  /\ zoomSessionOk w'
  /\ JS.to_Z (zoomStepsFormula (JS.of_Z 8)) + 1 = 2.
Proof.
  intros Hlayout [Hlit Hshown] Hv. cbv zeta.
  destruct (zoomClampedSteps_range v Hv) as (k & Hk & Hsteps).
  rewrite <- steps_match_formula, Hsteps, to_Z_of_small by assumption.
  set (order := getBottomLeftToTopRightOrder w).
  destruct (generated_order cfg) as [Hnd Hlen]. cbv zeta in Hnd, Hlen.
  rewrite <- Hlayout in Hnd, Hlen. fold (getBottomLeftToTopRightOrder w) in Hnd, Hlen.
  fold order in Hnd, Hlen.
  assert (Htarget : zoomTargetPadStates (JS.of_Z k) 0 order ∅ =
                    lightAll (take (Z.to_nat (k + 1)) order) ∅).
  { rewrite zoomTargetPadStates_prefix by lia. now rewrite Z.sub_0_r. }
  assert (Hpads : currentPadStates (zoomFeedback (state (showZoomFeedback deck v w))) =
                  lightAll (take (Z.to_nat (k + 1)) order) ∅
                  /\ zoomSessionOk (showZoomFeedback deck v w)).
  { destruct (unchangedZoom deck v w) eqn:Hpath.
    - destruct (showZoomFeedback_same deck v w Hpath) as (Hfb & Hpl & _).
      cbv zeta in Hfb. unfold unchangedZoom, sameShown in Hpath. cbv zeta in Hpath.
      apply andb_true_iff in Hpath as [Hpath _].
      apply andb_true_iff in Hpath as [Hactive Heq].
      destruct (lastShown (zoomFeedback (state w))) as [l|] eqn:El; [|discriminate].
      split.
      + rewrite Hfb. cbn [currentPadStates].
        rewrite (Hshown Hactive l eq_refl). fold order.
        rewrite (zoomTargetPadStates_strict_eq l (zoomClampedSteps v)) by assumption.
        now rewrite Hsteps, Htarget.
      + unfold zoomSessionOk, getBottomLeftToTopRightOrder. rewrite Hfb, Hpl.
        cbn [currentPadStates active lastShown]. split; [assumption|].
        exact Hshown.
    - destruct (showZoomFeedback_update deck v w Hpath) as (_ & Hfb & Hpl).
      cbv zeta in Hfb.
      rewrite (differentialUpdate_result _ _ (allLit_zoomTarget v w) Hlit) in Hfb.
      unfold zoomTarget in Hfb. fold order in Hfb. rewrite Hsteps, Htarget in Hfb.
      split.
      + now rewrite Hfb.
      + unfold zoomSessionOk, getBottomLeftToTopRightOrder. rewrite Hfb, Hpl.
        cbn [currentPadStates active lastShown].
        fold (getBottomLeftToTopRightOrder w). fold order. split.
        * intros j b. rewrite lookup_lightAll, lookup_empty.
          destruct (decide _); congruence.
        * intros _ c [= <-]. now rewrite Htarget. }
  destruct Hpads as [Hpads Hok'].
  assert (Hperm : litPads (currentPadStates (zoomFeedback (state (showZoomFeedback deck v w))))
                  ≡ₚ take (Z.to_nat (k + 1)) order).
  { rewrite Hpads. apply litPads_lightAll.
    exact (sublist_NoDup _ _ Hnd (sublist_take order _)). }
  split; [lia|]. split; [exact Hperm|]. split; [|split; [exact Hok'|reflexivity]].
  rewrite Hperm, length_take, Hlen. lia.
Qed.

End ZoomPadCount.

(** A zoom of 8.0 shown by the fresh script: two pads recorded, the
    bottom-left pair of the default layout. *)
Lemma zoom_session_records_steps_plus_one_example :
  let w' := showZoomFeedback "[Channel1]" (JS.of_Z 8) freshWorld in
  let lit := litPads (currentPadStates (zoomFeedback (state w'))) in
  padLayout freshWorld = generateLayout defaultConfig /\ zoomSessionOk freshWorld /\
  JS.of_Z 8 <> JS.NaN /\
  lit ≡ₚ take (Z.to_nat (JS.to_Z (zoomStepsFormula (JS.of_Z 8)) + 1))
           (getBottomLeftToTopRightOrder freshWorld) /\
  take 2 (getBottomLeftToTopRightOrder freshWorld) = [48; 44] /\
  lit = [44; 48].
Proof.
  cbv zeta.
  assert (Hok : zoomSessionOk freshWorld).
  { split; [apply allLit_empty|discriminate]. }
  split; [reflexivity|]. split; [exact Hok|]. split; [discriminate|].
  split; [|split; vm_compute; reflexivity].
  exact (proj1 (proj2 (zoom_session_records_steps_plus_one freshWorld defaultConfig
                         "[Channel1]" (JS.of_Z 8) eq_refl Hok ltac:(discriminate)))).
Qed.

(** * The earlier script's assembler *)

(** In the earlier script either byte recomputes the parameter of a
    tracked channel from the two stored bytes, and the pair (127,127)
    clears it. *)
Lemma legacy_select_recomputes (chans : gmap Z Legacy.ChannelState) (status value : Z)
    (cs : Legacy.ChannelState) :
  chans !! (JS.band status 0x0F + 1) = Some cs ->
  Legacy.handleNRPNMSB true status value chans !! (JS.band status 0x0F + 1) =
    Some (Legacy.recompute value (Legacy.lsb cs))
  /\ Legacy.handleNRPNLSB true status value chans !! (JS.band status 0x0F + 1) =
    Some (Legacy.recompute (Legacy.msb cs) value)
  /\ Legacy.currentParameter (Legacy.recompute 127 127) = None.
Proof.
  intros H. unfold Legacy.handleNRPNMSB, Legacy.handleNRPNLSB. cbn [negb].
  rewrite H, !lookup_insert_eq. repeat split.
Qed.
(** * The pad layout and the encoder table *)

Section Layout.

Lemma perm_of_sorted (l1 l2 : list Z) :
  merge_sort Z.le l1 = merge_sort Z.le l2 -> l1 ≡ₚ l2.
Proof.
  intros H. rewrite <- (merge_sort_Permutation Z.le l1), H.
  apply merge_sort_Permutation.
Qed.

(** Every generated grid has four rows of four notes, sixteen distinct
    notes in all. *)
Lemma generated_grid (cfg : Config) :
  let layout := generateLayout cfg in
  NoDup (NOTES layout) /\ length (NOTES layout) = 16%nat
  /\ length (GRID layout) = 4%nat
  /\ Forall (fun row => length row = 4%nat) (GRID layout).
Proof.
  unfold generateLayout, rotateGrid. cbn [GRID NOTES].
  pose proof (rotationCount_le (rotation cfg)) as Hn.
  destruct (rotationCount (rotation cfg)) as [|[|[|[|[|n]]]]]; [| | | | |lia];
    destruct (String.eqb (rotationDirection cfg) "clockwise");
    (split; [apply (bool_decide_unpack _); vm_compute; exact I|];
     split; [reflexivity|]; split; [reflexivity|]; repeat constructor).
Qed.

(** X1: whatever rotation and rotation direction are configured, the
    generated layout holds each of the sixteen physical pads exactly once,
    in a grid of four rows of four. *)
Theorem layout_lists_every_pad_once (cfg : Config) :
  let layout := generateLayout cfg in
  NOTES layout ≡ₚ concat PHYSICAL_GRID
  /\ NoDup (NOTES layout)
  /\ length (GRID layout) = 4%nat
  /\ Forall (fun row => length row = 4%nat) (GRID layout).
Proof.
  cbv zeta. destruct (generated_grid cfg) as (Hnd & _ & Hlen & Hrows). cbv zeta in *.
  split; [|split; [exact Hnd|split; [exact Hlen|exact Hrows]]].
  unfold generateLayout, rotateGrid. cbn [GRID NOTES].
  pose proof (rotationCount_le (rotation cfg)) as Hn.
  destruct (rotationCount (rotation cfg)) as [|[|[|[|[|n]]]]]; [| | | | |lia];
    destruct (String.eqb (rotationDirection cfg) "clockwise");
    apply perm_of_sorted; vm_compute; reflexivity.
Qed.

Lemma map_nth_seq {A} (l : list A) (d : A) :
  map (fun i => nth i l d) (seq 0 (length l)) = l.
Proof.
  induction l as [|x l IH]; [reflexivity|].
  cbn [length seq map nth]. f_equal.
  rewrite <- seq_shift, map_map. exact IH.
Qed.

Lemma rev_seq (n : nat) :
  rev (seq 0 n) = map (fun i => (n - 1 - i)%nat) (seq 0 n).
Proof.
  induction n as [|n IH]; [reflexivity|].
  transitivity (n :: rev (seq 0 n)).
  - rewrite seq_S, rev_app_distr. reflexivity.
  - cbn [seq map]. rewrite IH, <- seq_shift, map_map. f_equal; [lia|].
    apply map_ext. intros i. lia.
Qed.

Lemma nth_column (grid : list (list Z)) (col j : nat) :
  nth j (column grid col) 0 = nth col (nth j grid []) 0.
Proof.
  unfold column. set (f := fun row : list Z => nth col row 0).
  assert (H0 : f [] = 0) by (unfold f; now destruct col).
  change (nth col (nth j grid []) 0) with (f (nth j grid [])).
  rewrite <- H0 at 1. apply map_nth.
Qed.

Lemma length_column (grid : list (list Z)) (col : nat) :
  length (column grid col) = length grid.
Proof. apply length_map. Qed.

Lemma nth_row_length (grid : list (list Z)) (c j : nat) :
  Forall (fun row => length row = c) grid -> (j < length grid)%nat ->
  length (nth j grid []) = c.
Proof.
  intros Hrect Hj. rewrite List.Forall_forall in Hrect.
  apply Hrect, nth_In, Hj.
Qed.

(** What one counter-clockwise pass makes of a rectangular grid: its
    columns, the last one first. *)
Lemma hd_counterclockwise (grid : list (list Z)) (c : nat) :
  (0 < c)%nat ->
  length (hd [] (map (fun col => column grid col) (rev (seq 0 c)))) = length grid.
Proof.
  intros Hc. destruct c as [|c]; [lia|].
  rewrite seq_S, rev_app_distr. cbn [rev app map hd]. apply length_column.
Qed.

Lemma hd_clockwise (grid : list (list Z)) (c : nat) :
  (0 < c)%nat ->
  length (hd [] (map (fun col => rev (column grid col)) (seq 0 c))) = length grid.
Proof.
  intros Hc. destruct c as [|c]; [lia|].
  cbn [seq map hd]. rewrite length_rev. apply length_column.
Qed.

Lemma hd_length (grid : list (list Z)) (c : nat) :
  Forall (fun row => length row = c) grid -> grid <> [] -> length (hd [] grid) = c.
Proof.
  intros Hrect Hne. destruct grid as [|row rest]; [congruence|].
  cbn [hd]. now inversion Hrect.
Qed.

Lemma clockwise_after_counterclockwise (grid : list (list Z)) (c : nat) :
  (0 < c)%nat -> Forall (fun row => length row = c) grid ->
  rotateOnce true (rotateOnce false grid) = grid.
Proof.
  intros Hc Hrect. destruct (decide (grid = [])) as [->|Hne]; [reflexivity|].
  unfold rotateOnce at 2. rewrite (hd_length grid c Hrect Hne).
  unfold rotateOnce. rewrite (hd_counterclockwise grid c Hc).
  transitivity (map (fun j => nth j grid []) (seq 0 (length grid)));
    [|apply map_nth_seq].
  apply map_ext_in. intros j Hj. apply in_seq in Hj.
  unfold column at 1. rewrite map_map, <- map_rev, rev_involutive.
  transitivity (map (fun col => nth col (nth j grid []) 0) (seq 0 c)).
  - apply map_ext. intros col. apply nth_column.
  - rewrite <- (nth_row_length grid c j Hrect) at 1 by lia. apply map_nth_seq.
Qed.

Lemma counterclockwise_after_clockwise (grid : list (list Z)) (c : nat) :
  (0 < c)%nat -> Forall (fun row => length row = c) grid ->
  rotateOnce false (rotateOnce true grid) = grid.
Proof.
  intros Hc Hrect. destruct (decide (grid = [])) as [->|Hne]; [reflexivity|].
  unfold rotateOnce at 2. rewrite (hd_length grid c Hrect Hne).
  unfold rotateOnce. rewrite (hd_clockwise grid c Hc).
  rewrite rev_seq, map_map.
  transitivity (map (fun j => nth j grid []) (seq 0 (length grid)));
    [|apply map_nth_seq].
  apply map_ext_in. intros i Hi. apply in_seq in Hi.
  unfold column at 1. rewrite map_map.
  transitivity (map (fun col => nth col (nth i grid []) 0) (seq 0 c)).
  - apply map_ext. intros col.
    rewrite rev_nth by (rewrite length_column; lia).
    rewrite length_column, nth_column. f_equal. f_equal. lia.
  - rewrite <- (nth_row_length grid c i Hrect) at 1 by lia. apply map_nth_seq.
Qed.

(** X2: on a grid that has at least one row and whose rows all have the
    same positive length, a clockwise quarter turn undoes a
    counter-clockwise one and the other way round, for a single pass and
    for [rotateGrid] by 90 degrees; the grid in between has a row again. *)
Theorem quarter_turns_are_inverse (grid : list (list Z)) (c : nat) :
  grid <> [] -> (0 < c)%nat -> Forall (fun row => length row = c) grid ->
  rotateOnce true (rotateOnce false grid) = grid
  /\ rotateOnce false (rotateOnce true grid) = grid
  /\ rotateGrid (rotateGrid grid 90 "counterclockwise") 90 "clockwise" = grid
  /\ rotateGrid (rotateGrid grid 90 "clockwise") 90 "counterclockwise" = grid
  /\ rotateOnce false grid <> [] /\ rotateOnce true grid <> [].
Proof.
  intros Hne Hc Hrect.
  assert (Hrows : forall clockwise, rotateOnce clockwise grid <> []).
  { intros clockwise. unfold rotateOnce. rewrite (hd_length grid c Hrect Hne).
    destruct c as [|c]; [lia|]. destruct clockwise.
    - cbn [seq map]. discriminate.
    - rewrite seq_S, rev_app_distr. cbn [rev app map]. discriminate. }
  pose proof (clockwise_after_counterclockwise grid c Hc Hrect) as H1.
  pose proof (counterclockwise_after_clockwise grid c Hc Hrect) as H2.
  split; [exact H1|]. split; [exact H2|]. split; [exact H1|]. split; [exact H2|].
  split; apply Hrows.
Qed.

End Layout.

(** The physical grid turned and turned back. *)
Lemma quarter_turns_are_inverse_witness :
  PHYSICAL_GRID <> [] /\
  (0 < 4)%nat /\ Forall (fun row => length row = 4%nat) PHYSICAL_GRID /\
  rotateGrid (rotateGrid PHYSICAL_GRID 90 "counterclockwise") 90 "clockwise" = PHYSICAL_GRID /\
  rotateGrid PHYSICAL_GRID 90 "counterclockwise" =
    [[51; 47; 43; 39]; [50; 46; 42; 38]; [49; 45; 41; 37]; [48; 44; 40; 36]].
Proof.
  assert (Hc : (0 < 4)%nat) by lia.
  assert (Hrect : Forall (fun row => length row = 4%nat) PHYSICAL_GRID)
    by (repeat constructor).
  assert (Hne : PHYSICAL_GRID <> []) by discriminate.
  split; [exact Hne|]. split; [exact Hc|]. split; [exact Hrect|].
  split; [|reflexivity].
  exact (proj1 (proj2 (proj2 (quarter_turns_are_inverse PHYSICAL_GRID 4 Hne Hc Hrect)))).
Defined.

Section EncoderTable.

Variable cfg : Config.

Lemma mapping_keys :
  forall c, is_Some (generateEncoderMappings cfg !! c) <-> (1 <= c <= 10 \/ 13 <= c <= 16).
Proof.
  intros c. rewrite <- not_eq_None_Some. unfold generateEncoderMappings. cbv zeta.
  rewrite <- not_elem_of_list_to_map. cbn [fmap list_fmap fst].
  split.
  - intros H. destruct (decide (1 <= c <= 10 \/ 13 <= c <= 16)) as [|Hout]; [assumption|].
    exfalso. apply H. rewrite !not_elem_of_cons. repeat split; try lia.
    apply not_elem_of_nil.
  - intros Hc H. apply H. rewrite !elem_of_cons. lia.
Qed.

(** X3: for every configuration the generated table maps MIDI channels 1
    to 10 and 13 to 16 and no other, never to the jog wheel action; so an
    increment or decrement on channel 11 or 12 changes nothing and sends
    nothing. *)
Theorem unmapped_channels_ignore_motion (w : World) (increment : bool)
    (status value now : Z) :
  encoderMappings w = generateEncoderMappings cfg ->
  (forall c, is_Some (encoderMappings w !! c) <-> (1 <= c <= 10 \/ 13 <= c <= 16))
  /\ (forall c m, encoderMappings w !! c = Some m -> type m <> jogwheel)
  /\ (JS.band status 0x0F = 10 \/ JS.band status 0x0F = 11 ->
      motionMessage increment status value now w = Some w).
Proof.
  intros Hmap. split; [|split].
  - intros c. rewrite Hmap. apply mapping_keys.
  - intros c m. rewrite Hmap. unfold generateEncoderMappings. cbv zeta.
    intros H. apply elem_of_list_to_map_2 in H.
    rewrite !elem_of_cons, elem_of_nil in H.
    repeat (destruct H as [[= _ ->]|H]; [discriminate|]). destruct H.
  - intros Hch.
    assert (Hnone : encoderMappings w !! (JS.band status 0x0F + 1) = None).
    { apply eq_None_not_Some. rewrite Hmap, mapping_keys. lia. }
    unfold motionMessage, nrpnIncrement, nrpnDecrement, processMotion. cbv zeta.
    rewrite Hnone. now destruct increment.
Qed.

(** Permutations of short explicit lists. *)
Lemma perm_at1 {A} (a y : A) l l2 : l ≡ₚ y :: l2 -> a :: l ≡ₚ y :: a :: l2.
Proof. exact (Permutation_cons_app [y] l2 a). Qed.

Lemma perm_at2 {A} (a y z : A) l l2 : l ≡ₚ y :: z :: l2 -> a :: l ≡ₚ y :: z :: a :: l2.
Proof. exact (Permutation_cons_app [y; z] l2 a). Qed.

Lemma perm_at3 {A} (a x y z : A) l l2 :
  l ≡ₚ x :: y :: z :: l2 -> a :: l ≡ₚ x :: y :: z :: a :: l2.
Proof. exact (Permutation_cons_app [x; y; z] l2 a). Qed.

Ltac solve_small_perm :=
  lazymatch goal with
  | |- [] ≡ₚ [] => reflexivity
  | |- _ :: _ ≡ₚ _ =>
      first [ apply perm_skip | apply perm_at1 | apply perm_at2 | apply perm_at3 ];
      solve_small_perm
  end.

(** The decks the four encoders of one bank address, by MIDI channel. *)
Lemma bank_decks (chs : list Z) :
  chs = [3; 4; 5; 6] \/ chs = [7; 8; 9; 10] \/ chs = [13; 14; 15; 16] ->
  map (fun ch => deck <$> generateEncoderMappings cfg !! ch) chs =
  map (fun i => Some (channelGroup
                        (mjoin (map (fun idx => deckOrder cfg !! idx)
                                    (rotatedGridToDeckIndex (rotation cfg)
                                       (rotationDirection cfg)) !! i))))
      [0; 1; 2; 3]%nat.
Proof. intros [->|[->| ->]]; reflexivity. Qed.

(** X4: with four decks configured, the four encoders of each bank
    address these four decks, one each, whatever the rotation; and the
    encoders in the same position of the three deck banks address the same
    deck. *)
Theorem each_bank_addresses_every_deck (a b c d : Z) :
  deckOrder cfg = [a; b; c; d] ->
  let decksOf := map (fun ch => deck <$> generateEncoderMappings cfg !! ch) in
  decksOf [3; 4; 5; 6] ≡ₚ map (fun n => Some (channelGroup (Some n))) [a; b; c; d]
  /\ decksOf [7; 8; 9; 10] = decksOf [3; 4; 5; 6]
  /\ decksOf [13; 14; 15; 16] = decksOf [3; 4; 5; 6].
Proof.
  intros Horder. cbv zeta.
  rewrite !bank_decks by auto. split; [|split; reflexivity].
  rewrite Horder. unfold rotatedGridToDeckIndex, gridToDeckIndex.
  repeat match goal with |- context [if ?b then _ else _] => destruct b end;
    cbn [map nth lookup list_lookup mjoin option_join option_bind];
    solve_small_perm.
Qed.

End EncoderTable.

(** The configuration the script ships with: decks 3, 1, 2, 4 on a device
    turned a quarter counter-clockwise. *)
Lemma each_bank_addresses_every_deck_witness :
  deckOrder defaultConfig = [3; 1; 2; 4] /\
  map (fun ch => deck <$> generateEncoderMappings defaultConfig !! ch) [3; 4; 5; 6]
    ≡ₚ map (fun n => Some (channelGroup (Some n))) [3; 1; 2; 4] /\
  map (fun ch => deck <$> generateEncoderMappings defaultConfig !! ch) [3; 4; 5; 6]
    = [Some "[Channel1]"; Some "[Channel3]"; Some "[Channel2]"; Some "[Channel4]"].
Proof.
  split; [reflexivity|]. split; [|reflexivity].
  exact (proj1 (each_bank_addresses_every_deck defaultConfig 3 1 2 4 eq_refl)).
Defined.

(** Channel 12 of the fresh script. *)
Lemma unmapped_channels_ignore_motion_witness :
  encoderMappings freshWorld = generateEncoderMappings defaultConfig /\
  motionMessage true 0xBB 1 1000 freshWorld = Some freshWorld.
Proof.
  split; [reflexivity|].
  apply (proj2 (proj2 (unmapped_channels_ignore_motion defaultConfig freshWorld true
                         0xBB 1 1000 eq_refl))).
  right. reflexivity.
Defined.

(** * Selecting a parameter, byte by byte *)

Lemma band_low_nibble status : 0 <= JS.band status 0x0F < 16.
Proof.
  unfold JS.band. rewrite (to_int32_small 15) by lia.
  change 15 with (Z.ones 4). rewrite Z.land_ones by lia.
  apply Z.mod_pos_bound. lia.
Qed.

(** X5: a CC 99 with data byte [hi] followed by a CC 98 with data byte
    [lo] on the same channel stores the 14-bit parameter [128 * hi + lo]
    for that channel, from which both bytes can be read back; the entries
    of the other channels stay as they were, and nothing is sent or
    written. *)
Theorem nrpn_pair_selects_parameter (status hi lo : Z) (w : World) :
  0 <= hi < 128 -> 0 <= lo < 128 ->
  let c := JS.band status 0x0F + 1 in
  let w' := nrpnLSB status lo (nrpnMSB status hi w) in
  1 <= c <= 16
  /\ (exists p, storedParameter c w' = Some p /\ p = 128 * hi + lo
                /\ 0 <= p < 16384 /\ p / 128 = hi /\ p mod 128 = lo)
  /\ (forall k, k <> c ->
        entryAt (nrpnParams (state w')) k = entryAt (nrpnParams (state w)) k)
  /\ output w' = output w /\ controls w' = controls w.
Proof.
  intros Hhi Hlo. cbv zeta. pose proof (band_low_nibble status) as Hc.
  split; [lia|]. split; [|split].
  - exists (128 * hi + lo). unfold storedParameter.
    rewrite entry_after_lsb, decide_True by reflexivity. cbn [param].
    rewrite entry_after_msb, decide_True by reflexivity. cbn [msb].
    destruct (combine_data_bytes hi lo Hhi Hlo) as [-> ->].
    split; [reflexivity|]. split; [reflexivity|]. split; [lia|].
    split.
    + rewrite Z.mul_comm, Z.div_add_l by lia. rewrite Z.div_small by lia. lia.
    + rewrite Z.mul_comm, Z.add_comm, Z.mod_add by lia. apply Z.mod_small. lia.
  - intros k Hk. rewrite entry_after_lsb, decide_False by congruence.
    rewrite entry_after_msb, decide_False by congruence. reflexivity.
  - rewrite nrpnLSB_only_nrpn, nrpnMSB_only_nrpn. split; reflexivity.
Qed.

(** A pair arriving on MIDI channel 5 of the fresh script. *)
Lemma nrpn_pair_selects_parameter_witness :
  0 <= 2 < 128 /\ 0 <= 3 < 128 /\
  storedParameter 5 (nrpnLSB 0xB4 3 (nrpnMSB 0xB4 2 freshWorld)) = Some 259.
Proof.
  split; [lia|]. split; [lia|].
  destruct (nrpn_pair_selects_parameter 0xB4 2 3 freshWorld ltac:(lia) ltac:(lia))
    as (_ & (p & Hp & -> & _) & _).
  exact Hp.
Defined.

(** * The rate tracker over any series of ticks *)

Section RateTrackerInvariant.

(** A tick on one deck leaves what is tracked for the other decks alone. *)
Lemma tick_leaves_other_decks deck now r other :
  other <> deck ->
  let r' := fst (trackBeatjumpRate deck now r) in
  lastTime r' !! other = lastTime r !! other /\
  multiplier r' !! other = multiplier r !! other.
Proof.
  intros Hne. unfold trackBeatjumpRate. cbv zeta.
  repeat match goal with |- context [if ?b then _ else _] => destruct b end;
    cbn [fst setMultiplier lastTime multiplier];
    rewrite ?lookup_insert_ne by congruence; split; reflexivity.
Qed.

(** What is known of the tracked deck after a tick: it has a time and a
    multiplier, and the multiplier is a jump size if the one before was,
    or if there was none. *)
Lemma tick_keeps_jump_size deck now r :
  (noLastTime r deck = false -> is_Some (multiplier r !! deck)) ->
  (forall m, multiplier r !! deck = Some m -> jumpSize m) ->
  let r' := fst (trackBeatjumpRate deck now r) in
  lastTime r' !! deck = Some now /\
  exists m', multiplier r' !! deck = Some m' /\ jumpSize m'.
Proof.
  intros Hhas Hsize. destruct (noLastTime r deck) eqn:Hfirst.
  - destruct (first_tick deck now r Hfirst) as [Ht Hm]. cbv zeta in *.
    split; [exact Ht|]. exists 2. split; [exact Hm|]. unfold jumpSize. lia.
  - destruct (Hhas eq_refl) as [m Hm]. unfold noLastTime in Hfirst.
    destruct (lastTime r !! deck) as [t|] eqn:Ht; [|discriminate].
    apply Z.eqb_neq in Hfirst.
    destruct (later_tick deck now t m r Ht Hfirst Hm) as [Ht' Hm']. cbv zeta in *.
    split; [exact Ht'|]. eexists. split; [exact Hm'|].
    specialize (Hsize m Hm). unfold jumpSize, nextMultiplier in *.
    repeat match goal with |- context [if ?b then _ else _] => destruct b eqn:? end; lia.
Qed.

Lemma trackerOk_tick deck now r :
  trackerOk r -> trackerOk (fst (trackBeatjumpRate deck now r)).
Proof.
  intros Hok d. destruct (decide (d = deck)) as [->|Hne].
  - destruct (tick_keeps_jump_size deck now r (proj1 (Hok deck)) (proj2 (Hok deck)))
      as (_ & m' & Hm' & Hsize). cbv zeta in *.
    rewrite Hm'. split; [eauto|]. now intros m [= <-].
  - destruct (tick_leaves_other_decks deck now r d Hne) as [Ht Hm]. cbv zeta in *.
    unfold noLastTime. rewrite Ht, Hm. apply Hok.
Qed.

Lemma trackerOk_trackAll ticks : forall r, trackerOk r -> trackerOk (trackAll ticks r).
Proof.
  induction ticks as [|[d now] ticks IH]; intros r Hok; [exact Hok|].
  cbn [trackAll fold_left]. apply IH, trackerOk_tick, Hok.
Qed.

Lemma trackAll_snoc ticks d now r :
  trackAll (ticks ++ [(d, now)]) r = fst (trackBeatjumpRate d now (trackAll ticks r)).
Proof. unfold trackAll. rewrite fold_left_app. reflexivity. Qed.

(** X6: from the state the script starts in, whatever decks tick at
    whatever times, every multiplier the tracker holds is 1, 2, 4 or 8;
    a tick moves the multiplier of its deck to at most twice what it was
    and leaves the other decks' multipliers and times alone. *)
Theorem multiplier_is_always_a_jump_size (ticks : list (string * Z)) (deck : string)
    (now : Z) :
  let r := trackAll ticks (beatjumpRate initialState) in
  let r' := fst (trackBeatjumpRate deck now r) in
  (forall d m, multiplier r !! d = Some m -> jumpSize m)
  /\ (exists m', multiplier r' !! deck = Some m' /\ jumpSize m' /\
                 forall m, multiplier r !! deck = Some m -> m' <= 2 * m)
  /\ (forall d, d <> deck ->
        multiplier r' !! d = multiplier r !! d /\ lastTime r' !! d = lastTime r !! d).
Proof.
  cbv zeta.
  assert (Hok : trackerOk (trackAll ticks (beatjumpRate initialState))).
  { apply trackerOk_trackAll. intros d. unfold noLastTime. cbn [initialState beatjumpRate
      lastTime multiplier]. rewrite !lookup_empty. split; [discriminate|discriminate]. }
  set (r := trackAll ticks (beatjumpRate initialState)) in *.
  split; [intros d; apply Hok|]. split.
  - destruct (tick_keeps_jump_size deck now r (proj1 (Hok deck)) (proj2 (Hok deck)))
      as (_ & m' & Hm' & Hsize). cbv zeta in *.
    exists m'. split; [exact Hm'|]. split; [exact Hsize|].
    intros m Hm. pose proof (proj2 (Hok deck) m Hm) as Hjs.
    destruct (noLastTime r deck) eqn:Hfirst.
    + destruct (first_tick deck now r Hfirst) as [_ H2]. cbv zeta in H2.
      rewrite H2 in Hm'. injection Hm' as <-. unfold jumpSize in Hjs. lia.
    + unfold noLastTime in Hfirst.
      destruct (lastTime r !! deck) as [t|] eqn:Ht; [|discriminate].
      apply Z.eqb_neq in Hfirst.
      destruct (later_tick deck now t m r Ht Hfirst Hm) as [_ H2]. cbv zeta in H2.
      rewrite H2 in Hm'. injection Hm' as <-.
      unfold jumpSize, nextMultiplier in *.
      repeat match goal with |- context [if ?b then _ else _] => destruct b eqn:? end; lia.
  - intros d Hne.
    destruct (tick_leaves_other_decks deck now r d Hne) as [Ht Hm]. cbv zeta in *.
    split; assumption.
Qed.

(** X7: once a deck has ticked, its next tick follows the interval since
    the last one: under 50 ms the jump size doubles up to 8, under 100 ms
    it is raised to 2 if it was 1, up to 150 ms it is kept, and past
    150 ms it falls back to 1. *)
Theorem later_ticks_follow_the_interval (deck : string) (now t m : Z) (r : BeatjumpRate) :
  lastTime r !! deck = Some t -> t <> 0 -> multiplier r !! deck = Some m -> jumpSize m ->
  let r' := fst (trackBeatjumpRate deck now r) in
  let dt := now - t in
  lastTime r' !! deck = Some now
  /\ exists m', multiplier r' !! deck = Some m'
     /\ (dt < 50 -> m' = Z.min 8 (2 * m))
     /\ (50 <= dt < 100 -> m' = Z.max 2 m)
     /\ (100 <= dt <= 150 -> m' = m)
     /\ (150 < dt -> m' = 1).
Proof.
  intros Ht Hnz Hm Hjs. cbv zeta.
  destruct (later_tick deck now t m r Ht Hnz Hm) as [Ht' Hm']. cbv zeta in *.
  split; [exact Ht'|]. eexists. split; [exact Hm'|].
  unfold jumpSize, nextMultiplier in *.
  repeat match goal with |- context [if ?b then _ else _] => destruct b eqn:? end; lia.
Qed.

End RateTrackerInvariant.

(** A deck at jump size 4 that ticks again after 30 ms. *)
Lemma later_ticks_follow_the_interval_witness :
  let r := {| lastTime := {["[Channel1]" := 1000]}; multiplier := {["[Channel1]" := 4]} |} in
  lastTime r !! "[Channel1]" = Some 1000 /\ 1000 <> 0 /\
  multiplier r !! "[Channel1]" = Some 4 /\ jumpSize 4 /\
  multiplier (fst (trackBeatjumpRate "[Channel1]" 1030 r)) !! "[Channel1]" = Some 8.
Proof.
  cbv zeta.
  assert (Hjs : jumpSize 4) by (unfold jumpSize; lia).
  set (r := {| lastTime := {["[Channel1]" := 1000]};
               multiplier := {["[Channel1]" := 4]} |}).
  assert (Ht : lastTime r !! "[Channel1]" = Some 1000) by reflexivity.
  assert (Hm : multiplier r !! "[Channel1]" = Some 4) by reflexivity.
  split; [exact Ht|]. split; [lia|]. split; [exact Hm|]. split; [exact Hjs|].
  destruct (later_ticks_follow_the_interval "[Channel1]" 1030 1000 4 r
              Ht ltac:(lia) Hm Hjs) as (_ & m' & Hm' & H50 & _).
  cbv zeta in *. rewrite Hm'. f_equal. rewrite H50 by lia. reflexivity.
Defined.
(** * Values written to the engine stay within their limits *)

Section WrittenValues.

Implicit Types a b x lo hi : JS.number.

Lemma SFcompare_refl a : a <> JS.NaN -> SFcompare a a = Some Eq.
Proof.
  destruct a as [[]|[]| |[] m e]; simpl; intros H; try reflexivity;
    try (now destruct H); now rewrite Z.compare_refl, Pos.compare_cont_refl.
Qed.

Lemma le_of_compare a b :
  a <=! b = match SFcompare a b with Some Lt | Some Eq => true | _ => false end.
Proof. reflexivity. Qed.

Lemma le_not_nan a b : a <=! b = true -> a <> JS.NaN /\ b <> JS.NaN.
Proof.
  rewrite le_of_compare. destruct a as [[]|[]| |[] m e], b as [[]|[]| |[] m' e'];
    simpl; intros H; unfold JS.NaN; split; congruence.
Qed.

(** [Math.min(hi, x)] of a number is a number not above [hi], and it is
    [x] or [hi]. *)
Lemma min_below hi x :
  hi <> JS.NaN -> x <> JS.NaN ->
  JS.Math_min hi x <=! hi = true /\ (JS.Math_min hi x = x \/ JS.Math_min hi x = hi).
Proof.
  intros Hhi Hx. unfold JS.Math_min. rewrite !le_of_compare.
  destruct (SFcompare hi x) as [[]|] eqn:E.
  - assert (Hxh : SFcompare x hi = Some Eq) by (rewrite SFcompare_swap, E; reflexivity).
    destruct hi as [[]|[]| |[] m e], x as [[]|[]| |[] m' e']; try discriminate;
      try (rewrite Hxh; auto); rewrite ?SFcompare_refl by assumption; auto.
  - rewrite SFcompare_refl by assumption. auto.
  - rewrite SFcompare_swap, E. auto.
  - destruct (SFcompare_None _ _ E); contradiction.
Qed.

(** [Math.max(lo, y)] of a number is a number not below [lo], and it is
    [y] or [lo]. *)
Lemma max_above lo y :
  lo <> JS.NaN -> y <> JS.NaN ->
  lo <=! JS.Math_max lo y = true /\ (JS.Math_max lo y = y \/ JS.Math_max lo y = lo).
Proof.
  intros Hlo Hy. unfold JS.Math_max. rewrite !le_of_compare.
  destruct (SFcompare lo y) as [[]|] eqn:E.
  - destruct lo as [[]|[]| |[] m e], y as [[]|[]| |[] m' e']; try discriminate;
      try (rewrite E; auto); rewrite ?SFcompare_refl by assumption; auto.
  - rewrite E. auto.
  - rewrite SFcompare_refl by assumption. auto.
  - destruct (SFcompare_None _ _ E); contradiction.
Qed.

(** [Math.max(lo, Math.min(hi, x))] of a number lies between [lo] and
    [hi]; of [NaN] it is [NaN]. *)
Lemma max_min_bounds lo hi x :
  lo <=! hi = true ->
  let r := JS.Math_max lo (JS.Math_min hi x) in
  (x <> JS.NaN -> lo <=! r = true /\ r <=! hi = true) /\ (x = JS.NaN -> r = JS.NaN).
Proof.
  intros Hlh. cbv zeta. destruct (le_not_nan _ _ Hlh) as [Hlo Hhi]. split.
  - intros Hx. destruct (min_below hi x Hhi Hx) as [Hle Hmin].
    assert (Hy : JS.Math_min hi x <> JS.NaN) by (destruct Hmin as [-> | ->]; assumption).
    destruct (max_above lo _ Hlo Hy) as [Hge Hmax].
    split; [exact Hge|]. destruct Hmax as [-> | ->]; assumption.
  - intros ->. destruct hi as [[]|[]| |[] m e], lo as [[]|[]| |[] m' e']; reflexivity.
Qed.

(** X8: the zoom a zoom motion leaves in the engine lies between
    [MIN_ZOOM] and [MAX_ZOOM] whenever the scaled zoom is a number at all;
    when it is [NaN], [NaN] is what is written. *)
Theorem zoom_stays_within_limits (deck : string) (direction speed : JS.number) (w : World) :
  let z := engine_getValue deck "waveform_zoom" w in
  let direction' := invertIf (reverseDirection (config w)) direction in
  let scaled := z *! (JS.lit_1 +! (direction' *! speed *! JS.lit_0_05)) in
  let z' := engine_getValue deck "waveform_zoom" (handleZoom deck direction speed w) in
  (scaled <> JS.NaN -> HARDWARE.MIN_ZOOM <=! z' = true /\ z' <=! HARDWARE.MAX_ZOOM = true)
  /\ (scaled = JS.NaN -> z' = JS.NaN).
Proof.
  cbv zeta. rewrite zoom_after_handleZoom. unfold zoomStep. rewrite <- zoom_clamp.
  apply max_min_bounds. reflexivity.
Qed.

Lemma superknob_after_handleSuperknob deck direction speed w w' :
  handleSuperknob deck direction speed w = Some w' ->
  let control := "[QuickEffectRack1_" +:+ deck +:+ "]" in
  let newValue :=
    JS.Math_max JS.lit_0
      (JS.Math_min JS.lit_1
         (engine_getValue control "super1" w +! direction *! JS.lit_0_001 *! speed)) in
  w' = showSuperknobFeedback deck newValue (engine_setValue control "super1" newValue w)
  /\ engine_getValue control "super1" w' = newValue.
Proof.
  unfold handleSuperknob. destruct (hasDigit deck); [|discriminate].
  intros [= <-]. cbv zeta. split; [reflexivity|].
  match goal with |- context [showSuperknobFeedback ?d ?v ?w1] =>
    destruct (showSuperknobFeedback_frame d v w1) as (Hc & _) end.
  cbv zeta in Hc. unfold engine_getValue at 1. rewrite Hc.
  cbn [controls engine_setValue]. rewrite !String.eqb_refl. reflexivity.
Qed.

(** X9: a superknob motion on a deck whose name holds a digit writes
    [super1] of that deck's quick effect rack and leaves it between 0 and
    1 whenever the moved value is a number; on a deck name without a
    digit the handler throws before anything is written. *)
Theorem superknob_stays_in_unit_interval (deck : string) (direction speed : JS.number)
    (w : World) :
  let control := "[QuickEffectRack1_" +:+ deck +:+ "]" in
  let moved := engine_getValue control "super1" w +! direction *! JS.lit_0_001 *! speed in
  (hasDigit deck = false -> handleSuperknob deck direction speed w = None)
  /\ (hasDigit deck = true ->
      exists w' v', handleSuperknob deck direction speed w = Some w'
        /\ engine_getValue control "super1" w' = v'
        /\ (exists rest, output w' = output w ++ setValue control "super1" v' :: rest)
        /\ (moved <> JS.NaN -> JS.lit_0 <=! v' = true /\ v' <=! JS.lit_1 = true)
        /\ (moved = JS.NaN -> v' = JS.NaN)).
Proof.
  cbv zeta. split.
  - intros H. unfold handleSuperknob. now rewrite H.
  - intros H.
    destruct (handleSuperknob deck direction speed w) as [w'|] eqn:E;
      [|unfold handleSuperknob in E; rewrite H in E; discriminate].
    destruct (superknob_after_handleSuperknob _ _ _ _ _ E) as [Hw' Hv]. cbv zeta in *.
    eexists w', _. split; [reflexivity|]. split; [exact Hv|]. split.
    + rewrite Hw'.
      match goal with |- context [showSuperknobFeedback ?d ?v ?w1] =>
        destruct (showSuperknobFeedback_output d v w1) as [rest Hout] end.
      exists rest. rewrite Hout. cbn [output engine_setValue].
      rewrite <- app_assoc. reflexivity.
    + apply max_min_bounds. reflexivity.
Qed.

End WrittenValues.
(** * The superknob pad count *)

Section SuperknobPads.

(** [Math.max(0, Math.min(16, r))]. *)
Let padsOf (r : JS.number) : JS.number := JS.Math_max JS.lit_0 (JS.Math_min JS.lit_16 r).

Lemma abs_not_nan x : x <> JS.NaN -> JS.Math_abs x <> JS.NaN.
Proof. destruct x; simpl; unfold JS.NaN; congruence. Qed.

Lemma finite_sub_not_nan s m e x : x <> JS.NaN -> S754_finite s m e -! x <> JS.NaN.
Proof.
  intros Hx. unfold JS.sub, SF64sub, SFsub.
  destruct x as [sx|sx| |sx mx ex]; try discriminate; [congruence|].
  unfold binary_normalize.
  match goal with |- context [match ?z with Z0 => _ | Zpos _ => _ | Zneg _ => _ end] =>
    destruct z as [|p|p] end; [discriminate| |].
  - unfold binary_round. destruct (shl_align _ _ _) as [mz ez].
    pose proof (binary_round_aux_shape false (Zpos mz) ez loc_Exact ltac:(lia)) as H.
    intros E. rewrite E in H. exact H.
  - unfold binary_round. destruct (shl_align _ _ _) as [mz ez].
    pose proof (binary_round_aux_shape true (Zpos mz) ez loc_Exact ltac:(lia)) as H.
    intros E. rewrite E in H. exact H.
Qed.

Lemma round_not_nan x : x <> JS.NaN -> JS.Math_round x <> JS.NaN.
Proof.
  intros Hx. unfold JS.Math_round. destruct x as [sx|sx| |sx mx ex]; try assumption.
  destruct (0 <=? ex); [assumption|]. cbv zeta.
  destruct (Z.shiftr _ _) as [|q|q]; [discriminate|apply of_Z_not_nan..].
Qed.

Lemma superknobClampedPads_not_nan v : v <> JS.NaN -> superknobClampedPads v <> JS.NaN.
Proof.
  intros Hv. unfold superknobClampedPads. cbv zeta.
  apply max_not_nan; [discriminate|]. apply min_not_nan; [discriminate|].
  apply round_not_nan, mul_finite_not_nan, finite_sub_not_nan, mul_finite_not_nan,
    abs_not_nan, sub_finite_not_nan, Hv.
Qed.

Lemma pads_of_wide m e : -48 < e -> padsOf (S754_finite false m e) = JS.lit_16.
Proof.
  intros He. unfold padsOf, JS.Math_min, JS.lit_16. cbn [SFcompare].
  destruct (Z.compare_spec (-48) e); try lia. reflexivity.
Qed.

Lemma pad_count_cases k :
  0 <= k <= 16 ->
  k = 0 \/ k = 1 \/ k = 2 \/ k = 3 \/ k = 4 \/ k = 5 \/ k = 6 \/ k = 7 \/
  k = 8 \/ k = 9 \/ k = 10 \/ k = 11 \/ k = 12 \/ k = 13 \/ k = 14 \/ k = 15 \/ k = 16.
Proof. lia. Qed.

Ltac each_pad_count k Hk :=
  destruct (pad_count_cases k Hk) as
    [->|[->|[->|[->|[->|[->|[->|[->|[->|[->|[->|[->|[->|[->|[->|[->| ->]]]]]]]]]]]]]]]].

Lemma pads_of_small k : 0 <= k <= 16 -> padsOf (JS.of_Z k) = JS.of_Z k.
Proof. intros Hk. each_pad_count k Hk; reflexivity. Qed.

Lemma to_Z_of_pad_count k : 0 <= k <= 16 -> JS.to_Z (JS.of_Z k) = k.
Proof. intros Hk. each_pad_count k Hk; reflexivity. Qed.

(** An integer above 16 has at most five bits and is then one of 17 to
    31, or has six bits or more. *)
Lemma above_sixteen p :
  Zpos p <= 16 \/ (17 <= Zpos p <= 31) \/ 6 <= Zpos (digits2_pos p).
Proof.
  destruct p as [[[[[p|p|]|[p|p|]|]|[[p|p|]|[p|p|]|]|]|[[[p|p|]|[p|p|]|]|[[p|p|]|[p|p|]|]|]|]
                |[[[[p|p|]|[p|p|]|]|[[p|p|]|[p|p|]|]|]|[[[p|p|]|[p|p|]|]|[[p|p|]|[p|p|]|]|]|]|];
    try (left; lia); try (right; left; lia); right; right; cbn [digits2_pos]; lia.
Qed.

Lemma pads_of_integer z : exists k, 0 <= k <= 16 /\ padsOf (JS.of_Z z) = JS.of_Z k.
Proof.
  destruct z as [|p|p].
  - exists 0. split; [lia|reflexivity].
  - destruct (above_sixteen p) as [Hs|[Hm|Hw]].
    + exists (Zpos p). split; [lia|]. apply pads_of_small. lia.
    + exists 16. split; [lia|].
      assert (Hp : Zpos p = 17 \/ Zpos p = 18 \/ Zpos p = 19 \/ Zpos p = 20 \/ Zpos p = 21 \/
                   Zpos p = 22 \/ Zpos p = 23 \/ Zpos p = 24 \/ Zpos p = 25 \/ Zpos p = 26 \/
                   Zpos p = 27 \/ Zpos p = 28 \/ Zpos p = 29 \/ Zpos p = 30 \/ Zpos p = 31)
        by lia.
      repeat (destruct Hp as [Hp|Hp]; [rewrite Hp; reflexivity|]). rewrite Hp. reflexivity.
    + unfold JS.of_Z, binary_normalize.
      pose proof (binary_round_shape false p) as H.
      destruct (binary_round prec emax false p 0) as [s|s| |s m e]; try contradiction.
      * subst s. exists 0. split; [lia|reflexivity].
      * subst s. exists 16. split; [lia|reflexivity].
      * destruct H as [-> He]. exists 16. split; [lia|]. apply pads_of_wide.
        unfold prec in He. lia.
  - unfold JS.of_Z, binary_normalize.
    pose proof (binary_round_shape true p) as H.
    destruct (binary_round prec emax true p 0) as [s|s| |s m e]; try contradiction.
    * subst s. exists 0. split; [lia|reflexivity].
    * subst s. exists 0. split; [lia|reflexivity].
    * destruct H as [-> He]. exists 0. split; [lia|reflexivity].
Qed.

(** The pad count is NaN or one of the integers 0 to 16. *)
Lemma pads_of_round y :
  padsOf (JS.Math_round y) = JS.NaN \/
  exists k, 0 <= k <= 16 /\ padsOf (JS.Math_round y) = JS.of_Z k.
Proof.
  destruct y as [[]|[]| |s m e].
  - right. exists 0. split; [lia|reflexivity].
  - right. exists 0. split; [lia|reflexivity].
  - right. exists 0. split; [lia|reflexivity].
  - right. exists 16. split; [lia|reflexivity].
  - left. reflexivity.
  - unfold JS.Math_round. destruct (0 <=? e) eqn:He.
    + apply Z.leb_le in He. right. destruct s.
      * exists 0. split; [lia|reflexivity].
      * exists 16. split; [lia|]. apply pads_of_wide. lia.
    + cbv zeta. destruct (Z.shiftr _ _) as [|q|q].
      * right. exists 0. split; [lia|]. destruct s; reflexivity.
      * right. apply pads_of_integer.
      * right. apply pads_of_integer.
Qed.

Lemma superknobClampedPads_range v :
  v <> JS.NaN -> exists k, 0 <= k <= 16 /\ superknobClampedPads v = JS.of_Z k.
Proof.
  intros Hv. pose proof (superknobClampedPads_not_nan v Hv) as Hn.
  unfold superknobClampedPads in *. cbv zeta in *.
  match goal with |- context [JS.Math_round ?y] => destruct (pads_of_round y) as [H|H] end.
  - unfold padsOf in H. contradiction.
  - exact H.
Qed.

(** Comparing the loop index with the pad count is comparing integers. *)
Lemma index_lt_pads i k :
  0 <= i <= 16 -> 0 <= k <= 16 -> (JS.of_Z i <! JS.of_Z k) = (i <? k).
Proof.
  intros Hi Hk. each_pad_count k Hk; each_pad_count i Hi; reflexivity.
Qed.

(** For a pad count [k] the target set is the first [k] pads. *)
Lemma superknobTargetPadStates_prefix k : forall pads i acc,
  0 <= k <= 16 -> 0 <= i -> i + Z.of_nat (length pads) <= 16 ->
  superknobTargetPadStates (JS.of_Z k) i pads acc =
  lightAll (take (Z.to_nat (k - i)) pads) acc.
Proof.
  induction pads as [|pad rest IH]; intros i acc Hk Hi Hlen.
  - now rewrite take_nil.
  - cbn [superknobTargetPadStates length] in *.
    rewrite index_lt_pads by lia. destruct (Z.ltb_spec i k) as [Hlt|Hge].
    + rewrite IH by lia.
      replace (Z.to_nat (k - i)) with (S (Z.to_nat (k - (i + 1)))) by lia.
      reflexivity.
    + replace (Z.to_nat (k - i)) with 0%nat by lia. reflexivity.
Qed.

(** Values that [===] holds equal have the same target set. *)
Lemma superknobTarget_strict_eq l v w :
  l ===! v = true -> superknobTarget l w = superknobTarget v w.
Proof.
  intros H. unfold JS.strict_eq, SFeqb in H.
  destruct (SFcompare l v) as [[]|] eqn:E; try discriminate.
  destruct (SFcompare_Eq _ _ E) as [->|(s & t & -> & ->)]; [reflexivity|].
  destruct s, t; reflexivity.
Qed.

(** Whatever the configured rotation, either order lists sixteen distinct
    pads. *)
Lemma generated_orders cfg v w :
  padLayout w = generateLayout cfg ->
  NoDup (superknobOrder v w) /\ length (superknobOrder v w) = 16%nat.
Proof.
  intros Hlayout.
  unfold superknobOrder, getBottomLeftToTopRightOrder, getTopRightToBottomLeftOrder.
  rewrite Hlayout. unfold generateLayout, rotateGrid. cbn [GRID].
  pose proof (rotationCount_le (rotation cfg)) as Hn.
  destruct (v <! JS.lit_0_5);
    destruct (rotationCount (rotation cfg)) as [|[|[|[|[|n]]]]]; try lia;
    destruct (String.eqb (rotationDirection cfg) "clockwise");
    (split; [apply (bool_decide_unpack _); vm_compute; exact I | reflexivity]).
Qed.

Lemma showSuperknobFeedback_same deck v w :
  unchangedSuperknob deck v w = true ->
  let fb := superknobFeedback (state w) in
  superknobFeedback (state (showSuperknobFeedback deck v w)) =
    {| active := active fb; feedbackDeck := feedbackDeck fb; timer := Some (nextTimer w);
       lastShown := lastShown fb; currentPadStates := currentPadStates fb |}
  /\ output (showSuperknobFeedback deck v w) =
     output w
     ++ match timer fb with
        | Some id => if id =? 0 then [] else [stopTimer id]
        | None => []
        end
     ++ [beginTimer (nextTimer w) HARDWARE.ZOOM_FEEDBACK_DURATION endSuperknobFeedback].
Proof.
  unfold unchangedSuperknob. intros Hsame. cbv zeta.
  unfold showSuperknobFeedback. rewrite Hsame.
  destruct w as [cfg pl em [np zf [a d [t|] l c] br] ctl nt out];
    [destruct (t =? 0) eqn:Et|];
    unfold stopFeedbackTimer, withSuperknobFeedback, withState, engine_beginTimer,
      engine_stopTimer, emit;
    cbn [timer currentPadStates superknobFeedback state output nextTimer padLayout config
         controls encoderMappings];
    rewrite ?Et;
    cbn [timer currentPadStates superknobFeedback state output nextTimer padLayout config
         controls encoderMappings];
    rewrite <- ?app_assoc; repeat split; reflexivity.
Qed.

(** X10: for every superknob value [v] that is a number, after
    [showSuperknobFeedback] the pads lit by the superknob session are the
    first [n] pads of the order chosen for [v] (from the bottom left for
    values under 0.5, from the top right otherwise), where [n] is the
    count the renderer computes, an integer from 0 to 16: sixteen at the
    centre 0.5, eight at 0.25 and at 0.75, none at 0 and at 1.  The
    session is left in a state of which the same holds again. *)
Theorem superknob_feedback_lights_towards_centre (w : World) (cfg : Config)
    (deck : string) (v : JS.number) :
  padLayout w = generateLayout cfg -> superknobSessionOk w -> v <> JS.NaN ->
  let w' := showSuperknobFeedback deck v w in
  let lit := litPads (currentPadStates (superknobFeedback (state w'))) in
  let n := JS.to_Z (superknobClampedPads v) in
  0 <= n <= 16
  /\ lit ≡ₚ take (Z.to_nat n) (superknobOrder v w)
  /\ Z.of_nat (length lit) = n
  /\ superknobSessionOk w'
  /\ map (fun x => JS.to_Z (superknobClampedPads x))
         [JS.lit_0; JS.of_Z 1 /! JS.lit_4; JS.lit_0_5; JS.of_Z 3 /! JS.lit_4; JS.lit_1]
     = [0; 8; 16; 8; 0].
Proof.
  intros Hlayout [Hlit Hshown] Hv. cbv zeta.
  destruct (superknobClampedPads_range v Hv) as (k & Hk & Hpads).
  rewrite Hpads, to_Z_of_pad_count by assumption.
  destruct (generated_orders cfg v w Hlayout) as [Hnd Hlen].
  set (order := superknobOrder v w) in *.
  assert (Htarget : superknobTarget v w = lightAll (take (Z.to_nat k) order) ∅).
  { unfold superknobTarget. fold (superknobOrder v w). fold order. rewrite Hpads.
    rewrite superknobTargetPadStates_prefix by lia. now rewrite Z.sub_0_r. }
  destruct (showSuperknobFeedback_frame deck v w) as (_ & _ & _ & Hpl & _).
  cbv zeta in Hpl.
  assert (Hpads' : currentPadStates (superknobFeedback (state (showSuperknobFeedback deck v w)))
                   = lightAll (take (Z.to_nat k) order) ∅
                   /\ superknobSessionOk (showSuperknobFeedback deck v w)).
  { destruct (unchangedSuperknob deck v w) eqn:Hpath.
    - destruct (showSuperknobFeedback_same deck v w Hpath) as (Hfb & _).
      cbv zeta in Hfb. unfold unchangedSuperknob, sameShown in Hpath. cbv zeta in Hpath.
      apply andb_true_iff in Hpath as [Hpath _].
      apply andb_true_iff in Hpath as [Hactive Heq].
      destruct (lastShown (superknobFeedback (state w))) as [l|] eqn:El; [|discriminate].
      split.
      + rewrite Hfb. cbn [currentPadStates].
        rewrite (Hshown Hactive l eq_refl).
        now rewrite (superknobTarget_strict_eq l v w Heq).
      + unfold superknobSessionOk. rewrite Hfb. cbn [currentPadStates active lastShown].
        split; [assumption|]. intros Ha l' Hl'.
        rewrite (Hshown Ha l' Hl'). unfold superknobTarget, getBottomLeftToTopRightOrder,
          getTopRightToBottomLeftOrder. now rewrite Hpl.
    - destruct (showSuperknobFeedback_update deck v w Hpath) as (_ & Hfb).
      cbv zeta in Hfb.
      rewrite (differentialUpdate_result _ _ (allLit_superknobTarget v w) Hlit) in Hfb.
      rewrite Htarget in Hfb. split.
      + now rewrite Hfb.
      + unfold superknobSessionOk. rewrite Hfb. cbn [currentPadStates active lastShown].
        split.
        * intros j b. rewrite lookup_lightAll, lookup_empty.
          destruct (decide _); congruence.
        * intros _ c [= <-]. rewrite <- Htarget.
          unfold superknobTarget, getBottomLeftToTopRightOrder,
            getTopRightToBottomLeftOrder. now rewrite Hpl. }
  destruct Hpads' as [Hpads' Hok'].
  assert (Hperm : litPads (currentPadStates
                    (superknobFeedback (state (showSuperknobFeedback deck v w))))
                  ≡ₚ take (Z.to_nat k) order).
  { rewrite Hpads'. apply litPads_lightAll.
    exact (sublist_NoDup _ _ Hnd (sublist_take order _)). }
  split; [lia|]. split; [exact Hperm|]. split; [|split; [exact Hok'|reflexivity]].
  rewrite Hperm, length_take, Hlen. lia.
Qed.

End SuperknobPads.

(** A superknob at 0.75 shown by the fresh script: eight pads, counted
    from the top right. *)
Lemma superknob_feedback_lights_towards_centre_witness :
  let v := JS.of_Z 3 /! JS.lit_4 in
  let w' := showSuperknobFeedback "[Channel1]" v freshWorld in
  let lit := litPads (currentPadStates (superknobFeedback (state w'))) in
  padLayout freshWorld = generateLayout defaultConfig /\ superknobSessionOk freshWorld /\
  v <> JS.NaN /\
  lit ≡ₚ take (Z.to_nat (JS.to_Z (superknobClampedPads v))) (superknobOrder v freshWorld) /\
  take 8 (superknobOrder v freshWorld) = [39; 43; 47; 51; 38; 42; 46; 50].
Proof.
  cbv zeta.
  assert (Hok : superknobSessionOk freshWorld).
  { split; [apply allLit_empty|discriminate]. }
  assert (Hv : JS.of_Z 3 /! JS.lit_4 <> JS.NaN) by (vm_compute; discriminate).
  split; [reflexivity|]. split; [exact Hok|]. split; [exact Hv|].
  split; [|vm_compute; reflexivity].
  exact (proj1 (proj2 (superknob_feedback_lights_towards_centre freshWorld defaultConfig
                         "[Channel1]" (JS.of_Z 3 /! JS.lit_4) eq_refl Hok Hv))).
Defined.
(** * One timer per feedback session *)

Section FeedbackTimers.

Lemma allPadsOff_leds w : List.filter isLedMessage (allPadsOff w) = allPadsOff w.
Proof.
  unfold allPadsOff. induction (NOTES (padLayout w)) as [|n l IH]; [reflexivity|].
  cbn [flat_map setPadLED app List.filter isLedMessage]. now rewrite IH.
Qed.

Lemma showZoomFeedback_timer deck z w :
  let w' := showZoomFeedback deck z w in
  timer (zoomFeedback (state w')) = Some (nextTimer w) /\ nextTimer w' = nextTimer w + 1.
Proof.
  cbv zeta. unfold showZoomFeedback.
  destruct (differentialUpdate _ _) as [cur' leds].
  destruct w as [cfg pl em [np [a d [t|] l c] sf br] ctl nt out];
    [destruct (t =? 0) eqn:Et|];
    unfold stopFeedbackTimer, withZoomFeedback, withState, engine_beginTimer,
      engine_stopTimer, emit;
    cbn [timer currentPadStates zoomFeedback state output nextTimer padLayout config
         controls encoderMappings active lastShown feedbackDeck];
    rewrite ?Et;
    repeat match goal with |- context [if ?b then _ else _] => destruct b end;
    split; reflexivity.
Qed.

Lemma showSuperknobFeedback_timer deck v w :
  let w' := showSuperknobFeedback deck v w in
  timer (superknobFeedback (state w')) = Some (nextTimer w)
  /\ nextTimer w' = nextTimer w + 1.
Proof.
  cbv zeta. unfold showSuperknobFeedback.
  destruct (differentialUpdate _ _) as [cur' leds].
  destruct w as [cfg pl em [np zf [a d [t|] l c] br] ctl nt out];
    [destruct (t =? 0) eqn:Et|];
    unfold stopFeedbackTimer, withSuperknobFeedback, withState, engine_beginTimer,
      engine_stopTimer, emit;
    cbn [timer currentPadStates superknobFeedback state output nextTimer padLayout config
         controls encoderMappings active lastShown feedbackDeck];
    rewrite ?Et;
    repeat match goal with |- context [if ?b then _ else _] => destruct b end;
    split; reflexivity.
Qed.

Lemma showZoomFeedback_same_output deck z w :
  unchangedZoom deck z w = true ->
  output (showZoomFeedback deck z w) =
    output w ++ stopsOf (zoomFeedback (state w))
    ++ [beginTimer (nextTimer w) (zoomFeedbackTimeout w) endZoomFeedback].
Proof.
  unfold unchangedZoom. intros Hsame. cbv zeta.
  unfold showZoomFeedback, stopsOf. rewrite Hsame.
  destruct w as [cfg pl em [np [a d [t|] l c] sf br] ctl nt out];
    [destruct (t =? 0) eqn:Et|];
    unfold stopFeedbackTimer, withZoomFeedback, withState, engine_beginTimer,
      engine_stopTimer, emit, zoomFeedbackTimeout;
    cbn [timer currentPadStates zoomFeedback state output nextTimer padLayout config
         controls encoderMappings];
    rewrite ?Et;
    cbn [timer currentPadStates zoomFeedback state output nextTimer padLayout config
         controls encoderMappings];
    rewrite <- ?app_assoc; reflexivity.
Qed.

(** X11: every [showZoomFeedback] and every [showSuperknobFeedback] stops
    the timer its session holds, if any, sends LED messages only, and
    then starts exactly one timer, whose handle the session records: for
    the zoom session with the configured duration, 4000 ms when that is 0,
    for the superknob session always with 4000 ms.  While the session is
    active for the same deck and what is shown has not changed, no LED
    message is sent at all and the session keeps its pads, deck and shown
    value. *)
Theorem feedback_sessions_hold_one_timer (deck : string) (x : JS.number) (w : World) :
  (let w' := showZoomFeedback deck x w in
   let fb := zoomFeedback (state w) in
   (exists leds,
      output w' = output w ++ stopsOf fb ++ leds
                  ++ [beginTimer (nextTimer w) (zoomFeedbackTimeout w) endZoomFeedback]
      /\ List.filter isLedMessage leds = leds
      /\ (unchangedZoom deck x w = true -> leds = []))
   /\ timer (zoomFeedback (state w')) = Some (nextTimer w)
   /\ nextTimer w' = nextTimer w + 1
   /\ (zoomFeedbackTimeout w = if zoomFeedbackDuration (config w) =? 0 then 4000
                                else zoomFeedbackDuration (config w))
   /\ (unchangedZoom deck x w = true ->
       zoomFeedback (state w') =
         {| active := true; feedbackDeck := Some deck; timer := Some (nextTimer w);
            lastShown := lastShown fb; currentPadStates := currentPadStates fb |}))
  /\ (let w' := showSuperknobFeedback deck x w in
      let fb := superknobFeedback (state w) in
      (exists leds,
         output w' = output w ++ stopsOf fb ++ leds
                     ++ [beginTimer (nextTimer w) 4000 endSuperknobFeedback]
         /\ List.filter isLedMessage leds = leds
         /\ (unchangedSuperknob deck x w = true -> leds = []))
      /\ timer (superknobFeedback (state w')) = Some (nextTimer w)
      /\ nextTimer w' = nextTimer w + 1
      /\ (unchangedSuperknob deck x w = true ->
          superknobFeedback (state w') =
            {| active := true; feedbackDeck := Some deck; timer := Some (nextTimer w);
               lastShown := lastShown fb; currentPadStates := currentPadStates fb |})).
Proof.
  split; cbv zeta.
  - destruct (showZoomFeedback_timer deck x w) as [Ht Hn]. cbv zeta in Ht, Hn.
    split; [|split; [exact Ht|split; [exact Hn|split; [reflexivity|]]]].
    + destruct (unchangedZoom deck x w) eqn:Hpath.
      * exists []. rewrite (showZoomFeedback_same_output deck x w Hpath).
        repeat split; reflexivity.
      * destruct (showZoomFeedback_update deck x w Hpath) as (Hout & _).
        cbv zeta in Hout.
        exists ((if decide (Object_keys (currentPadStates (zoomFeedback (state w))) = [])
                 then allPadsOff w else [])
                ++ snd (differentialUpdate (zoomTarget x w)
                          (currentPadStates (zoomFeedback (state w))))).
        split; [|split; [|discriminate]].
        -- rewrite Hout. unfold stopsOf. rewrite <- app_assoc. reflexivity.
        -- rewrite List.filter_app, (ledMessages_of_update _ _ (allLit_zoomTarget x w)).
           destruct (decide _); [now rewrite allPadsOff_leds|reflexivity].
    + intros Hpath. destruct (showZoomFeedback_same deck x w Hpath) as (Hfb & _).
      cbv zeta in Hfb. rewrite Hfb. unfold unchangedZoom, sameDeck in Hpath.
      cbv zeta in Hpath. apply andb_true_iff in Hpath as [Hpath Hdeck].
      apply andb_true_iff in Hpath as [-> _].
      destruct (feedbackDeck (zoomFeedback (state w))) as [d|]; [|discriminate].
      apply String.eqb_eq in Hdeck as ->. reflexivity.
  - destruct (showSuperknobFeedback_timer deck x w) as [Ht Hn]. cbv zeta in Ht, Hn.
    split; [|split; [exact Ht|split; [exact Hn|]]].
    + destruct (unchangedSuperknob deck x w) eqn:Hpath.
      * exists []. destruct (showSuperknobFeedback_same deck x w Hpath) as (_ & Hout).
        cbv zeta in Hout. rewrite Hout. repeat split; reflexivity.
      * destruct (showSuperknobFeedback_update deck x w Hpath) as (Hout & _).
        cbv zeta in Hout.
        exists ((if decide (Object_keys (currentPadStates (superknobFeedback (state w))) = [])
                 then allPadsOff w else [])
                ++ snd (differentialUpdate (superknobTarget x w)
                          (currentPadStates (superknobFeedback (state w))))).
        split; [|split; [|discriminate]].
        -- rewrite Hout. unfold stopsOf. rewrite <- app_assoc. reflexivity.
        -- rewrite List.filter_app,
             (ledMessages_of_update _ _ (allLit_superknobTarget x w)).
           destruct (decide _); [now rewrite allPadsOff_leds|reflexivity].
    + intros Hpath. destruct (showSuperknobFeedback_same deck x w Hpath) as (Hfb & _).
      cbv zeta in Hfb. rewrite Hfb. unfold unchangedSuperknob, sameDeck in Hpath.
      cbv zeta in Hpath. apply andb_true_iff in Hpath as [Hpath Hdeck].
      apply andb_true_iff in Hpath as [-> _].
      destruct (feedbackDeck (superknobFeedback (state w))) as [d|]; [|discriminate].
      apply String.eqb_eq in Hdeck as ->. reflexivity.
Qed.

End FeedbackTimers.

(** * A beat-grid motion of magnitude 0 *)

Section BeatgridZero.

Lemma or_else_falsy x y : JS.truthy x = false -> JS.or_else x y = y.
Proof. unfold JS.or_else. now intros ->. Qed.

Lemma zero_speed_is_falsy s : JS.truthy (JS.of_Z 0 *! JS.or_else s JS.lit_1) = false.
Proof. destruct s as [[]|[]| |[] m e]; reflexivity. Qed.

(** X12: a beat-grid increment or decrement whose data byte is 0 moves
    the beat grid by a whole step of 1 or -1, whatever the configured
    beat-grid speed: the speed of 0 it yields is replaced by 1. *)
Theorem beatgrid_zero_byte_moves_one_step (channel : Z) (increment : bool) (now : Z)
    (m : Mapping) (w : World) :
  encoderMappings w !! (channel + 1) = Some m -> type m = beatgrid ->
  processMotion channel increment 0 now w =
    Some (engine_setValue (deck m) "beats_translate_move"
            (JS.of_Z (if increment then 1 else -1)) w).
Proof.
  intros Hm Ht. unfold processMotion. cbv zeta. rewrite Hm, Ht.
  unfold handleBeatgrid. rewrite or_else_falsy by apply zero_speed_is_falsy.
  destruct increment; reflexivity.
Qed.

End BeatgridZero.

(** MIDI channel 13 of the fresh script, a beat-grid encoder. *)
Lemma beatgrid_zero_byte_moves_one_step_witness :
  exists m, encoderMappings freshWorld !! (12 + 1) = Some m /\ type m = beatgrid /\
  processMotion 12 true 0 1000 freshWorld =
    Some (engine_setValue (deck m) "beats_translate_move" (JS.of_Z 1) freshWorld).
Proof.
  eexists. split; [reflexivity|]. split; [reflexivity|].
  exact (beatgrid_zero_byte_moves_one_step 12 true 1000 _ freshWorld eq_refl eq_refl).
Defined.
(** * The timer registry *)

Section TimerRegistry.

Lemma indexOf_None id l : indexOf id l = None <-> id ∉ l.
Proof.
  induction l as [|x l IH]; cbn [indexOf].
  - split; [intros _; apply not_elem_of_nil|reflexivity].
  - rewrite not_elem_of_cons. destruct (Z.eqb_spec x id) as [->|Hne].
    + split; [discriminate|intros [? _]; congruence].
    + destruct (indexOf id l); cbn [fmap option_fmap option_map].
      * split; [discriminate|]. intros [_ H]. now apply IH in H.
      * split; [|reflexivity]. intros _. split; [congruence|]. now apply IH.
Qed.

Lemma indexOf_Some id l i : indexOf id l = Some i -> l !! i = Some id.
Proof.
  revert i. induction l as [|x l IH]; intros i; cbn [indexOf]; [discriminate|].
  destruct (Z.eqb_spec x id) as [->|Hne]; [now intros [= <-]|].
  destruct (indexOf id l) as [j|]; cbn [fmap option_fmap option_map]; [|discriminate].
  intros [= <-]. now apply IH.
Qed.

Lemma indexOf_snoc id l : id ∉ l -> indexOf id (l ++ [id]) = Some (length l).
Proof.
  induction l as [|x l IH]; intros Hid; cbn [indexOf app length].
  - now rewrite Z.eqb_refl.
  - apply not_elem_of_cons in Hid as [Hne Hid].
    rewrite (proj2 (Z.eqb_neq x id)) by congruence. now rewrite IH.
Qed.

Lemma delete_snoc (l : list Z) x : delete (length l) (l ++ [x]) = l.
Proof.
  rewrite delete_take_drop, take_app_length.
  rewrite drop_ge by (rewrite length_app; cbn [length]; lia). apply app_nil_r.
Qed.

Lemma not_elem_of_delete (l : list Z) i x :
  NoDup l -> l !! i = Some x -> x ∉ delete i l.
Proof.
  revert i. induction l as [|y l IH]; intros i Hnd Hi; [discriminate|].
  apply NoDup_cons in Hnd as [Hy Hnd]. destruct i as [|i]; cbn in *.
  - injection Hi as ->. exact Hy.
  - apply not_elem_of_cons. split; [|now apply IH].
    intros ->. apply Hy. eapply list_elem_of_lookup_2, Hi.
Qed.

(** X13: the timer registry holds every handle at most once and never
    the handle 0: registering keeps that, registering a handle twice is
    registering it once, removing a handle just registered gives the list
    back, and after removing a handle it is no longer in the list. *)
Theorem timer_registry_holds_each_handle_once (timerId : Z) (timers : list Z) :
  NoDup timers -> 0 ∉ timers ->
  NoDup (addTimer timerId timers) /\ (0 ∉ addTimer timerId timers)
  /\ (timerId <> 0 -> timerId ∈ addTimer timerId timers)
  /\ addTimer timerId (addTimer timerId timers) = addTimer timerId timers
  /\ (timerId <> 0 -> timerId ∉ timers -> removeTimer timerId (addTimer timerId timers) = timers)
  /\ NoDup (removeTimer timerId timers) /\ (timerId ∉ removeTimer timerId timers)
  /\ addTimer 0 timers = timers.
Proof.
  intros Hnd H0.
  assert (Hadd : forall l, addTimer timerId l =
                 if decide (timerId <> 0 /\ timerId ∉ l) then l ++ [timerId] else l).
  { intros l. unfold addTimer. destruct (Z.eqb_spec timerId 0) as [->|Hnz]; cbn [negb andb].
    - rewrite decide_False by tauto. reflexivity.
    - destruct (decide (timerId ∉ l)) as [Hout|Hin].
      + rewrite bool_decide_eq_true_2 by now apply indexOf_None.
        rewrite decide_True by tauto. reflexivity.
      + rewrite bool_decide_eq_false_2 by now rewrite indexOf_None.
        rewrite decide_False by tauto. reflexivity. }
  split; [|split; [|split; [|split; [|split; [|split; [|split]]]]]].
  - rewrite Hadd. destruct (decide _) as [[_ Hout]|_]; [|assumption].
    apply NoDup_app. split; [assumption|]. split; [|apply NoDup_singleton].
    intros x Hx ->%list_elem_of_singleton. contradiction.
  - rewrite Hadd. destruct (decide _) as [[Hnz _]|_]; [|assumption].
    rewrite not_elem_of_app, not_elem_of_cons. split; [assumption|].
    split; [congruence|apply not_elem_of_nil].
  - intros Hnz. rewrite Hadd. destruct (decide _) as [_|Hno].
    + rewrite elem_of_app, list_elem_of_singleton. now right.
    + destruct (decide (timerId ∈ timers)); [assumption|tauto].
  - rewrite (Hadd timers). destruct (decide _) as [[Hnz Hout]|Hno].
    + rewrite Hadd, decide_False; [reflexivity|].
      intros [_ H]. apply H. rewrite elem_of_app, list_elem_of_singleton. now right.
    + rewrite Hadd, decide_False by assumption. reflexivity.
  - intros Hnz Hout. rewrite Hadd, decide_True by tauto.
    unfold removeTimer. rewrite indexOf_snoc by assumption. apply delete_snoc.
  - unfold removeTimer. destruct (indexOf timerId timers); [|assumption].
    eapply sublist_NoDup; [exact Hnd|apply sublist_delete].
  - unfold removeTimer. destruct (indexOf timerId timers) as [i|] eqn:E.
    + apply not_elem_of_delete; [assumption|now apply indexOf_Some].
    + now apply indexOf_None.
  - reflexivity.
Qed.

End TimerRegistry.

(** Registering the handle 7 beside 3 and 5, and removing it again. *)
Lemma timer_registry_holds_each_handle_once_witness :
  NoDup [3; 5] /\ (0 ∉ [3; 5]) /\ addTimer 7 [3; 5] = [3; 5; 7] /\
  removeTimer 7 (addTimer 7 [3; 5]) = [3; 5].
Proof.
  assert (Hnd : NoDup [3; 5]) by (apply (bool_decide_unpack _); vm_compute; exact I).
  assert (H0 : 0 ∉ [3; 5]) by (apply (bool_decide_unpack _); vm_compute; exact I).
  split; [exact Hnd|]. split; [exact H0|]. split; [reflexivity|].
  destruct (timer_registry_holds_each_handle_once 7 [3; 5] Hnd H0)
    as (_ & _ & _ & _ & Hback & _).
  apply Hback; [lia|]. apply (bool_decide_unpack _); vm_compute; exact I.
Defined.
(** * The hotcue banks *)

Section HotcueBanks.

Lemma assignHotcue_fold channelNum notes : forall acc k,
  NoDup notes ->
  let result := foldl (assignHotcue channelNum) (acc, k) notes in
  snd result = k + Z.of_nat (length notes)
  /\ (forall i note, notes !! i = Some note ->
        fst result !! note = Some (hotcueMapping channelNum (k + Z.of_nat i)))
  /\ (forall note, note ∉ notes -> fst result !! note = acc !! note).
Proof.
  induction notes as [|x notes IH]; intros acc k Hnd; cbv zeta.
  - cbn [foldl fst snd length]. split; [lia|]. split; [intros i note H; discriminate|].
    reflexivity.
  - apply NoDup_cons in Hnd as [Hx Hnd]. cbn [foldl].
    change (assignHotcue channelNum (acc, k) x)
      with (<[x := hotcueMapping channelNum k]> acc, k + 1).
    destruct (IH (<[x := hotcueMapping channelNum k]> acc) (k + 1) Hnd) as (H1 & H2 & H3).
    cbv zeta in H1, H2, H3.
    split; [rewrite H1; cbn [length]; lia|]. split.
    + intros [|i] note Hi; cbn in Hi.
      * injection Hi as ->. rewrite H3 by assumption. rewrite lookup_insert_eq.
        do 2 f_equal. lia.
      * rewrite (H2 i note Hi). do 2 f_equal. lia.
    + intros note [Hne Hout]%not_elem_of_cons. rewrite H3 by assumption.
      now rewrite lookup_insert_ne by congruence.
Qed.

(** What a hotcue bank holds under each note of a generated layout. *)
Lemma hotcue_bank_lookup (cfg : Config) (channelNum : Z) :
  let layout := generateLayout cfg in
  let bank := generateHotcueBank layout channelNum in
  (forall i note, NOTES layout !! i = Some note ->
     bankPads bank !! note = Some (hotcueMapping channelNum (Z.of_nat i + 1)))
  /\ (forall note, is_Some (bankPads bank !! note) <-> note ∈ NOTES layout)
  /\ (forall n, 1 <= n <= 16 -> is_Some (NOTES layout !! Z.to_nat (n - 1))).
Proof.
  cbv zeta. destruct (generated_grid cfg) as (Hnd & Hlen & _).
  cbv zeta in Hnd, Hlen.
  unfold generateHotcueBank. cbn [bankPads].
  destruct (assignHotcue_fold channelNum (NOTES (generateLayout cfg)) ∅ 1 Hnd)
    as (_ & Hin & Hout). cbv zeta in Hin, Hout.
  split; [|split].
  - intros i note Hi. rewrite (Hin i note Hi). do 2 f_equal. lia.
  - intros note. split.
    + intros Hsome. destruct (decide (note ∈ NOTES (generateLayout cfg))); [assumption|].
      rewrite Hout, lookup_empty in Hsome by assumption. now destruct Hsome.
    + intros [i Hi]%list_elem_of_lookup_1. rewrite (Hin i note Hi). eauto.
  - intros n Hn. apply lookup_lt_is_Some_2. lia.
Qed.

(** X14: on every layout the script can generate, a hotcue bank gives
    each of the sixteen pads one hotcue of the bank's deck, numbered 1 to
    16 in the order of the layout's notes; so every hotcue from 1 to 16
    has exactly one pad, and no other note is mapped. *)
Theorem hotcue_bank_numbers_the_pads (cfg : Config) (channelNum : Z) :
  let layout := generateLayout cfg in
  let bank := generateHotcueBank layout channelNum in
  (forall i note, NOTES layout !! i = Some note ->
     bankPads bank !! note = Some (hotcueMapping channelNum (Z.of_nat i + 1)))
  /\ (forall note, is_Some (bankPads bank !! note) <-> note ∈ NOTES layout)
  /\ (forall n, 1 <= n <= 16 ->
        exists note, NOTES layout !! Z.to_nat (n - 1) = Some note
          /\ forall other m, bankPads bank !! other = Some m ->
               padNumber m = Some n -> other = note).
Proof.
  cbv zeta. destruct (generated_grid cfg) as (Hnd & Hlen & _).
  cbv zeta in Hnd, Hlen.
  unfold generateHotcueBank. cbn [bankPads].
  destruct (assignHotcue_fold channelNum (NOTES (generateLayout cfg)) ∅ 1 Hnd)
    as (_ & Hin & Hout). cbv zeta in Hin, Hout.
  assert (Hdom : forall note,
            is_Some (fst (foldl (assignHotcue channelNum) (∅, 1)
                            (NOTES (generateLayout cfg))) !! note)
            <-> note ∈ NOTES (generateLayout cfg)).
  { intros note. split.
    - intros Hsome. destruct (decide (note ∈ NOTES (generateLayout cfg))); [assumption|].
      rewrite Hout, lookup_empty in Hsome by assumption. now destruct Hsome.
    - intros [i Hi]%list_elem_of_lookup_1. rewrite (Hin i note Hi). eauto. }
  split; [|split; [exact Hdom|]].
  - intros i note Hi. rewrite (Hin i note Hi). do 2 f_equal. lia.
  - intros n Hn.
    destruct (lookup_lt_is_Some_2 (NOTES (generateLayout cfg)) (Z.to_nat (n - 1))
                ltac:(lia)) as [note Hnote].
    exists note. split; [exact Hnote|].
    intros other m Hother Hnum.
    pose proof (proj1 (Hdom other) (mk_is_Some _ _ Hother)) as Hj.
    apply list_elem_of_lookup_1 in Hj as [j Hj].
    rewrite (Hin j other Hj) in Hother. injection Hother as <-.
    cbn [padNumber hotcueMapping] in Hnum. injection Hnum as Hnum.
    assert (j = Z.to_nat (n - 1)) as -> by lia. congruence.
Qed.

End HotcueBanks.

(** * Finding the pad of a hotcue *)

Section PadLookup.

Implicit Types o : gmap Z PadMapping.

Lemma entry_keys_perm o : merge_sort Z.le (map_to_list o).*1 ≡ₚ (map_to_list o).*1.
Proof. apply merge_sort_Permutation. Qed.

(** [Object.entries] lists each mapped note once, with its mapping. *)
Lemma Object_entries_keys o :
  (Object_entries o).*1 = merge_sort Z.le (map_to_list o).*1.
Proof.
  unfold Object_entries.
  assert (H : forall k, k ∈ merge_sort Z.le (map_to_list o).*1 -> is_Some (o !! k)).
  { intros k. rewrite entry_keys_perm, list_elem_of_fmap.
    intros ([k' m] & -> & H). apply elem_of_map_to_list in H. eauto. }
  induction (merge_sort Z.le (map_to_list o).*1) as [|k ks IH]; [reflexivity|].
  cbn [omap list_omap]. destruct (H k ltac:(left)) as [m ->]. cbn.
  f_equal. apply IH. intros j Hj. apply H. now right.
Qed.

Lemma NoDup_Object_entries o : NoDup (Object_entries o).*1.
Proof. rewrite Object_entries_keys, entry_keys_perm. apply NoDup_fst_map_to_list. Qed.

Lemma elem_of_Object_entries o note m :
  (note, m) ∈ Object_entries o <-> o !! note = Some m.
Proof.
  unfold Object_entries. rewrite list_elem_of_omap. split.
  - intros (k & _ & Hk). destruct (o !! k) as [m'|] eqn:E; [|discriminate].
    cbn in Hk. now injection Hk as -> ->.
  - intros H. exists note. rewrite H. split; [|reflexivity].
    rewrite entry_keys_perm, list_elem_of_fmap. exists (note, m).
    split; [reflexivity|]. now apply elem_of_map_to_list.
Qed.

Lemma find_the_only {A} (P : A -> bool) (l : list A) (x : A) :
  x ∈ l -> P x = true -> (forall y, y ∈ l -> P y = true -> y = x) ->
  List.find P l = Some x.
Proof.
  induction l as [|y l IH]; intros Hx HP Honly; [now apply elem_of_nil in Hx|].
  cbn [List.find]. destruct (P y) eqn:Ey.
  - f_equal. apply Honly; [left|assumption].
  - apply elem_of_cons in Hx as [->|Hx]; [congruence|].
    apply IH; [assumption..|]. intros z Hz. apply Honly. now right.
Qed.

Lemma find_nothing {A} (P : A -> bool) (l : list A) :
  (forall y, y ∈ l -> P y = false) -> List.find P l = None.
Proof.
  induction l as [|y l IH]; intros H; [reflexivity|].
  cbn [List.find]. rewrite (H y) by left. apply IH. intros z Hz. apply H. now right.
Qed.

Lemma hotcue_cases n :
  1 <= n <= 16 ->
  n = 1 \/ n = 2 \/ n = 3 \/ n = 4 \/ n = 5 \/ n = 6 \/ n = 7 \/ n = 8 \/
  n = 9 \/ n = 10 \/ n = 11 \/ n = 12 \/ n = 13 \/ n = 14 \/ n = 15 \/ n = 16.
Proof. lia. Qed.

Ltac each_hotcue n Hn :=
  destruct (hotcue_cases n Hn) as
    [->|[->|[->|[->|[->|[->|[->|[->|[->|[->|[->|[->|[->|[->|[->| ->]]]]]]]]]]]]]]].

(** [===] on hotcue numbers is equality of the integers. *)
Lemma hotcue_strict_eq a b :
  1 <= a <= 16 -> 1 <= b <= 16 -> (JS.of_Z a ===! JS.of_Z b) = (a =? b).
Proof. intros Ha Hb. each_hotcue a Ha; each_hotcue b Hb; reflexivity. Qed.

(** The name of a hotcue's status control is read back as its number. *)
Lemma hotcueStatus_of_name n :
  1 <= n <= 16 -> hotcueStatus ("hotcue_" +:+ pretty n +:+ "_status") = Some n.
Proof. intros Hn. each_hotcue n Hn; vm_compute; reflexivity. Qed.

Variable cfg : Config.
Variable channelNum : Z.
Variable c : Controller.
Hypothesis Hbank :
  bankMappings c !! currentBank c = Some (generateHotcueBank (generateLayout cfg) channelNum).

Local Abbreviation notes := (NOTES (generateLayout cfg)).
Local Abbreviation bank := (generateHotcueBank (generateLayout cfg) channelNum).

Lemma hotcue_entries note m :
  (note, m) ∈ Object_entries (bankPads bank) ->
  exists i, notes !! i = Some note /\ (i < 16)%nat
            /\ m = hotcueMapping channelNum (Z.of_nat i + 1).
Proof.
  intros H. apply elem_of_Object_entries in H.
  destruct (hotcue_bank_lookup cfg channelNum) as (Hin & Hdom & _).
  cbv zeta in Hin, Hdom.
  destruct (generated_grid cfg) as (_ & Hlen & _). cbv zeta in Hlen.
  pose proof (proj1 (Hdom note) (mk_is_Some _ _ H)) as Hi.
  apply list_elem_of_lookup_1 in Hi as [i Hi].
  exists i. split; [exact Hi|]. split.
  - apply lookup_lt_Some in Hi. rewrite Hlen in Hi. exact Hi.
  - rewrite (Hin i note Hi) in H. now injection H.
Qed.

Lemma findPad_hotcue n :
  1 <= n <= 16 ->
  findPadForMapping (channelGroup (Some channelNum)) "hotcue" (Some n) c =
  notes !! Z.to_nat (n - 1).
Proof.
  intros Hn. unfold findPadForMapping. rewrite Hbank.
  destruct (hotcue_bank_lookup cfg channelNum) as (Hin & _ & Hone).
  cbv zeta in Hin, Hone. destruct (Hone n Hn) as [note Hnote].
  rewrite Hnote.
  rewrite (find_the_only _ _ (note, hotcueMapping channelNum n)); [reflexivity| | |].
  - apply elem_of_Object_entries. rewrite (Hin _ _ Hnote). do 2 f_equal. lia.
  - unfold mappingMatches. cbn [snd hotcueMapping padDeck padType padNumber].
    rewrite !String.eqb_refl, hotcue_strict_eq, Z.eqb_refl by assumption. reflexivity.
  - intros [other m] Hy. destruct (hotcue_entries other m Hy) as (i & Hi & Hlt & ->).
    unfold mappingMatches. cbn [snd hotcueMapping padDeck padType padNumber].
    rewrite !String.eqb_refl, hotcue_strict_eq by lia. cbn [andb].
    intros Heq%Z.eqb_eq. subst n. replace (Z.to_nat _) with i in Hnote by lia.
    congruence.
Qed.

Lemma findPad_other_deck deck number :
  deck <> channelGroup (Some channelNum) ->
  findPadForMapping deck "hotcue" number c = None.
Proof.
  intros Hdeck. unfold findPadForMapping. rewrite Hbank.
  rewrite find_nothing; [reflexivity|].
  intros [other m] Hy. destruct (hotcue_entries other m Hy) as (i & _ & _ & ->).
  unfold mappingMatches. cbn [snd hotcueMapping padDeck padType padNumber].
  rewrite (proj2 (String.eqb_neq _ _)) by congruence. reflexivity.
Qed.

Lemma findPad_other_type deck type number :
  (type = "hotcue" -> number = None) ->
  findPadForMapping deck type number c = None.
Proof.
  intros Htype. unfold findPadForMapping. rewrite Hbank.
  rewrite find_nothing; [reflexivity|].
  intros [other m] Hy. destruct (hotcue_entries other m Hy) as (i & _ & _ & ->).
  unfold mappingMatches. cbn [snd hotcueMapping padDeck padType padNumber].
  destruct (String.eqb_spec "hotcue" type) as [<-|Hne].
  - rewrite (Htype eq_refl). cbn. apply andb_false_r.
  - rewrite andb_false_r. reflexivity.
Qed.

(** X15: while a hotcue bank is the current bank, looking up the pad of
    hotcue [n] of the bank's deck, for [n] from 1 to 16, finds the pad
    that bank maps to hotcue [n], the [n]-th pad of the layout; a lookup
    for another deck, or for a feature, finds nothing. *)
Theorem hotcue_pad_lookup_inverts_the_bank (n : Z) :
  1 <= n <= 16 ->
  (exists note,
     findPadForMapping (channelGroup (Some channelNum)) "hotcue" (Some n) c = Some note
     /\ notes !! Z.to_nat (n - 1) = Some note
     /\ bankPads bank !! note = Some (hotcueMapping channelNum n))
  /\ (forall deck number, deck <> channelGroup (Some channelNum) ->
        findPadForMapping deck "hotcue" number c = None)
  /\ (forall deck type number, type <> "hotcue" ->
        findPadForMapping deck type number c = None).
Proof.
  intros Hn. split; [|split].
  - destruct (hotcue_bank_lookup cfg channelNum) as (Hin & _ & Hone).
    cbv zeta in Hin, Hone. destruct (Hone n Hn) as [note Hnote].
    exists note. rewrite findPad_hotcue by assumption.
    split; [exact Hnote|]. split; [exact Hnote|].
    rewrite (Hin _ _ Hnote). do 2 f_equal. lia.
  - intros deck number. apply findPad_other_deck.
  - intros deck type number Htype. apply findPad_other_type. congruence.
Qed.

(** X16: while a hotcue bank is the current bank, a change of
    [hotcue_n_status] on the bank's deck, for [n] from 1 to 16, sends one
    LED update for the [n]-th pad of the layout: on when the new value is
    above 0, off otherwise.  A hotcue change on another deck, a control
    that is no hotcue status, and any feature change send nothing. *)
Theorem hotcue_status_drives_its_pad (n : Z) (value : JS.number) :
  1 <= n <= 16 ->
  (exists note, notes !! Z.to_nat (n - 1) = Some note /\
     EngineCallbacks.hotcueChanged value (channelGroup (Some channelNum))
       ("hotcue_" +:+ pretty n +:+ "_status") c =
     withWorld (emit (setPadLED note (value >! JS.lit_0)) (world c)) c)
  /\ (forall deck control, deck <> channelGroup (Some channelNum) ->
        EngineCallbacks.hotcueChanged value deck control c = c)
  /\ (forall deck control, hotcueStatus control = None ->
        EngineCallbacks.hotcueChanged value deck control c = c)
  /\ (forall deck control, EngineCallbacks.featureChanged value deck control c = c).
Proof.
  intros Hn. split; [|split; [|split]].
  - destruct (hotcue_bank_lookup cfg channelNum) as (_ & _ & Hone).
    cbv zeta in Hone. destruct (Hone n Hn) as [note Hnote].
    exists note. split; [exact Hnote|].
    unfold EngineCallbacks.hotcueChanged.
    rewrite hotcueStatus_of_name, findPad_hotcue, Hnote by assumption. reflexivity.
  - intros deck control Hdeck. unfold EngineCallbacks.hotcueChanged.
    destruct (hotcueStatus control); [|reflexivity].
    now rewrite findPad_other_deck.
  - intros deck control Hno. unfold EngineCallbacks.hotcueChanged. now rewrite Hno.
  - intros deck control. unfold EngineCallbacks.featureChanged.
    rewrite findPad_other_type; [reflexivity|]. reflexivity.
Qed.

End PadLookup.

(** * The feature bank *)

Section JsObjects.

Context {K A : Type} `{EqDecision K}.

Implicit Types o : list (K * A).




End JsObjects.

Section LastWrite.




End LastWrite.


Section Grid.

Variable grid : list (list Z).
Hypothesis Hnd : NoDup (concat grid).


Variable n : nat.
Hypothesis Hrows : Forall (fun row => length row = n) grid.


End Grid.




Section FeatureBank.

Variable cfg : Config.
Variable options : PadOptions.
Variables (a b c d : Z) (f0 f1 f2 f3 : string).

Hypothesis Hdecks : deckOrder cfg = [a; b; c; d].
Hypothesis Hdistinct : NoDup [a; b; c; d].
Hypothesis Hfeatures : rowOrder (featureRows options) = [Some f0; Some f1; Some f2; Some f3].
Hypothesis Hnames : NoDup [f0; f1; f2; f3].
Hypothesis Hnonempty : "" ∉ [f0; f1; f2; f3].

Local Abbreviation grid := (GRID (generateLayout cfg)).
Local Abbreviation decks :=
  (if String.eqb (indexOrder options) "ascending" then [a; b; c; d] else [d; c; b; a]).
Local Abbreviation channels :=
  (extractChannels grid (indexOrder options) (deckOrder cfg)).
Local Abbreviation features := (extractFeatureRows grid (featureRows options)).







End FeatureBank.

Section FeatureCallbacks.






Variable cfg : Config.
Variable options : PadOptions.
Variables (a b c d : Z) (f0 f1 f2 f3 : string).
Variable ctrl : Controller.

Hypothesis Hdecks : deckOrder cfg = [a; b; c; d].
Hypothesis Hdistinct : NoDup [a; b; c; d].
Hypothesis Hfeatures : rowOrder (featureRows options) = [Some f0; Some f1; Some f2; Some f3].
Hypothesis Hnames : NoDup [f0; f1; f2; f3].
Hypothesis Hnonempty : "" ∉ [f0; f1; f2; f3].
Hypothesis Hnohotcue : "hotcue" ∉ [f0; f1; f2; f3].
Hypothesis Hbank : bankMappings ctrl !! currentBank ctrl = generateAllBanks cfg options !! 1.

Local Abbreviation grid := (GRID (generateLayout cfg)).
Local Abbreviation decks :=
  (if String.eqb (indexOrder options) "ascending" then [a; b; c; d] else [d; c; b; a]).


End FeatureCallbacks.

(** * Returning the pads to the engine's state *)

Section Repaint.

Lemma ledFrom_app st note es1 es2 :
  ledFrom st note (es1 ++ es2) = ledFrom (ledFrom st note es1) note es2.
Proof. apply foldl_app. Qed.

Lemma ledFrom_setPadLED st note n b :
  ledFrom st note (setPadLED n b) = if n =? note then Some b else st.
Proof. destruct b; cbn; destruct (n =? note); reflexivity. Qed.

(** One update per key of a list of distinct keys: the pad's own update
    decides, and a pad without one keeps its state. *)
Lemma ledFrom_updates {E} (key : E -> Z) (led : E -> bool) (l : list E) (note : Z) :
  NoDup (key <$> l) -> forall st,
  ledFrom st note (flat_map (fun e => setPadLED (key e) (led e)) l) =
  match List.find (fun e => key e =? note) l with
  | Some e => Some (led e)
  | None => st
  end.
Proof.
  induction l as [|x l IH]; intros Hnd st; [reflexivity|].
  apply NoDup_cons in Hnd as [Hx Hnd]. cbn [flat_map List.find].
  rewrite ledFrom_app, ledFrom_setPadLED, IH by assumption.
  destruct (Z.eqb_spec (key x) note) as [Hk|Hk]; [|reflexivity].
  rewrite find_nothing; [reflexivity|].
  intros y Hy. apply Z.eqb_neq. intros Hy'. apply Hx. rewrite Hk, <- Hy'.
  now apply list_elem_of_fmap_2.
Qed.

Lemma find_entry (o : gmap Z PadMapping) note :
  List.find (fun e => fst e =? note) (Object_entries o) = pair note <$> o !! note.
Proof.
  destruct (o !! note) as [m|] eqn:E; cbn.
  - apply find_the_only.
    + now apply elem_of_Object_entries.
    + apply Z.eqb_refl.
    + intros [k m'] Hy Hk. apply Z.eqb_eq in Hk. cbn in Hk. subst k.
      apply elem_of_Object_entries in Hy. congruence.
  - apply find_nothing. intros [k m'] Hy. apply Z.eqb_neq. cbn. intros ->.
    apply elem_of_Object_entries in Hy. congruence.
Qed.

Lemma find_key (o : gmap Z bool) note :
  List.find (fun k => k =? note) (Object_keys o) =
  match o !! note with Some _ => Some note | None => None end.
Proof.
  destruct (o !! note) as [b|] eqn:E.
  - apply find_the_only.
    + apply elem_of_Object_keys. eauto.
    + apply Z.eqb_refl.
    + intros k _ Hk. now apply Z.eqb_eq in Hk.
  - apply find_nothing. intros k Hk. apply Z.eqb_neq. intros ->.
    apply elem_of_Object_keys in Hk as [b Hb]. congruence.
Qed.

(** What [syncFeatureLEDs] sends for a bank: one update for each of its
    pads. *)
Lemma sync_sends (c : Controller) (bank : Bank) :
  bankMappings c !! currentBank c = Some bank ->
  LEDManager.syncFeatureLEDs c =
  withWorld (emit (flat_map (fun entry => setPadLED (fst entry) (ledState (snd entry) (world c)))
                            (Object_entries (bankPads bank))) (world c)) c.
Proof. intros H. unfold LEDManager.syncFeatureLEDs. now rewrite H. Qed.

Lemma ledFrom_sync (bank : Bank) (w : World) st note :
  ledFrom st note (flat_map (fun entry => setPadLED (fst entry) (ledState (snd entry) w))
                            (Object_entries (bankPads bank))) =
  match bankPads bank !! note with
  | Some m => Some (ledState m w)
  | None => st
  end.
Proof.
  rewrite (ledFrom_updates fst (fun entry => ledState (snd entry) w))
    by apply NoDup_Object_entries.
  rewrite find_entry. now destruct (bankPads bank !! note).
Qed.

Lemma ledFrom_offs (o : gmap Z bool) st note :
  ledFrom st note (flat_map (fun n => setPadLED n false) (Object_keys o)) =
  match o !! note with Some _ => Some false | None => st end.
Proof.
  rewrite (ledFrom_updates id (fun _ => false))
    by (rewrite list_fmap_id; apply NoDup_Object_keys).
  unfold id. rewrite find_key. now destruct (o !! note).
Qed.

Lemma leds_only_offs (keys : list Z) :
  List.filter isLedMessage (flat_map (fun n => setPadLED n false) keys) =
  flat_map (fun n => setPadLED n false) keys.
Proof. induction keys as [|k l IH]; [reflexivity|]. cbn. now rewrite IH. Qed.

Lemma leds_only_sync {E} (key : E -> Z) (led : E -> bool) (l : list E) :
  List.filter isLedMessage (flat_map (fun e => setPadLED (key e) (led e)) l) =
  flat_map (fun e => setPadLED (key e) (led e)) l.
Proof.
  induction l as [|x l IH]; [reflexivity|]. cbn [flat_map].
  rewrite List.filter_app, IH. now destruct (led x).
Qed.

(** X18: when the timer of a feedback session fires, the session is
    reset to idle and every pad of the current bank is left showing the
    engine's state of its control: lit when the control is above 0, dark
    otherwise.  A pad the session had lit that the bank does not map is
    switched off, and every other pad is left alone.  Only LED messages
    are sent, and the other session, the engine's controls and the bank
    selection stay as they were. *)
Theorem ending_feedback_returns_pads_to_engine_state (callback : Callback) (c : Controller)
    (bank : Bank) :
  bankMappings c !! currentBank c = Some bank ->
  let w := world c in
  let c' := fire callback c in
  let lit := currentPadStates (sessionOf callback (state w)) in
  let sent := sentSince w (world c') in
  sessionOf callback (state (world c')) = idleFeedback
  /\ (forall note m, bankPads bank !! note = Some m ->
        ledAfter note sent = Some (ledState m w))
  /\ (forall note, bankPads bank !! note = None ->
        ledAfter note sent = match lit !! note with Some _ => Some false | None => None end)
  /\ List.filter isLedMessage sent = sent
  /\ otherSession callback (state (world c')) = otherSession callback (state w)
  /\ controls (world c') = controls w
  /\ currentBank c' = currentBank c /\ bankMappings c' = bankMappings c.
Proof.
  intros Hbank. cbv zeta.
  assert (Hsent : sentSince (world c) (world (fire callback c)) =
            flat_map (fun n => setPadLED n false)
              (Object_keys (currentPadStates (sessionOf callback (state (world c)))))
            ++ flat_map (fun entry => setPadLED (fst entry) (ledState (snd entry) (world c)))
                 (Object_entries (bankPads bank))).
  { unfold sentSince. destruct callback; cbn [fire sessionOf];
      unfold LEDManager.endZoomFeedback, LEDManager.endSuperknobFeedback; cbv zeta;
      (rewrite (sync_sends _ bank) by exact Hbank);
      cbn [world withWorld emit output withZoomFeedback withSuperknobFeedback withState];
      now rewrite <- app_assoc, drop_app_length. }
  rewrite Hsent. unfold ledAfter.
  split; [|split; [|split; [|split]]].
  - destruct callback; cbn [fire sessionOf];
      unfold LEDManager.endZoomFeedback, LEDManager.endSuperknobFeedback; cbv zeta;
      (rewrite (sync_sends _ bank) by exact Hbank); reflexivity.
  - intros note m Hm. now rewrite ledFrom_app, ledFrom_sync, Hm.
  - intros note Hm. now rewrite ledFrom_app, ledFrom_sync, Hm, ledFrom_offs.
  - rewrite List.filter_app, leds_only_offs.
    now rewrite (leds_only_sync fst (fun entry => ledState (snd entry) (world c))).
  - destruct callback; cbn [fire otherSession];
      unfold LEDManager.endZoomFeedback, LEDManager.endSuperknobFeedback; cbv zeta;
      (rewrite (sync_sends _ bank) by exact Hbank); repeat split; reflexivity.
Qed.

(** X19: [setBank] with a bank number outside 1 to 3 changes nothing.
    With a number from 1 to 3 it selects that bank and leaves every pad
    the bank maps showing the engine's state of its control; the pads the
    bank does not map, the feedback sessions and the engine's controls
    are left alone. *)
Theorem setBank_repaints_the_bank (bankNum : Z) (c : Controller) :
  (bankNum < 1 \/ 3 < bankNum -> setBank bankNum c = c)
  /\ (1 <= bankNum <= 3 -> forall bank, bankMappings c !! bankNum = Some bank ->
      let c' := setBank bankNum c in
      let sent := sentSince (world c) (world c') in
      currentBank c' = bankNum
      /\ (forall note m, bankPads bank !! note = Some m ->
            ledAfter note sent = Some (ledState m (world c)))
      /\ (forall note, bankPads bank !! note = None -> ledAfter note sent = None)
      /\ state (world c') = state (world c) /\ controls (world c') = controls (world c)).
Proof.
  unfold setBank. split.
  - intros Hout. destruct (Z.leb_spec 1 bankNum), (Z.leb_spec bankNum 3);
      try reflexivity; lia.
  - intros Hin bank Hbank. cbv zeta.
    rewrite (proj2 (Z.leb_le 1 bankNum)), (proj2 (Z.leb_le bankNum 3)) by lia. cbn [andb].
    rewrite (sync_sends _ bank) by exact Hbank.
    unfold sentSince, ledAfter.
    cbn [world withWorld emit output currentBank state controls].
    rewrite drop_app_length. split; [reflexivity|]. split; [|split; [|split; reflexivity]].
    + intros note m Hm. now rewrite ledFrom_sync, Hm.
    + intros note Hm. now rewrite ledFrom_sync, Hm.
Qed.

End Repaint.
(** * Pad presses *)

Section PadPresses.

Lemma showZoomFeedback_active deck x w :
  active (zoomFeedback (state (showZoomFeedback deck x w))) = true.
Proof.
  destruct (unchangedZoom deck x w) eqn:Hpath.
  - destruct (showZoomFeedback_same deck x w Hpath) as (-> & _). cbn [active].
    unfold unchangedZoom in Hpath. cbv zeta in Hpath.
    now apply andb_true_iff in Hpath as [[Ha _]%andb_true_iff _].
  - now destruct (showZoomFeedback_update deck x w Hpath) as (_ & -> & _).
Qed.

Lemma showSuperknobFeedback_active deck x w :
  active (superknobFeedback (state (showSuperknobFeedback deck x w))) = true.
Proof.
  destruct (unchangedSuperknob deck x w) eqn:Hpath.
  - destruct (showSuperknobFeedback_same deck x w Hpath) as (-> & _). cbn [active].
    unfold unchangedSuperknob in Hpath. cbv zeta in Hpath.
    now apply andb_true_iff in Hpath as [[Ha _]%andb_true_iff _].
  - now destruct (showSuperknobFeedback_update deck x w Hpath) as (_ & ->).
Qed.

(** X20: a pad release, and any pad press while the zoom or the
    superknob session is shown, is ignored: nothing is written, sent or
    started.  So after a zoom motion with zoom feedback enabled, and after
    any superknob motion, the pads stay without effect until the session's
    timer has fired. *)
Theorem pads_are_ignored_while_feedback_shows (control value : Z) (deck : string)
    (direction speed : JS.number) (c : Controller) :
  handlePad control 0 c = (c, None)
  /\ (active (zoomFeedback (state (world c))) = true -> handlePad control value c = (c, None))
  /\ (active (superknobFeedback (state (world c))) = true ->
      handlePad control value c = (c, None))
  /\ (zoomFeedbackEnabled (config (world c)) = true ->
      let c' := withWorld (handleZoom deck direction speed (world c)) c in
      handlePad control value c' = (c', None))
  /\ (forall w', handleSuperknob deck direction speed (world c) = Some w' ->
      handlePad control value (withWorld w' c) = (withWorld w' c, None)).
Proof.
  assert (Hzoom : forall c, active (zoomFeedback (state (world c))) = true ->
                    handlePad control value c = (c, None)).
  { intros c0 H. unfold handlePad. rewrite H. now destruct (value =? 0). }
  assert (Hknob : forall c, active (superknobFeedback (state (world c))) = true ->
                    handlePad control value c = (c, None)).
  { intros c0 H. unfold handlePad. rewrite H.
    destruct (value =? 0); [reflexivity|].
    destruct (active (zoomFeedback (state (world c0)))); reflexivity. }
  split; [reflexivity|]. split; [apply Hzoom|]. split; [apply Hknob|]. split.
  - intros Hen. apply Hzoom. cbn [world withWorld]. rewrite handleZoom_unfold.
    cbv zeta. rewrite Hen. apply showZoomFeedback_active.
  - intros w' Hw'. apply Hknob. cbn [world withWorld].
    destruct (superknob_after_handleSuperknob _ _ _ _ _ Hw') as [-> _].
    apply showSuperknobFeedback_active.
Qed.

Lemma toggle_is_no_hotcue type : isToggle type = true -> String.eqb type "hotcue" = false.
Proof.
  unfold isToggle. intros H.
  repeat (apply orb_true_iff in H as [H|H]); apply String.eqb_eq in H as ->; reflexivity.
Qed.

Lemma handlePad_mapped (c : Controller) (bank : Bank) (control value : Z)
    (mapping : PadMapping) :
  value <> 0 ->
  active (zoomFeedback (state (world c))) = false ->
  active (superknobFeedback (state (world c))) = false ->
  bankMappings c !! currentBank c = Some bank ->
  bankPads bank !! control = Some mapping ->
  handlePad control value c =
  (withWorld
     {| config := config (pressMapping mapping (world c));
        padLayout := padLayout (pressMapping mapping (world c));
        encoderMappings := encoderMappings (pressMapping mapping (world c));
        state := state (pressMapping mapping (world c));
        controls := controls (pressMapping mapping (world c));
        nextTimer := nextTimer (pressMapping mapping (world c)) + 1;
        output := output (pressMapping mapping (world c)) |} c,
   Some {| ledTimer := nextTimer (pressMapping mapping (world c)); ledDelay := 50;
           ledNote := control; ledMapping := mapping |}).
Proof.
  intros Hpress Hzoom Hknob Hbank Hmapping.
  unfold handlePad. rewrite (proj2 (Z.eqb_neq value 0) Hpress), Hzoom, Hknob, Hbank, Hmapping.
  reflexivity.
Qed.

Variable c : Controller.
Variable bank : Bank.
Variable control value : Z.
Variable mapping : PadMapping.

Hypothesis Hpress : value <> 0.
Hypothesis Hzoom : active (zoomFeedback (state (world c))) = false.
Hypothesis Hknob : active (superknobFeedback (state (world c))) = false.
Hypothesis Hbank : bankMappings c !! currentBank c = Some bank.
Hypothesis Hmapping : bankPads bank !! control = Some mapping.

(** X21: with no feedback shown, pressing a pad that the current bank
    maps to one of the four toggles writes 0 to the toggle's control when
    it read as set and 1 when it did not, and starts one timer of 50 ms;
    when that timer fires the pad is lit exactly if the toggle is now
    set.  A second press sets the toggle back.  Pressing a pad mapped to
    hotcue [n] writes 1 to [hotcue_n_activate] instead. *)
Theorem pad_press_toggles_its_feature :
  let w := world c in
  let pressed := handlePad control value c in
  let c' := fst pressed in
  (isToggle (padType mapping) = true ->
   let current := engine_getValue (padDeck mapping) (padType mapping) w in
   let written := if JS.truthy current then JS.lit_0 else JS.lit_1 in
   output (world c') = output w ++ [setValue (padDeck mapping) (padType mapping) written]
   /\ engine_getValue (padDeck mapping) (padType mapping) (world c') = written
   /\ snd pressed = Some {| ledTimer := nextTimer w; ledDelay := 50; ledNote := control;
                            ledMapping := mapping |}
   /\ nextTimer (world c') = nextTimer w + 1
   /\ (forall u, snd pressed = Some u ->
         sentSince (world c') (world (runLedUpdate u c')) =
         setPadLED control (negb (JS.truthy current)))
   /\ JS.truthy (engine_getValue (padDeck mapping) (padType mapping)
                   (world (fst (handlePad control value c')))) = JS.truthy current)
  /\ (forall n, padType mapping = "hotcue" -> padNumber mapping = Some n ->
      output (world c') =
        output w ++ [setValue (padDeck mapping) ("hotcue_" +:+ pretty n +:+ "_activate")
                              JS.lit_1]
      /\ snd pressed = Some {| ledTimer := nextTimer w; ledDelay := 50; ledNote := control;
                               ledMapping := mapping |}).
Proof.
  cbv zeta. rewrite (handlePad_mapped c bank control value mapping) by assumption.
  cbn [fst snd world withWorld]. split.
  - intros Htoggle. pose proof (toggle_is_no_hotcue _ Htoggle) as Hno.
    assert (Hpressed : pressMapping mapping (world c) =
              engine_setValue (padDeck mapping) (padType mapping)
                (if JS.truthy (engine_getValue (padDeck mapping) (padType mapping) (world c))
                 then JS.lit_0 else JS.lit_1) (world c)).
    { unfold pressMapping. now rewrite Hno, Htoggle. }
    rewrite Hpressed. cbn [output engine_setValue nextTimer controls config padLayout
                              encoderMappings state].
    split; [reflexivity|]. split.
    { unfold engine_getValue at 1. cbn [controls]. now rewrite !String.eqb_refl. }
    split; [reflexivity|]. split; [reflexivity|]. split.
    + intros u [= <-]. unfold runLedUpdate, sentSince.
      cbn [world withWorld emit output ledNote ledMapping].
      rewrite drop_app_length. f_equal.
      unfold ledState, statusControl, engine_getValue. rewrite Hno. cbn [controls].
      rewrite !String.eqb_refl. cbn [andb]. now destruct (JS.truthy _).
    + rewrite (handlePad_mapped _ bank control value mapping) by assumption.
      cbn [fst world withWorld controls]. unfold pressMapping. rewrite Hno, Htoggle.
      unfold engine_getValue, engine_setValue. cbn [controls].
      rewrite !String.eqb_refl. cbn [andb]. now destruct (JS.truthy _).
  - intros n Htype Hnum.
    assert (Hpressed : pressMapping mapping (world c) =
              engine_setValue (padDeck mapping) ("hotcue_" +:+ pretty n +:+ "_activate")
                JS.lit_1 (world c)).
    { unfold pressMapping. now rewrite Htype, Hnum. }
    rewrite Hpressed. split; reflexivity.
Qed.

End PadPresses.

(** The bpmlock pad of deck 3 pressed on the fresh script. *)
Lemma pad_press_toggles_its_feature_witness :
  exists bank mapping,
    127 <> 0 /\ active (zoomFeedback (state (world freshController))) = false /\
    active (superknobFeedback (state (world freshController))) = false /\
    bankMappings freshController !! currentBank freshController = Some bank /\
    bankPads bank !! 48 = Some mapping /\
    isToggle (padType mapping) = true /\
    output (world (fst (handlePad 48 127 freshController))) =
      [setValue "[Channel3]" "bpmlock" JS.lit_1].
Proof.
  eexists _, _.
  assert (Hbank : bankMappings freshController !! currentBank freshController =
                  Some (generateFeatureBank
                          (extractChannels (GRID (generateLayout defaultConfig)) "ascending"
                             [3; 1; 2; 4])
                          (extractFeatureRows (GRID (generateLayout defaultConfig))
                             (featureRows defaultPadOptions))))
    by (vm_compute; reflexivity).
  assert (Hmapping : bankPads (generateFeatureBank
                          (extractChannels (GRID (generateLayout defaultConfig)) "ascending"
                             [3; 1; 2; 4])
                          (extractFeatureRows (GRID (generateLayout defaultConfig))
                             (featureRows defaultPadOptions))) !! 48 =
                     Some (featureMapping "bpmlock" (Some 3)))
    by (vm_compute; reflexivity).
  assert (Hpress : 127 <> 0) by lia.
  split; [exact Hpress|]. split; [reflexivity|]. split; [reflexivity|].
  split; [exact Hbank|]. split; [exact Hmapping|]. split; [reflexivity|].
  exact (proj1 (proj1 (pad_press_toggles_its_feature freshController _ 48 127 _
                        Hpress eq_refl eq_refl Hbank Hmapping) eq_refl)).
Defined.

(** Hotcue 5 of deck 1 on the fresh script switched to bank 2. *)
Lemma hotcue_pad_lookup_inverts_the_bank_witness :
  let c := setBank 2 freshController in
  bankMappings c !! currentBank c = Some (generateHotcueBank (generateLayout defaultConfig) 1)
  /\ 1 <= 5 <= 16
  /\ findPadForMapping "[Channel1]" "hotcue" (Some 5) c = Some 50.
Proof.
  cbv zeta.
  assert (Hbank : bankMappings (setBank 2 freshController)
                    !! currentBank (setBank 2 freshController) =
                  Some (generateHotcueBank (generateLayout defaultConfig) 1))
    by (vm_compute; reflexivity).
  split; [exact Hbank|]. split; [lia|].
  destruct (hotcue_pad_lookup_inverts_the_bank defaultConfig 1 (setBank 2 freshController)
              Hbank 5 ltac:(lia)) as ((note & Hfind & Hnote & _) & _).
  change "[Channel1]" with (channelGroup (Some 1)).
  rewrite Hfind, <- Hnote. reflexivity.
Defined.

Lemma hotcue_status_drives_its_pad_witness :
  let c := setBank 2 freshController in
  bankMappings c !! currentBank c = Some (generateHotcueBank (generateLayout defaultConfig) 1)
  /\ 1 <= 5 <= 16
  /\ EngineCallbacks.hotcueChanged (JS.of_Z 1) "[Channel1]" "hotcue_5_status" c =
     withWorld (emit (setPadLED 50 true) (world c)) c.
Proof.
  cbv zeta.
  assert (Hbank : bankMappings (setBank 2 freshController)
                    !! currentBank (setBank 2 freshController) =
                  Some (generateHotcueBank (generateLayout defaultConfig) 1))
    by (vm_compute; reflexivity).
  split; [exact Hbank|]. split; [lia|].
  destruct (hotcue_status_drives_its_pad defaultConfig 1 (setBank 2 freshController)
              Hbank 5 (JS.of_Z 1) ltac:(lia)) as ((note & Hnote & Hsent) & _).
  change (NOTES (generateLayout defaultConfig) !! Z.to_nat (5 - 1)) with (Some 50) in Hnote.
  injection Hnote as <-. exact Hsent.
Defined.


(** A zoom of 8.0 shown on the fresh script, and its timer firing. *)
Lemma ending_feedback_returns_pads_to_engine_state_witness :
  let c := withWorld (showZoomFeedback "[Channel1]" (JS.of_Z 8) freshWorld) freshController in
  exists bank, bankMappings c !! currentBank c = Some bank /\
    zoomFeedback (state (world (fire endZoomFeedback c))) = idleFeedback /\
    ledAfter 48 (sentSince (world c) (world (fire endZoomFeedback c))) = Some false.
Proof.
  cbv zeta. eexists.
  assert (Hbank : bankMappings (withWorld (showZoomFeedback "[Channel1]" (JS.of_Z 8) freshWorld)
                                  freshController)
                    !! currentBank (withWorld (showZoomFeedback "[Channel1]" (JS.of_Z 8)
                                                 freshWorld) freshController) =
                  Some (generateFeatureBank
                          (extractChannels (GRID (generateLayout defaultConfig)) "ascending"
                             [3; 1; 2; 4])
                          (extractFeatureRows (GRID (generateLayout defaultConfig))
                             (featureRows defaultPadOptions))))
    by (vm_compute; reflexivity).
  split; [exact Hbank|].
  destruct (ending_feedback_returns_pads_to_engine_state endZoomFeedback _ _ Hbank)
    as (Hidle & Hleds & _).
  cbv zeta in Hidle, Hleds. split; [exact Hidle|].
  rewrite (Hleds 48 (featureMapping "bpmlock" (Some 3))) by (vm_compute; reflexivity).
  reflexivity.
Defined.
(** * Encoder speeds *)

Section EncoderSpeeds.

Lemma valid_speed_is_truthy v : isValidSpeed (Some v) = true -> JS.truthy v = true.
Proof.
  unfold isValidSpeed. intros [H _]%andb_true_iff.
  destruct v as [[]|[]| |[] m e]; try reflexivity; discriminate.
Qed.

Lemma valid_default (old : JS.number) (new : option JS.number) :
  isValidSpeed (Some old) = true -> isValidSpeed new = true ->
  isValidSpeed (Some (default old new)) = true.
Proof. now destruct new. Qed.

(** A table generated from valid speeds holds truthy speeds only. *)
Lemma generated_speeds_truthy cfg ch m :
  speedsOk cfg -> generateEncoderMappings cfg !! ch = Some m ->
  JS.or_else (speed m) JS.lit_1 = speed m.
Proof.
  intros (Hf & Hs & Hb) Hm. unfold generateEncoderMappings in Hm. cbv zeta in Hm.
  apply elem_of_list_to_map_2 in Hm. rewrite !elem_of_cons, elem_of_nil in Hm.
  unfold JS.or_else.
  repeat (destruct Hm as [[= _ ->]|Hm];
          [cbn [speed]; rewrite ?valid_speed_is_truthy by assumption; reflexivity|]).
  destruct Hm.
Qed.

(** X22: [setEncoderSpeeds] changes nothing at all when one of its
    arguments is not a number above 0 and below 1000, [NaN] included.
    Otherwise each speed that was passed replaces the configured one, the
    layout settings, the state and the host are left alone, and the
    encoder table is generated anew from the changed configuration; if
    the configured speeds were valid before they are valid afterwards, so
    that no mapping's speed is replaced by the fallback of 1. *)
Theorem encoder_speeds_are_validated (fast slow beatgrid jogwheel scrub : option JS.number)
    (w : World) (spare : SpareSpeeds) :
  let result := setEncoderSpeeds fast slow beatgrid jogwheel scrub w spare in
  let w' := fst result in
  (isValidSpeed fast && isValidSpeed slow && isValidSpeed beatgrid
   && isValidSpeed jogwheel && isValidSpeed scrub = false -> result = (w, spare))
  /\ isValidSpeed (Some JS.NaN) = false
  /\ (isValidSpeed fast && isValidSpeed slow && isValidSpeed beatgrid
      && isValidSpeed jogwheel && isValidSpeed scrub = true ->
      zoomFast (config w') = default (zoomFast (config w)) fast
      /\ zoomSlow (config w') = default (zoomSlow (config w)) slow
      /\ beatgridSpeed (config w') = default (beatgridSpeed (config w)) beatgrid
      /\ snd result = {| jogwheelSpeed := default (jogwheelSpeed spare) jogwheel;
                         scrubSpeed := default (scrubSpeed spare) scrub |}
      /\ encoderMappings w' = generateEncoderMappings (config w')
      /\ (rotation (config w'), rotationDirection (config w'), deckOrder (config w'))
         = (rotation (config w), rotationDirection (config w), deckOrder (config w))
      /\ state w' = state w /\ controls w' = controls w /\ output w' = output w)
  /\ (speedsOk (config w) -> speedsOk (config w')
      /\ (encoderMappings w = generateEncoderMappings (config w) ->
          forall ch m, encoderMappings w' !! ch = Some m ->
            JS.or_else (speed m) JS.lit_1 = speed m)).
Proof.
  cbv zeta. unfold setEncoderSpeeds.
  destruct (isValidSpeed fast && isValidSpeed slow && isValidSpeed beatgrid
            && isValidSpeed jogwheel && isValidSpeed scrub) eqn:Hall.
  - apply andb_true_iff in Hall as [Hall E5]. apply andb_true_iff in Hall as [Hall E4].
    apply andb_true_iff in Hall as [Hall E3]. apply andb_true_iff in Hall as [E1 E2].
    rewrite E1, E2, E3, E4, E5. cbn [negb orb fst snd config encoderMappings].
    split; [discriminate|]. split; [reflexivity|].
    split; [intros _; repeat split; reflexivity|].
    intros (Hf & Hs & Hb).
    assert (Hok : speedsOk
              {| rotation := rotation (config w);
                 rotationDirection := rotationDirection (config w);
                 deckOrder := deckOrder (config w);
                 zoomFast := default (zoomFast (config w)) fast;
                 zoomSlow := default (zoomSlow (config w)) slow;
                 beatgridSpeed := default (beatgridSpeed (config w)) beatgrid;
                 zoomFeedbackEnabled := zoomFeedbackEnabled (config w);
                 zoomFeedbackDuration := zoomFeedbackDuration (config w);
                 reverseDirection := reverseDirection (config w) |}).
    { repeat split; cbn [zoomFast zoomSlow beatgridSpeed]; now apply valid_default. }
    split; [exact Hok|]. intros _ ch m Hm. exact (generated_speeds_truthy _ ch m Hok Hm).
  - assert (Hsame : negb (isValidSpeed fast) || negb (isValidSpeed slow)
                    || negb (isValidSpeed beatgrid) || negb (isValidSpeed jogwheel)
                    || negb (isValidSpeed scrub) = true).
    { destruct (isValidSpeed fast), (isValidSpeed slow), (isValidSpeed beatgrid),
        (isValidSpeed jogwheel), (isValidSpeed scrub); try reflexivity; discriminate. }
    rewrite Hsame. cbn [fst snd].
    split; [reflexivity|]. split; [reflexivity|]. split; [discriminate|].
    intros Hok. split; [exact Hok|]. intros Hgen ch m Hm. rewrite Hgen in Hm.
    exact (generated_speeds_truthy _ ch m Hok Hm).
Qed.

End EncoderSpeeds.

(** A finer slow zoom set on the fresh script; a speed of 0 is refused. *)
Lemma encoder_speeds_are_validated_example :
  let spare := {| jogwheelSpeed := JS.of_Z 1200; scrubSpeed := JS.lit_0_001 |} in
  zoomSlow (config (fst (setEncoderSpeeds None (Some JS.lit_0_05) None None None
                           freshWorld spare))) = JS.lit_0_05
  /\ setEncoderSpeeds None (Some JS.lit_0) None None None freshWorld spare
     = (freshWorld, spare).
Proof. split; reflexivity. Qed.

(** * The pads lit on the device *)

Section DeviceLeds.






Lemma empty_keys (o : gmap Z bool) : Object_keys o = [] -> forall k, truthyAt o k = false.
Proof.
  intros H k. unfold truthyAt. destruct (o !! k) as [b|] eqn:E; [|reflexivity].
  assert (Hin : k ∈ Object_keys o) by (apply elem_of_Object_keys; eauto).
  rewrite H in Hin. now apply elem_of_nil in Hin.
Qed.





End DeviceLeds.

Section ZoomOnDevice.




End ZoomOnDevice.



(** * A session that shows no pad *)

Section EmptySession.

Lemma offs_as_sent (l : list Z) :
  flat_map (fun n => setPadLED n false) l = flat_map (fun n => [sendShortMsg 0x89 n 0]) l.
Proof. reflexivity. Qed.

Lemma ons_as_sent (l : list Z) :
  flat_map (fun n => setPadLED n true) l =
  flat_map (fun n => [sendShortMsg 0x99 n 127; sendShortMsg 0xB9 n 127]) l.
Proof. reflexivity. Qed.

(** C7, as the code has it: a superknob session whose pad-state object
    is empty, as it is after showing a value of 0 or 1 (no pad), takes the
    branch written for the first activation again on its next [show] with
    a changed value: it
    sends an "off" for every pad of the layout, none of which the session
    holds as lit, and then the "on" messages of the new target set.  The
    old lit set is empty, so no pad of it is absent from the target set. *)
Theorem superknob_session_without_pads_clears_all (deck : string) (value : JS.number)
    (w : World) :
  let fb := superknobFeedback (state w) in
  let target := superknobTarget value w in
  active fb = true -> Object_keys (currentPadStates fb) = [] ->
  unchangedSuperknob deck value w = false ->
  litPads (currentPadStates fb) = []
  /\ stalePads target (currentPadStates fb) = []
  /\ ledMessagesSince w (showSuperknobFeedback deck value w) =
       flat_map (fun n => [sendShortMsg 0x89 n 0]) (NOTES (padLayout w)) ++
       flat_map (fun n => [sendShortMsg 0x99 n 127; sendShortMsg 0xB9 n 127])
                (Object_keys target).
Proof.
  cbv zeta. intros _ Hempty Hchanged.
  assert (Hlit : litPads (currentPadStates (superknobFeedback (state w))) = [])
    by (unfold litPads; now rewrite Hempty).
  assert (Hstale : stalePads (superknobTarget value w)
                     (currentPadStates (superknobFeedback (state w))) = [])
    by (unfold stalePads; now rewrite Hempty).
  split; [exact Hlit|]. split; [exact Hstale|].
  destruct (showSuperknobFeedback_update deck value w Hchanged) as (Hout & _).
  cbv zeta in Hout. rewrite decide_True in Hout by assumption.
  unfold ledMessagesSince. rewrite Hout, drop_app_length, !List.filter_app.
  rewrite no_ledMessages_in_stop, allPadsOff_leds.
  rewrite (ledMessages_of_update _ _ (allLit_superknobTarget value w)).
  rewrite (proj1 (differentialUpdate_spec _ _ (allLit_superknobTarget value w))), Hstale.
  cbn [flat_map app List.filter isLedMessage]. rewrite app_nil_r.
  unfold allPadsOff. rewrite offs_as_sent, ons_as_sent. f_equal. f_equal.
  unfold freshPads. apply forallb_filter_id, forallb_forall. intros k _.
  now rewrite (empty_keys _ Hempty).
Qed.

End EmptySession.

(** The superknob of deck 1 at its left end in the fresh script: a turn
    to the left shows the value 0, no pad; the turn to the right that
    follows shows 0.001, still no pad, and switches all sixteen pads off
    again. *)
Lemma superknob_session_without_pads_clears_all_witness :
  let control := "[QuickEffectRack1_[Channel1]]" in
  let w1 := showSuperknobFeedback "[Channel1]" JS.lit_0
              (engine_setValue control "super1" JS.lit_0 freshWorld) in
  let w := engine_setValue control "super1" JS.lit_0_001 w1 in
  handleSuperknob "[Channel1]" (JS.neg JS.lit_1) JS.lit_1 freshWorld = Some w1 /\
  handleSuperknob "[Channel1]" JS.lit_1 JS.lit_1 w1 =
    Some (showSuperknobFeedback "[Channel1]" JS.lit_0_001 w) /\
  active (superknobFeedback (state w)) = true /\
  Object_keys (currentPadStates (superknobFeedback (state w))) = [] /\
  unchangedSuperknob "[Channel1]" JS.lit_0_001 w = false /\
  ledMessagesSince w (showSuperknobFeedback "[Channel1]" JS.lit_0_001 w) =
    flat_map (fun n => [sendShortMsg 0x89 n 0]) (NOTES (padLayout w)) ++
    flat_map (fun n => [sendShortMsg 0x99 n 127; sendShortMsg 0xB9 n 127])
             (Object_keys (superknobTarget JS.lit_0_001 w)) /\
  NOTES (padLayout w) = [51; 47; 43; 39; 50; 46; 42; 38; 49; 45; 41; 37; 48; 44; 40; 36] /\
  Object_keys (superknobTarget JS.lit_0_001 w) = [].
Proof.
  cbv zeta. split; [reflexivity|]. split; [reflexivity|].
  split; [reflexivity|]. split; [reflexivity|]. split; [reflexivity|].
  split; [|split; vm_compute; reflexivity].
  exact (proj2 (proj2 (superknob_session_without_pads_clears_all "[Channel1]" JS.lit_0_001
           (engine_setValue "[QuickEffectRack1_[Channel1]]" "super1" JS.lit_0_001
              (showSuperknobFeedback "[Channel1]" JS.lit_0
                 (engine_setValue "[QuickEffectRack1_[Channel1]]" "super1" JS.lit_0
                    freshWorld)))
           eq_refl eq_refl eq_refl))).
Defined.
